(** * Amon master and relay: probes, monitors, the UFDS model helpers, event
      dispatch and the relay's agent-probe endpoints

    A shallow embedding of
    - [master/lib/probes.js]      (the Probe model, its put authorization, the
                                   DNs of a request and Probe.get),
    - [ufdsmodel.js]              (modelList, modelPut, modelGet, modelDelete,
                                   requestList, requestGet, requestDelete),
    - [monitors.js]               (the Monitor model, Monitor.get,
                                   apiFakeMonitorFault and invalidAction),
    - [master/lib/app.js]         (asyncForEach, setup, accountFromLogin,
                                   processEvent, notifyContact),
    - [relay/lib/agentprobes.js]  (headAgentProbes, listAgentProbes),
    - [bootstrap.js]              (the wait for the new zone in createDevzone),
    followed by the properties proved about them.

    Conventions.  A JavaScript callback [function (err, value)] that is called
    exactly once on every path is the function's result.  A thrown exception
    is the [Throw] case of [res]; where a callback itself may throw, the
    function is given it as an argument.  Absent object properties are
    [None].  Collaborators whose code is outside these files (JSON, ldapjs,
    the probe-type plugins, MAPI, the directory, the notification plugins,
    the file system) are fields of classes or records, so every statement
    holds for each of their behaviours. *)

From Stdlib Require Import ZArith String Ascii List Permutation Lia.
From stdpp Require Import base option list gmap strings pretty.

Open Scope string_scope.
Set Warnings "-register-all,-clear-no-such-hyp".

(* ===================================================================== *)
(** ** JavaScript values, errors and results *)
(* ===================================================================== *)

Module Js.

(** JSON values, as [JSON.parse] produces them. *)
Inductive json :=
| JNull
| JBool (b : bool)
| JNum (n : Z)
| JStr (s : string)
| JArr (items : list json)
| JObj (fields : list (string * json)).

(** [if (x)] on a string: only the empty string is falsy. *)
Definition truthy_string (s : string) : bool :=
  match s with EmptyString => false | String _ _ => true end.

(** [if (x)] on a JSON value. *)
Definition truthy_json (v : json) : bool :=
  match v with
  | JNull => false
  | JBool b => b
  | JNum n => negb (n =? 0)%Z
  | JStr s => truthy_string s
  | JArr _ | JObj _ => true
  end.

(** [if (obj.field)] on a property that may be absent ([undefined]). *)
Definition truthy {A} (t : A → bool) (o : option A) : bool :=
  match o with Some a => t a | None => false end.

Definition truthyS : option string → bool := truthy truthy_string.
Definition truthyJ : option json → bool := truthy truthy_json.

(** The error objects the code creates or inspects.  The first four are
    [restify.RESTError]s; [NoSuchObjectError] is ldapjs's; [OtherError] is any
    other error object, with its [httpCode] property when it has one. *)
Inductive errkind :=
| MissingParameterError
| InvalidArgumentError
| ResourceNotFoundError
| InternalError
| NoSuchObjectError
| TypeError
| OtherError (code : option Z).

Record jserr := JsErr { kind : errkind; message : string }.

Definition httpCode (e : jserr) : option Z :=
  match kind e with
  | MissingParameterError | InvalidArgumentError => Some 409%Z
  | ResourceNotFoundError => Some 404%Z
  | InternalError => Some 500%Z
  | NoSuchObjectError | TypeError => None
  | OtherError c => c
  end.

(** [err instanceof restify.RESTError] *)
Definition isRESTError (e : jserr) : bool :=
  match kind e with
  | MissingParameterError | InvalidArgumentError
  | ResourceNotFoundError | InternalError => true
  | _ => false
  end.

(** [err.httpCode === n] *)
Definition httpCode_is (n : Z) (e : jserr) : bool :=
  match httpCode e with Some c => (c =? n)%Z | None => false end.

(** The result of code that may throw. *)
Inductive res (A : Type) :=
| Ok (a : A)
| Throw (e : jserr).
Arguments Ok {A} a.
Arguments Throw {A} e.

Definition bind {A B} (m : res A) (k : A → res B) : res B :=
  match m with Ok a => k a | Throw e => Throw e end.

Definition is_Ok {A} (m : res A) : bool :=
  match m with Ok _ => true | Throw _ => false end.

(** What an asynchronous call hands to its callback [function (err, value)]:
    [Failed err] for [callback(err)], [Done v] for [callback(null, v)]. *)
Inductive outcome (A : Type) :=
| Done (a : A)
| Failed (e : jserr).
Arguments Done {A} a.
Arguments Failed {A} e.

(** What [JSON.parse] does: a value, or the text of the SyntaxError. *)
Inductive parsed :=
| Parsed (v : json)
| SyntaxError (msg : string).

(** One line written to the log: its level and its text. *)
Inductive loglevel := LTrace | LDebug | LInfo | LWarn | LError.
Record logline := LogLine { level : loglevel; text : string }.

(** [s] starts with [p]. *)
Fixpoint starts_with (p s : string) : bool :=
  match p, s with
  | EmptyString, _ => true
  | String a p', String b s' => Ascii.eqb a b && starts_with p' s'
  | String _ _, EmptyString => false
  end.

(** [hay] contains [needle]. *)
Fixpoint mentions (needle hay : string) : bool :=
  starts_with needle hay
  || match hay with
     | EmptyString => false
     | String _ rest => mentions needle rest
     end.

Definition dquote : string := String "034"%char EmptyString.

(** [String(x)] of a property that may be absent. *)
Definition String_of (o : option string) : string :=
  match o with Some s => s | None => "undefined" end.

End Js.

Export Js.

(** [res] is a monad: [x ← m; k] runs [k] unless [m] threw. *)
#[export] Instance res_ret : MRet res := @Ok.
#[export] Instance res_bind : MBind res := λ A B k m, bind m k.

(* ===================================================================== *)
(** ** master/lib/probes.js: the Probe model *)
(* ===================================================================== *)

Module Probes.

(** The object [Probe.validate] works on: the attributes of the directory
    entry.  [raw_global] holds [true] once validation has set it, or whatever
    the directory entry carried. *)
Record Raw := mkRaw {
  raw_amonprobe : option string;
  raw_type : option string;
  raw_objectclass : option string;
  raw_config : option string;
  raw_machine : option string;
  raw_server : option string;
  raw_global : option json
}.

(** A probe-type plugin: [validateConfig] returns the message of the error it
    throws, if it throws. *)
Record ProbeType := mkProbeType {
  validateConfig : json → option string;
  runInGlobal : bool
}.

(** One relative distinguished name: its attributes and their values. *)
Definition RDN := list (string * string).

Fixpoint rdn_attr (r : RDN) (a : string) : option string :=
  match r with
  | [] => None
  | (k, v) :: r' => if String.eqb k a then Some v else rdn_attr r' a
  end.

(** What the model takes from its surroundings: the JSON built-ins, the [%j]
    directive of [format], [ldap.parseDN] ([None] when it throws) and the
    [amon-plugins] table of probe types ([plugins[type]]). *)
Class Platform := {
  JSON_parse : string → parsed;
  JSON_stringify : json → string;
  format_j : Raw → string;
  ldap_parseDN : string → option (list RDN);
  plugins : string → option ProbeType
}.

(** The public representation handed to [new Probe(app, data)] (augmented
    with name, monitor and user), which is also what [serialize] returns. *)
Record PublicData := mkPublicData {
  data_user : option string;
  data_monitor : option string;
  data_name : option string;
  data_type : option string;
  data_config : option json;
  data_machine : option string;
  data_server : option string;
  data_global : option json
}.

(** The raw response from UFDS. *)
Record UfdsEntry := mkUfdsEntry {
  ent_dn : string;
  ent_objectclass : string;
  ent_amonprobe : option string;
  ent_type : option string;
  ent_config : option string;
  ent_machine : option string;
  ent_server : option string;
  ent_global : option json
}.

(** The two shapes of [data]. *)
Inductive ProbeData :=
| FromUfds (e : UfdsEntry)
| FromPublic (d : PublicData).

(** A Probe instance: [this.dn], [this.user], [this.monitor], [this.raw]. *)
Record Probe := mkProbe {
  dn : string;
  user : option string;
  monitor : option string;
  raw : Raw
}.

(** *** Regular expressions *)

Definition in_range (lo hi : nat) (c : ascii) : bool :=
  let n := nat_of_ascii c in (lo <=? n)%nat && (n <=? hi)%nat.

Definition is_digit : ascii → bool := in_range 48 57.
Definition is_hex (c : ascii) : bool := is_digit c || in_range 97 102 c.
Definition is_alpha (c : ascii) : bool := in_range 97 122 c || in_range 65 90 c.
Definition is_name_char (c : ascii) : bool :=
  is_alpha c || is_digit c
  || Ascii.eqb c "_"%char || Ascii.eqb c "."%char || Ascii.eqb c "-"%char.

Fixpoint all_chars (f : ascii → bool) (s : string) : bool :=
  match s with
  | EmptyString => true
  | String c s' => f c && all_chars f s'
  end.

(** [n] characters of class [f], then the rest. *)
Fixpoint take_class (f : ascii → bool) (n : nat) (s : string) : option string :=
  match n with
  | O => Some s
  | S n' =>
    match s with
    | String c s' => if f c then take_class f n' s' else None
    | EmptyString => None
    end
  end.

Definition take_dash (s : string) : option string :=
  match s with
  | String c s' => if Ascii.eqb c "-"%char then Some s' else None
  | EmptyString => None
  end.

(** [UUID_RE.test(s)]:
    /^[0-9a-f]{8}-[0-9a-f]{4}-[0-9a-f]{4}-[0-9a-f]{4}-[0-9a-f]{12}$/ *)
Definition UUID_RE_test (s : string) : bool :=
  match
    s1 ← take_class is_hex 8 s; s2 ← take_dash s1;
    s3 ← take_class is_hex 4 s2; s4 ← take_dash s3;
    s5 ← take_class is_hex 4 s4; s6 ← take_dash s5;
    s7 ← take_class is_hex 4 s6; s8 ← take_dash s7;
    take_class is_hex 12 s8
  with
  | Some EmptyString => true
  | _ => false
  end.

(** [Probe._nameRegex.test(s)]: /^[a-zA-Z][a-zA-Z0-9_\.-]{0,31}$/ *)
Definition nameRegex_test (s : string) : bool :=
  match s with
  | EmptyString => false
  | String c rest =>
    is_alpha c && all_chars is_name_char rest && (String.length rest <=? 31)%nat
  end.

(** *** Errors *)

Definition MissingParameter (msg : string) : jserr := JsErr MissingParameterError msg.
Definition InvalidArgument (msg : string) : jserr := JsErr InvalidArgumentError msg.
Definition Internal (msg : string) : jserr := JsErr InternalError msg.
Definition newTypeError (msg : string) : jserr := JsErr TypeError msg.

Section WithPlatform.
Context `{!Platform}.

(** [Probe.validateName] *)
Definition validateName (name : option string) : res unit :=
  if nameRegex_test (String_of name) then Ok tt
  else Throw (InvalidArgument
    ("Probe name is invalid: '" +:+ String_of name +:+ "'")).

(** The loop of [Probe.validate] over [requiredFields], in key order. *)
Definition requireField (value : option string) (exported : string) : res unit :=
  if truthyS value then Ok tt
  else Throw (MissingParameter
    ("'" +:+ exported +:+ "' is a required parameter for a probe")).

(** One of 'machine' or 'server' is required. *)
Definition validateTarget (r : Raw) : res unit :=
  if truthyS (raw_machine r) && truthyS (raw_server r) then
    Throw (InvalidArgument
      ("must specify only one of 'machine' or 'server' for a probe: "
       +:+ format_j r))
  else if truthyS (raw_machine r) then
    if UUID_RE_test (String_of (raw_machine r)) then Ok tt
    else Throw (InvalidArgument
      ("invalid probe machine UUID: '" +:+ String_of (raw_machine r) +:+ "'"))
  else if truthyS (raw_server r) then
    if UUID_RE_test (String_of (raw_server r)) then Ok tt
    else Throw (InvalidArgument
      ("invalid probe server UUID: '" +:+ String_of (raw_server r) +:+ "'"))
  else
    Throw (MissingParameter
      ("must specify one of 'machine' or 'server' for a probe: "
       +:+ format_j r)).

(** Validate the probe config against its type. *)
Definition validateProbeConfig (T : ProbeType) (r : Raw) : res unit :=
  if truthyS (raw_config r) then
    let text := String_of (raw_config r) in
    match JSON_parse text with
    | SyntaxError e =>
      Throw (InvalidArgument
        ("probe config, " +:+ text +:+ ", is invalid: " +:+ e))
    | Parsed config =>
      match validateConfig T config with
      | Some msg =>
        Throw (InvalidArgument
          ("probe config, " +:+ text +:+ ", is invalid: "
           +:+ dquote +:+ msg +:+ dquote))
      | None => Ok tt
      end
    end
  else Ok tt.

Definition set_global (r : Raw) (g : option json) : Raw :=
  mkRaw (raw_amonprobe r) (raw_type r) (raw_objectclass r) (raw_config r)
        (raw_machine r) (raw_server r) g.

(** [Probe.validate(app, raw)] *)
Definition validate (r : Raw) : res Raw :=
  requireField (raw_amonprobe r) "name" ;;
  requireField (raw_type r) "type" ;;
  validateTarget r ;;
  match plugins (String_of (raw_type r)) with
  | None =>
    Throw (InvalidArgument
      ("probe type is invalid: " +:+ dquote +:+ String_of (raw_type r) +:+ dquote))
  | Some T =>
    validateProbeConfig T r ;;
    Ok (if runInGlobal T then set_global r (Some (JBool true)) else r)
  end.

(** [Probe.parseDn(dn)]; indexing a missing RDN throws a TypeError. *)
Record DnParts := mkDnParts {
  parts_user : option string;
  parts_monitor : option string;
  parts_name : option string
}.

Definition parseDn (d : string) : res DnParts :=
  match ldap_parseDN d with
  | None => Throw (JsErr (OtherError None) ("invalid DN: " +:+ d))
  | Some rdns =>
    match rdns !! 2%nat, rdns !! 1%nat, rdns !! 0%nat with
    | Some r2, Some r1, Some r0 =>
      Ok (mkDnParts (rdn_attr r2 "uuid") (rdn_attr r1 "amonmonitor")
                    (rdn_attr r0 "amonprobe"))
    | _, _, _ => Throw (newTypeError "Cannot read property of undefined")
    end
  end.

(** [Probe.dn(user, monitor, name)] *)
Definition Probe_dn (u m n : string) : string :=
  "amonprobe=" +:+ n +:+ ", amonmonitor=" +:+ m +:+ ", uuid=" +:+ u
  +:+ ", ou=users, o=smartdc".

Definition Probe_objectclass : string := "amonprobe".

(** The [else] branch of the constructor: the public representation. *)
Definition raw_of_public (d : PublicData) : Raw :=
  mkRaw (data_name d) (data_type d) (Some Probe_objectclass)
    (if truthyJ (data_config d)
     then option_map JSON_stringify (data_config d) else None)
    (if truthyS (data_machine d) then data_machine d else None)
    (if truthyS (data_server d) then data_server d else None)
    None.

(** [raw = objCopy(data); delete raw.dn] *)
Definition raw_of_entry (e : UfdsEntry) : Raw :=
  mkRaw (ent_amonprobe e) (ent_type e) (Some (ent_objectclass e))
    (ent_config e) (ent_machine e) (ent_server e) (ent_global e).

Definition construct_public (d : PublicData) : res Probe :=
  if negb (truthyS (data_name d)) then
    Throw (newTypeError "invalid probe data: no name")
  else if negb (truthyS (data_monitor d)) then
    Throw (newTypeError "invalid probe data: no monitor")
  else if negb (truthyS (data_user d)) then
    Throw (newTypeError "invalid probe data: no user")
  else
    let r := raw_of_public d in
    validateName (raw_amonprobe r) ;;
    r' ← validate r;
    Ok (mkProbe
          (Probe_dn (String_of (data_user d)) (String_of (data_monitor d))
                    (String_of (data_name d)))
          (data_user d) (data_monitor d) r').

Definition construct_ufds (e : UfdsEntry) : res Probe :=
  if negb (String.eqb (ent_objectclass e) Probe_objectclass) then
    Throw (newTypeError
      ("invalid probe data: objectclass " +:+ dquote +:+ ent_objectclass e
       +:+ dquote +:+ " !== " +:+ dquote +:+ Probe_objectclass +:+ dquote))
  else
    p ← parseDn (ent_dn e);
    let r := raw_of_entry e in
    validateName (raw_amonprobe r) ;;
    r' ← validate r;
    Ok (mkProbe (ent_dn e) (parts_user p) (parts_monitor p) r').

(** [new Probe(app, data)].  [app] and [data] are always given, so the two
    guards on them never throw.  An entry whose [objectclass] is the empty
    string takes the public branch, where it has no name. *)
Definition new_Probe (data : ProbeData) : res Probe :=
  match data with
  | FromUfds e =>
    if truthy_string (ent_objectclass e) then construct_ufds e
    else Throw (newTypeError "invalid probe data: no name")
  | FromPublic d => construct_public d
  end.

(** The getters defined by the constructor. *)
Definition name (p : Probe) : option string := raw_amonprobe (raw p).
Definition type (p : Probe) : option string := raw_type (raw p).
Definition machine (p : Probe) : option string := raw_machine (raw p).
Definition server (p : Probe) : option string := raw_server (raw p).
Definition global (p : Probe) : option json := raw_global (raw p).
Definition config (p : Probe) : option json :=
  if truthyS (raw_config (raw p)) then
    match JSON_parse (String_of (raw_config (raw p))) with
    | Parsed v => Some v
    | SyntaxError _ => None
    end
  else None.

(** [Probe.prototype.serialize(priv)] *)
Definition serialize (priv : bool) (p : Probe) : PublicData :=
  mkPublicData (user p) (monitor p) (name p) (type p)
    (if truthyJ (config p) then config p else None)
    (if truthyS (machine p) then machine p else None)
    (if truthyS (server p) then server p else None)
    (if priv then (if truthyJ (global p) then global p else None) else None).

(** *** Authorizing a put *)

(** A machine record as MAPI returns it. *)
Record Machine := mkMachine { machine_name : string; machine_owner : string }.

(** The calls [authorizePut] makes on the app, each with the arguments its
    callback receives: [app.mapi.getMachine(owner, machine)] gives
    [(err, machine)], [app.isOperator(user)] gives [(err, isOperator)] and
    [app.serverExists(server)] gives [(err, serverExists)]. *)
Class MasterServices := {
  mapi_getMachine : option string → string → option jserr * option Machine;
  isOperator : option string → option jserr * bool;
  serverExists : string → option jserr * bool
}.

Context `{!MasterServices}.

(** [async.series(tasks, cb)]: the tasks run in order; the first one that
    reports an error ends the series with it.  A task that throws takes the
    whole call down. *)
Fixpoint async_series (tasks : list (res (option string))) : res (option string) :=
  match tasks with
  | [] => Ok None
  | t :: rest =>
    r ← t;
    match r with
    | Some e => Ok (Some e)
    | None => async_series rest
    end
  end.

Definition isRunInGlobalOrErr (p : Probe) : res (option string) :=
  match plugins (String_of (type p)) with
  | None => Throw (newTypeError "Cannot read property 'runInGlobal' of undefined")
  | Some T =>
    if runInGlobal T then Ok None
    else Ok (Some ("not runInGlobal: " +:+ String_of (type p)))
  end.

Definition isExistingMachineOrErr (p : Probe) : res (option string) :=
  let '(_, m) := mapi_getMachine (Some "") (String_of (machine p)) in
  match m with
  | Some _ => Ok None
  | None => Ok (Some ("no such machine: " +:+ String_of (machine p)))
  end.

Definition userIsOperatorOrErr (p : Probe) : res (option string) :=
  let '(err, isOp) := isOperator (user p) in
  if bool_decide (is_Some err) then Ok (Some "err determining if operator")
  else if isOp then Ok None
  else Ok (Some ("not operator: " +:+ String_of (user p))).

Definition internal_authorizing : jserr :=
  Internal "Internal error authorizing probe put.".

(** [Probe.prototype.authorizePut(app, callback)]: the argument of the
    callback, [None] when the put is authorized.  The log calls are left out.
    In the callback of [serverExists] the test [if (err)] reads the variable
    of the enclosing [isOperator] callback, which is null there; the
    callback's own [$err] is only logged. *)
Definition authorizePut (p : Probe) : res (option jserr) :=
  if truthyS (machine p) then
    let '(err, _) := mapi_getMachine (user p) (String_of (machine p)) in
    match err with
    | Some e =>
      if httpCode_is 404 e then
        not3 ← async_series
                 [isRunInGlobalOrErr p; isExistingMachineOrErr p;
                  userIsOperatorOrErr p];
        match not3 with
        | Some _ =>
          Ok (Some (InvalidArgument
            ("Invalid 'machine': machine '" +:+ String_of (machine p)
             +:+ "' does not exist or is not owned by user '"
             +:+ String_of (user p) +:+ "'.")))
        | None => Ok None
        end
      else Ok (Some internal_authorizing)
    | None => Ok None
    end
  else if truthyS (server p) then
    let '(err, isOp) := isOperator (user p) in
    if bool_decide (is_Some err) then Ok (Some internal_authorizing)
    else if negb isOp then
      Ok (Some (InvalidArgument
        ("Must be operator put a probe on a server (server="
         +:+ String_of (server p) +:+ "): user '" +:+ String_of (user p)
         +:+ "' is not an operator.")))
    else
      let '(_, exists_) := serverExists (String_of (server p)) in
      if bool_decide (is_Some err) then Ok (Some internal_authorizing)
      else if negb exists_ then
        Ok (Some (InvalidArgument
          ("'server', " +:+ String_of (server p)
           +:+ ", is invalid: no such server")))
      else Ok None
  else Ok (Some internal_authorizing).

End WithPlatform.

End Probes.

(* ===================================================================== *)
(** ** ufdsmodel.js: list, get and delete of model instances in UFDS *)
(* ===================================================================== *)

Module UfdsModel.

(** The interface ufdsmodel.js expects of a [Model]: the constructor
    [new Model(app, data)], [serialize], [Model.name], [Model.objectclass]
    and the [dn] of an instance.  [Data] is what the constructor accepts: a
    raw UFDS entry or a serialized instance.  [item_parentDn] is the DN an
    instance is listed under, which the invalidation of the list cache goes
    by, and [data_dn] the [dn] property of a raw entry, which the log lines
    quote. *)
Class Model := {
  Item : Type;
  Data : Type;
  Model_name : string;
  Model_objectclass : string;
  new_Model : Data → res Item;
  Model_serialize : Item → Data;
  item_dn : Item → string;
  item_parentDn : Item → string;
  data_dn : Data → string
}.

Record SearchOpts := mkOpts { opt_filter : option string; opt_scope : string }.

(** A request made to the directory. *)
Inductive dircall :=
| DSearch (base : string) (opts : SearchOpts)
| DDelete (target : string).

(** The directory behind [app.ufdsSearch] and [app.ufdsDelete]. *)
Class Directory (Entry : Type) := {
  dirstate : Type;
  ufdsSearch : dirstate → string → SearchOpts → outcome (list Entry);
  ufdsDelete : dirstate → string → option jserr * dirstate
}.

Section WithModel.
Context `{M : Model} `{D : !Directory Data}.

(** A cache value [{err: <error>, data: <data>}]. *)
Inductive cdata :=
| CUndefined
| COne (d : Data)
| CMany (ds : list Data).

Record centry := mkEntry { c_err : option jserr; c_data : cdata }.

(** The app as the helpers see it: its cache, the directory, the directory
    requests made so far (oldest first) and the log. *)
Record App := mkApp {
  cache : gmap (string * string) centry;
  ufds : dirstate;
  calls : list dircall;
  log : list logline
}.

Definition logto (lvl : loglevel) (txt : string) (app : App) : App :=
  mkApp (cache app) (ufds app) (calls app) (log app ++ [LogLine lvl txt]).

Definition called (c : dircall) (app : App) : App :=
  mkApp (cache app) (ufds app) (calls app ++ [c]) (log app).

Definition set_ufds (d : dirstate) (app : App) : App :=
  mkApp (cache app) d (calls app) (log app).

(** Modelled from the spec: [app.cacheGet], [app.cacheSet] and [app.cacheDel]
    are methods of the App that are not in these files.  The spec's cache is
    keyed by (scope, key); expiry and eviction only ever turn a hit into a
    miss and are left out. *)
Definition cacheGet (app : App) (scope key : string) : option centry :=
  cache app !! (scope, key).

(** Modelled from the spec: [app.cacheSet(scope, key, value)], see
    [cacheGet]. *)
Definition cacheSet (app : App) (scope key : string) (v : centry) : App :=
  mkApp (<[(scope, key) := v]> (cache app)) (ufds app) (calls app) (log app).

(** Modelled from the spec: [app.cacheDel(scope, key)], see [cacheGet]. *)
Definition cacheDel (app : App) (scope key : string) : App :=
  mkApp (delete (scope, key) (cache app)) (ufds app) (calls app) (log app).

(** Modelled from the spec: [app.cacheInvalidateDelete(modelName, item)] is a
    method of the App that is not in these files.  The spec: on DELETE the
    cache entries for the entity DN (get) and the parent DN (list) are
    invalidated. *)
Definition cacheInvalidateDelete (app : App) (modelName : string) (item : Item) : App :=
  cacheDel (cacheDel app (modelName +:+ "Get") (item_dn item))
           (modelName +:+ "List") (item_parentDn item).

(** What the cache check at the head of [modelList] and [modelGet] leads to:
    the callback is called, or the function carries on to the directory. *)
Inductive cachecheck (A : Type) :=
| Answer (app : App) (r : outcome A)
| CarryOn (app : App).
Arguments Answer {A} app r.
Arguments CarryOn {A} app.

(** The log line of the [catch] around [new Model(app, entry)]. *)
Definition construct_logged (d : Data) (err2 : jserr) : logline :=
  if isRESTError err2 then
    LogLine LWarn ("Ignoring invalid " +:+ Model_name +:+ " (dn='"
                   +:+ data_dn d +:+ "'): " +:+ message err2)
  else
    LogLine LError ("Unknown error with " +:+ Model_name +:+ " entry:").

(** The loop of [modelList] over [rawItems]: the instances pushed and the
    lines logged. *)
Fixpoint construct_each (rawItems : list Data) : list logline * list Item :=
  match rawItems with
  | [] => ([], [])
  | d :: rest =>
    let '(lines, instances) := construct_each rest in
    match new_Model d with
    | Ok i => (lines, i :: instances)
    | Throw err2 => (construct_logged d err2 :: lines, instances)
    end
  end.

Definition logall (lines : list logline) (app : App) : App :=
  mkApp (cache app) (ufds app) (calls app) (log app ++ lines).

Definition modelList_cached (app : App) (cacheScope cacheKey : string)
  : cachecheck (list Item) :=
  match cacheGet app cacheScope cacheKey with
  | None => CarryOn app
  | Some cached =>
    let app := logto LTrace "modelList: cache hit" app in
    match c_err cached with
    | Some e => Answer app (Failed e)
    | None =>
      match c_data cached with
      | CMany ds =>
        match mapM new_Model ds with
        | Ok items => Answer app (Done items)
        | Throw e =>
          CarryOn (cacheDel (logto LWarn ("error in cached data: " +:+ message e) app)
                            cacheScope cacheKey)
        end
      | _ =>
        CarryOn (cacheDel (logto LWarn "error in cached data: not a list" app)
                          cacheScope cacheKey)
      end
    end
  end.

(** [cacheAndCallback(cErr, cItems)] of [modelList] *)
Definition modelList_cacheAndCallback (app : App) (cacheScope cacheKey : string)
    (r : outcome (list Item)) : App * outcome (list Item) :=
  let v := match r with
           | Failed cErr => mkEntry (Some cErr) CUndefined
           | Done cItems => mkEntry None (CMany (map Model_serialize cItems))
           end in
  (cacheSet app cacheScope cacheKey v, r).

(** The directory half of [modelList]: the search and its callback. *)
Definition modelList_search (app : App) (cacheScope cacheKey parentDn : string)
  : App * outcome (list Item) :=
  let opts := mkOpts (Some ("(objectclass=" +:+ Model_objectclass +:+ ")")) "sub" in
  let app := called (DSearch parentDn opts) (logto LTrace "modelList: ufds search" app) in
  match ufdsSearch (ufds app) parentDn opts with
  | Failed err =>
    if httpCode_is 503 err then (app, Failed err)
    else modelList_cacheAndCallback app cacheScope cacheKey (Failed err)
  | Done rawItems =>
    let '(lines, instances) := construct_each rawItems in
    let app := logto LTrace "instances:" (logall lines app) in
    modelList_cacheAndCallback app cacheScope cacheKey (Done instances)
  end.

(** [modelList(app, Model, parentDn, log, callback)] *)
Definition modelList (app : App) (parentDn : string) : App * outcome (list Item) :=
  let app := logto LInfo "modelList" app in
  let cacheScope := Model_name +:+ "List" in
  let cacheKey := parentDn in
  match modelList_cached app cacheScope cacheKey with
  | Answer app r => (app, r)
  | CarryOn app => modelList_search app cacheScope cacheKey parentDn
  end.

Definition modelGet_cached (app : App) (cacheScope dn : string) : cachecheck Item :=
  match cacheGet app cacheScope dn with
  | None => CarryOn app
  | Some cached =>
    match c_err cached with
    | Some e => Answer app (Failed e)
    | None =>
      match c_data cached with
      | COne d =>
        match new_Model d with
        | Ok item => Answer app (Done item)
        | Throw e =>
          CarryOn (cacheDel (logto LWarn ("error in cached data: " +:+ message e) app)
                            cacheScope dn)
        end
      | _ =>
        CarryOn (cacheDel (logto LWarn "error in cached data: not an object" app)
                          cacheScope dn)
      end
    end
  end.

(** [cacheAndCallback(err, item)] of [modelGet] *)
Definition modelGet_cacheAndCallback (app : App) (skipCache : bool)
    (cacheScope dn : string) (r : outcome Item) : App * outcome Item :=
  let v := match r with
           | Failed err => mkEntry (Some err) CUndefined
           | Done item => mkEntry None (COne (Model_serialize item))
           end in
  (if skipCache then app else cacheSet app cacheScope dn v, r).

Definition is_NoSuchObjectError (e : jserr) : bool :=
  match kind e with NoSuchObjectError => true | _ => false end.

(** The directory half of [modelGet]: the search and its callback. *)
Definition modelGet_search (app : App) (skipCache : bool) (cacheScope dn : string)
  : App * outcome Item :=
  let opts := mkOpts None "base" in
  let app := called (DSearch dn opts) app in
  match ufdsSearch (ufds app) dn opts with
  | Failed err =>
    if httpCode_is 503 err then (app, Failed err)
    else if is_NoSuchObjectError err then
      modelGet_cacheAndCallback app skipCache cacheScope dn
        (Failed (JsErr ResourceNotFoundError "not found"))
    else modelGet_cacheAndCallback app skipCache cacheScope dn (Failed err)
  | Done entries =>
    match entries with
    | [entry] =>
      match new_Model entry with
      | Throw err2 =>
        (logall [construct_logged entry err2] app,
         Failed (JsErr InternalError "invalid entry"))
      | Ok item =>
        modelGet_cacheAndCallback app skipCache cacheScope dn (Done item)
      end
    | _ =>
      (logto LError "multiple hits in UFDS for one dn" app,
       Failed (JsErr InternalError "conflicting entries"))
    end
  end.

(** [modelGet(app, Model, dn, log, skipCache, callback)] *)
Definition modelGet (app : App) (dn : string) (skipCache : bool) : App * outcome Item :=
  let app := logto LInfo "modelGet" app in
  let cacheScope := Model_name +:+ "Get" in
  match (if skipCache then CarryOn app else modelGet_cached app cacheScope dn) with
  | Answer app r => (app, r)
  | CarryOn app => modelGet_search app skipCache cacheScope dn
  end.

(** [modelDelete(app, Model, dn, log, callback)]: the argument of the
    callback, [None] on success. *)
Definition modelDelete (app : App) (dn : string) : App * option jserr :=
  let app := logto LInfo "modelDelete" app in
  match modelGet app dn true with
  | (app, Failed getErr) => (app, Some getErr)
  | (app, Done item) =>
    let app := called (DDelete dn) app in
    match ufdsDelete (ufds app) dn with
    | (Some delErr, d') => (set_ufds d' app, Some delErr)
    | (None, d') => (cacheInvalidateDelete (set_ufds d' app) Model_name item, None)
    end
  end.

End WithModel.

Arguments Answer {M D A} app r.
Arguments CarryOn {M D A} app.

End UfdsModel.

(* ===================================================================== *)
(** ** master/lib/probes.js: the controllers *)
(* ===================================================================== *)

Module ProbeController.

Section WithPlatform.
Context `{!Probes.Platform}.

(** The DN of the monitor a probe hangs under, as
    [Probe.parentDnFromRequest] formats it. *)
Definition Probe_parentDn (p : Probes.Probe) : string :=
  "amonmonitor=" +:+ String_of (Probes.monitor p) +:+ ", uuid="
  +:+ String_of (Probes.user p) +:+ ", ou=users, o=smartdc".

(** [Probe] as the [Model] that [listProbes], [putProbe], [getProbe] and
    [deleteProbe] hand to ufdsmodel.js.  [Model.name] is the name of the
    constructor function. *)
#[export] Instance Probe_Model : UfdsModel.Model := {|
  UfdsModel.Item := Probes.Probe;
  UfdsModel.Data := Probes.ProbeData;
  UfdsModel.Model_name := "Probe";
  UfdsModel.Model_objectclass := Probes.Probe_objectclass;
  UfdsModel.new_Model := Probes.new_Probe;
  UfdsModel.Model_serialize := λ p, Probes.FromPublic (Probes.serialize false p);
  UfdsModel.item_dn := Probes.dn;
  UfdsModel.item_parentDn := Probe_parentDn;
  UfdsModel.data_dn := λ d, match d with
                            | Probes.FromUfds e => Probes.ent_dn e
                            | Probes.FromPublic _ => "undefined"
                            end
|}.

End WithPlatform.

End ProbeController.

(* ===================================================================== *)
(** ** master/lib/app.js: the account cache and the event dispatcher *)
(* ===================================================================== *)

Module MasterApp.

(** An account record ([sdcperson]) as UFDS returns it. *)
Record Account := mkAccount { acct_login : string; acct_uuid : string }.

(** How an ldapjs search ends: the ['end'] event with the status of the
    result, or the ['error'] event. *)
Inductive SearchEnd :=
| EndEvent (status : Z)
| ErrorEvent (err : jserr).

(** One run of [ufds.search]: the objects of its ['searchEntry'] events, then
    the event that ends it. *)
Record SearchRun := mkRun { run_entries : list Account; run_finish : SearchEnd }.

(** A value of the account cache: [{err: <error>, account: <account>}]. *)
Record cachedAccount := mkCached { ca_err : option jserr; ca_account : option Account }.

Record Monitor := mkMonitor { monitor_name : string; contacts : list string }.
Record Contact := mkContact { contact_name : string; medium : string; data : string }.

(** The part of an event the dispatcher reads: [event.probe]. *)
Record EventProbe := mkEventProbe {
  probe_user : string;
  probe_monitor : string;
  probe_name : string;
  probe_type : string
}.
Record Event := mkEvent { event_probe : EventProbe; event_uuid : string }.

(** One call [plugin.notify(name, data, message, callback)] on the plugin
    registered for [via]. *)
Record NotifyCall := mkNotify {
  via : string;
  subject : string;
  recipient : string;
  body : string
}.

(** What app.js calls outside itself: [ufds.search(base, opts, ...)], the
    [Monitor.get] and [Contact.get] of the controller modules it requires
    (called as [Monitor.get(ufds, name, userUuid, cb)]), and the notification
    plugins the constructor loads into [this.notificationPlugins] by the
    names the configuration gives them, each given by what its [notify]
    hands to the callback. *)
Class Collaborators := {
  ufds_search : string → string → string → SearchRun;
  Monitor_get : string → string → outcome Monitor;
  Contact_get : string → string → outcome Contact;
  notificationPlugins : string → option (string → string → string → option jserr)
}.

(** [VALID_LOGIN_CHARS.test(s)]: /^[a-zA-Z][a-zA-Z0-9_\.@]+$/ *)
Definition is_login_char (c : ascii) : bool :=
  Probes.is_alpha c || Probes.is_digit c
  || Ascii.eqb c "_"%char || Ascii.eqb c "."%char || Ascii.eqb c "@"%char.

Definition VALID_LOGIN_CHARS_test (s : string) : bool :=
  match s with
  | String c (String c' rest) =>
    Probes.is_alpha c && is_login_char c' && Probes.all_chars is_login_char rest
  | _ => false
  end.

(** An error that is a plain string, as in [callback("...")]. *)
Definition string_error (msg : string) : jserr := JsErr (OtherError None) msg.

(** [this.notificationPlugins] starts as [{}], a plain object: besides the
    plugins loaded into it, a lookup [this.notificationPlugins[key]] finds
    what every object inherits from [Object.prototype], under these names.
    Each of them is truthy and has no [notify]. *)
Definition Object_prototype : list string :=
  ["constructor"; "toString"; "toLocaleString"; "valueOf"; "hasOwnProperty";
   "isPrototypeOf"; "propertyIsEnumerable"; "__defineGetter__";
   "__lookupGetter__"; "__defineSetter__"; "__lookupSetter__"; "__proto__"].

Section WithCollaborators.
Context `{!Collaborators}.

(** [cacheAndCallback(err, account)] of [accountFromLogin] *)
Definition account_cacheAndCallback (accountCache : gmap string cachedAccount)
    (login : string) (err : option jserr) (account : option Account)
  : gmap string cachedAccount * (option jserr * option Account) :=
  (<[login := mkCached err account]> accountCache, (err, account)).

(** [App.prototype.accountFromLogin(login, callback)]: the cache afterwards
    and the arguments [(err, account)] of the callback.  The cache is
    [this.accountCache] with its [get] and [put]; the two error strings end
    with the printed result and the printed accounts, which are left out. *)
Definition accountFromLogin (accountCache : gmap string cachedAccount) (login : string)
  : res (gmap string cachedAccount * (option jserr * option Account)) :=
  if negb (truthy_string login) then
    Throw (JsErr TypeError "login is required")
  else if negb (VALID_LOGIN_CHARS_test login) then
    Throw (JsErr (OtherError None) ("invalid characters in login: '" +:+ login +:+ "'"))
  else
    match accountCache !! login with
    | Some cached =>
      match ca_err cached with
      | Some e => Ok (accountCache, (Some e, None))
      | None => Ok (accountCache, (None, ca_account cached))
      end
    | None =>
      let run := ufds_search "o=smartdc"
                   ("(&(login=" +:+ login +:+ ")(objectclass=sdcperson))") "sub" in
      match run_finish run with
      | ErrorEvent err =>
        Ok (account_cacheAndCallback accountCache login (Some err) None)
      | EndEvent status =>
        if negb (status =? 0)%Z then
          Ok (account_cacheAndCallback accountCache login
                (Some (string_error ("non-zero status from LDAP search: "
                                     +:+ pretty status))) None)
        else
          match run_entries run with
          | [] => Ok (account_cacheAndCallback accountCache login None None)
          | [a] => Ok (account_cacheAndCallback accountCache login None (Some a))
          | accounts =>
            Ok (account_cacheAndCallback accountCache login
                  (Some (string_error
                     ("unexpected number of accounts ("
                      +:+ pretty (length accounts) +:+ ") matching login='"
                      +:+ login +:+ "'"))) None)
          end
      end
    end.

(** *** asyncForEach

    [asyncForEach(list, fn, cb)] counts the items down in [c] and remembers
    the first error in [errState]; [afe_cb] lists the calls made to [cb]. *)
Record afe := mkAfe {
  afe_c : Z;
  afe_errState : option jserr;
  afe_cb : list (option jserr)
}.

(** [if (!list.length) cb()], then [c = list.length, errState = null]. *)
Definition asyncForEach_start (len : nat) : afe :=
  mkAfe (Z.of_nat len) None (match len with O => [None] | S _ => [] end).

(** The callback [fn] is given, called with [er]. *)
Definition asyncForEach_done (er : option jserr) (s : afe) : afe :=
  match afe_errState s with
  | Some _ => s
  | None =>
    match er with
    | Some e => mkAfe (afe_c s) (Some e) (afe_cb s ++ [Some e])
    | None =>
      let c := (afe_c s - 1)%Z in
      mkAfe c None (if (c =? 0)%Z then afe_cb s ++ [None] else afe_cb s)
    end
  end.

(** [App.prototype.notifyContact]: the call made on a plugin, if any, and the
    argument of the callback.  For a medium that names no loaded plugin the
    lookup gives [undefined] and the callback is handed the error string,
    unless the medium is one of the names of [Object_prototype]: what is
    found then passes [if (!plugin)], and the call of its [notify], which is
    [undefined], throws a TypeError. *)
Definition notifyContact (contact : Contact) (event : Event)
  : res (list NotifyCall * option jserr) :=
  match notificationPlugins (medium contact) with
  | Some notify =>
    let name := probe_name (event_probe event) in
    Ok ([mkNotify (medium contact) name (data contact) "XXX message"],
        notify name (data contact) "XXX message")
  | None =>
    if bool_decide (medium contact ∈ Object_prototype) then
      Throw (JsErr TypeError "plugin.notify is not a function")
    else Ok ([], Some (string_error "notification plugin '%s' not found"))
  end.

(** The state of one dispatch: the plugin calls made, the log, the
    [asyncForEach] loop and the exception that ended the dispatch, if one
    was thrown. *)
Record Dispatch := mkDispatch {
  notified : list NotifyCall;
  dispatch_log : list logline;
  loop : afe;
  crashed : option jserr
}.

(** [getAndNotifyContact(contactName, cb)] run to its [cb()].  What
    [notifyContact] throws is thrown inside the callback of [Contact.get],
    where nothing of app.js catches it: [cb] is not called for this contact,
    and the dispatch is taken to end there. *)
Definition getAndNotifyContact (event : Event) (userUuid : string)
    (contactName : string) (st : Dispatch) : Dispatch :=
  match crashed st with
  | Some _ => st
  | None =>
    let lg := (dispatch_log st
               ++ [LogLine LDebug ("App.processEvent: notify contact '" +:+ contactName +:+ "'")])%list in
    match Contact_get contactName userUuid with
    | Failed err =>
      mkDispatch (notified st)
        (lg ++ [LogLine LWarn ("could not get contact '" +:+ contactName
                               +:+ "' (user '" +:+ userUuid +:+ "'): " +:+ message err)])
        (asyncForEach_done None (loop st)) None
    | Done contact =>
      match notifyContact contact event with
      | Throw e => mkDispatch (notified st) lg (loop st) (Some e)
      | Ok (made, err) =>
        mkDispatch (notified st ++ made)
          (match err with
           | Some e => lg ++ [LogLine LWarn ("could not notify contact: " +:+ message e)]
           | None => lg
           end)
          (asyncForEach_done None (loop st)) None
      end
    end
  end.

(** What [processEvent] did: the calls made to its [callback] (each with its
    [err] argument), the plugin calls, the log and the exception that ended
    the dispatch, if one was thrown. *)
Record Processed := mkProcessed {
  callbacks : list (option jserr);
  sent : list NotifyCall;
  logged : list logline;
  thrown : option jserr
}.

(** [App.prototype.processEvent(event, callback)].  The contacts are taken
    up concurrently; [order] is the order in which they are completed, a
    permutation of [monitor.contacts], each contact being run from its lookup
    to its [cb()] in one step. *)
Definition processEvent (event : Event) (order : list string) : Processed :=
  let start := [LogLine LDebug "App.processEvent"] in
  let userUuid := probe_user (event_probe event) in
  match Monitor_get (probe_monitor (event_probe event)) userUuid with
  | Failed err => mkProcessed [Some err] [] start None
  | Done monitor =>
    let st := fold_left (λ st n, getAndNotifyContact event userUuid n st) order
                (mkDispatch [] start (asyncForEach_start (length (contacts monitor)))
                            None) in
    mkProcessed (map (λ _, None) (afe_cb (loop st))) (notified st) (dispatch_log st)
                (crashed st)
  end.

End WithCollaborators.

End MasterApp.

(* ===================================================================== *)
(** ** monitors.js: what the fake-fault endpoint reads and writes *)
(* ===================================================================== *)

Module Monitors.


(** The parts of the request the handler reads, with the clock and the uuid
    generator it consults: [Date_now k] and [fresh_uuid k] are what
    [Date.now()] and [uuid()] give in the run of the handler's callback that
    [k] runs came before. *)
Record Request := mkRequest {
  query_action : option string;
  query_clear : option string;
  user_uuid : string;
  params_name : string;
  Date_now : nat → Z;
  fresh_uuid : nat → string
}.


End Monitors.

(* ===================================================================== *)
(** ** relay/lib/agentprobes.js: the endpoints agents poll *)
(* ===================================================================== *)

Module Relay.

(** What [fs.readFile] hands to its callback: an error with its [code], or
    the file's data. *)
Inductive readFile_result :=
| ReadError (code : string)
| ReadData (data : string).

(** The file system, [path.resolve] and [JSON.parse]. *)
Class Node := {
  fs_readFile : string → readFile_result;
  path_resolve : string → string → string;
  JSON_parse : string → parsed
}.

Record Request := mkRequest {
  _dataDir : string;
  _targetType : string;
  _targetUuid : string
}.

Inductive payload :=
| NoBody
| Text (s : string)
| Json (v : json)
| RestErrorBody (restCode : string).

Record Response := mkResponse {
  code : Z;
  headers : list (string * string);
  content : payload
}.

Section WithNode.
Context `{!Node}.

(** [headAgentProbes(req, res, next)] *)
Definition headAgentProbes (req : Request) : Response :=
  let md5Path := path_resolve (_dataDir req)
                   (_targetType req +:+ "-" +:+ _targetUuid req +:+ ".json.content-md5") in
  match fs_readFile md5Path with
  | ReadError err_code =>
    if false && String.eqb err_code "ENOENT" then
      mkResponse 200 [] (Json (JArr []))
    else
      mkResponse 500 [] (RestErrorBody "InternalError")
  | ReadData data =>
    mkResponse 200 [("Content-MD5", data)] (Text "")
  end.

(** [listAgentProbes(req, res, next)]; [JSON.parse] throws on a file that is
    not JSON. *)
Definition listAgentProbes (req : Request) : res Response :=
  let jsonPath := path_resolve (_dataDir req)
                    (_targetType req +:+ "-" +:+ _targetUuid req +:+ ".json") in
  match fs_readFile jsonPath with
  | ReadError err_code =>
    if String.eqb err_code "ENOENT" then
      Ok (mkResponse 200 [] (Json (JArr [])))
    else
      Ok (mkResponse 500 [] NoBody)
  | ReadData data =>
    match JSON_parse data with
    | Parsed v => Ok (mkResponse 200 [] (Json v))
    | SyntaxError msg => Throw (JsErr (OtherError None) msg)
    end
  end.

End WithNode.

End Relay.

(* ===================================================================== *)
(** ** A concrete installation, for running the model *)
(* ===================================================================== *)

Module Demo.

Import Probes.

(** *** A JSON printer and reader

    Compact output as [JSON.stringify] writes it, for integers and for
    strings that need no escape; the reader accepts what the printer writes,
    and spaces between tokens. *)

Fixpoint stringify (v : json) : string :=
  match v with
  | JNull => "null"
  | JBool b => if b then "true" else "false"
  | JNum n => pretty n
  | JStr s => dquote +:+ s +:+ dquote
  | JArr items => "[" +:+ String.concat "," (map stringify items) +:+ "]"
  | JObj fields =>
    "{" +:+ String.concat ","
              (map (λ kv, match kv with
                          | (k, x) => dquote +:+ k +:+ dquote +:+ ":" +:+ stringify x
                          end) fields)
    +:+ "}"
  end.

Fixpoint skip_ws (s : string) : string :=
  match s with
  | String c r => if Ascii.eqb c " "%char then skip_ws r else s
  | EmptyString => s
  end.

Fixpoint read_until_quote (s : string) : option (string * string) :=
  match s with
  | EmptyString => None
  | String c r =>
    if Ascii.eqb c "034"%char then Some (EmptyString, r)
    else '(a, b) ← read_until_quote r; Some (String c a, b)
  end.

Fixpoint read_digits (s : string) (acc : Z) (seen : bool) : option (Z * string) :=
  match s with
  | String c r =>
    if is_digit c
    then read_digits r (10 * acc + (Z.of_nat (nat_of_ascii c) - 48))%Z true
    else if seen then Some (acc, s) else None
  | EmptyString => if seen then Some (acc, s) else None
  end.

Fixpoint strip (p s : string) : option string :=
  match p, s with
  | EmptyString, _ => Some s
  | String a p', String b s' => if Ascii.eqb a b then strip p' s' else None
  | String _ _, EmptyString => None
  end.

Definition read_literal (s : string) : option (json * string) :=
  match strip "null" s, strip "true" s, strip "false" s with
  | Some r, _, _ => Some (JNull, r)
  | _, Some r, _ => Some (JBool true, r)
  | _, _, Some r => Some (JBool false, r)
  | _, _, _ => None
  end.

Fixpoint read_value (fuel : nat) (s : string) : option (json * string) :=
  match fuel with
  | O => None
  | S fuel =>
    match skip_ws s with
    | EmptyString => None
    | String c r =>
      if Ascii.eqb c "034"%char then
        '(str, rest) ← read_until_quote r; Some (JStr str, rest)
      else if Ascii.eqb c "["%char then
        match strip "]" (skip_ws r) with
        | Some rest => Some (JArr [], rest)
        | None => '(items, rest) ← read_items fuel r; Some (JArr items, rest)
        end
      else if Ascii.eqb c "{"%char then
        match strip "}" (skip_ws r) with
        | Some rest => Some (JObj [], rest)
        | None => '(fields, rest) ← read_members fuel r; Some (JObj fields, rest)
        end
      else if Ascii.eqb c "-"%char then
        '(n, rest) ← read_digits r 0 false; Some (JNum (- n), rest)
      else if is_digit c then
        '(n, rest) ← read_digits (String c r) 0 false; Some (JNum n, rest)
      else read_literal (String c r)
    end
  end
with read_items (fuel : nat) (s : string) : option (list json * string) :=
  match fuel with
  | O => None
  | S fuel =>
    '(x, rest) ← read_value fuel s;
    match strip "," (skip_ws rest), strip "]" (skip_ws rest) with
    | Some r, _ => '(xs, rest') ← read_items fuel r; Some (x :: xs, rest')
    | None, Some r => Some ([x], r)
    | None, None => None
    end
  end
with read_members (fuel : nat) (s : string) : option (list (string * json) * string) :=
  match fuel with
  | O => None
  | S fuel =>
    r ← strip dquote (skip_ws s);
    '(k, rest) ← read_until_quote r;
    r2 ← strip ":" (skip_ws rest);
    '(x, rest2) ← read_value fuel r2;
    match strip "," (skip_ws rest2), strip "}" (skip_ws rest2) with
    | Some r3, _ => '(ms, rest3) ← read_members fuel r3; Some ((k, x) :: ms, rest3)
    | None, Some r3 => Some ([(k, x)], r3)
    | None, None => None
    end
  end.

Definition parse (s : string) : parsed :=
  match read_value (2 * String.length s + 2) s with
  | Some (x, rest) =>
    match skip_ws rest with
    | EmptyString => Parsed x
    | String _ _ => SyntaxError "SyntaxError: Unexpected token"
    end
  | None => SyntaxError "SyntaxError: Unexpected token"
  end.

(** *** A reader of distinguished names: RDNs separated by commas, each
    [attribute=value] *)

Fixpoint split_at (sep : ascii) (s : string) : list string :=
  match s with
  | EmptyString => [EmptyString]
  | String c r =>
    if Ascii.eqb c sep then EmptyString :: split_at sep r
    else match split_at sep r with
         | h :: t => String c h :: t
         | [] => [String c EmptyString]
         end
  end.

Definition read_rdn (s : string) : option RDN :=
  match split_at "="%char (skip_ws s) with
  | [k; x] => Some [(k, x)]
  | _ => None
  end.

Definition parseDN (s : string) : option (list RDN) :=
  mapM read_rdn (split_at ","%char s).

(** *** Two probe types: a log scanner that runs in the zone and asks for a
    path, and a machine-up check that runs in the global zone *)

Definition has_field (k : string) (x : json) : bool :=
  match x with
  | JObj fields => existsb (λ kv, String.eqb (fst kv) k) fields
  | _ => false
  end.

Definition logscan : ProbeType :=
  mkProbeType (λ c, if has_field "path" c then None
                    else Some "config.path is required") false.

Definition machine_up : ProbeType :=
  mkProbeType (λ _, None) true.

Definition probe_types (t : string) : option ProbeType :=
  if String.eqb t "logscan" then Some logscan
  else if String.eqb t "machine-up" then Some machine_up
  else None.

Definition field (k : string) (o : option string) : list (string * json) :=
  match o with Some s => [(k, JStr s)] | None => [] end.

Definition show_raw (r : Raw) : string :=
  stringify (JObj (field "amonprobe" (raw_amonprobe r) ++ field "type" (raw_type r)
                   ++ field "objectclass" (raw_objectclass r)
                   ++ field "config" (raw_config r)
                   ++ field "machine" (raw_machine r)
                   ++ field "server" (raw_server r))%list).

Definition platform : Platform :=
  {| Probes.JSON_parse := parse;
     JSON_stringify := stringify;
     format_j := show_raw;
     ldap_parseDN := parseDN;
     plugins := probe_types |}.

Definition bob : string := "aaaaaaaa-aaaa-aaaa-aaaa-aaaaaaaaaaaa".
Definition zone : string := "bbbbbbbb-bbbb-bbbb-bbbb-bbbbbbbbbbbb".
Definition headnode : string := "cccccccc-cccc-cccc-cccc-cccccccccccc".

Definition whistle_config : json :=
  JObj [("path", JStr "/tmp/whistle.log"); ("regex", JStr "tweet");
        ("threshold", JNum 1); ("period", JNum 60)].

(** The put of the whistlelog probe on bob's zone. *)
Definition whistlelog : PublicData :=
  mkPublicData (Some bob) (Some "whistle") (Some "whistlelog") (Some "logscan")
    (Some whistle_config) (Some zone) None None.

(** The same probe as UFDS stores it. *)
Definition whistlelog_entry : UfdsEntry :=
  mkUfdsEntry (Probe_dn bob "whistle" "whistlelog") "amonprobe"
    (Some "whistlelog") (Some "logscan") (Some (stringify whistle_config))
    (Some zone) None None.

(** An entry that names both a machine and a server, and no type. *)
Definition two_targets_no_type : PublicData :=
  mkPublicData (Some bob) (Some "whistle") (Some "whistlelog") None
    None (Some zone) (Some headnode) None.

(** The same with its type. *)
Definition two_targets : PublicData :=
  mkPublicData (Some bob) (Some "whistle") (Some "whistlelog") (Some "logscan")
    None (Some zone) (Some headnode) None.

(** A log scanner stored with a [global] attribute. *)
Definition stale_global_entry : UfdsEntry :=
  mkUfdsEntry (Probe_dn bob "whistle" "whistlelog") "amonprobe"
    (Some "whistlelog") (Some "logscan") (Some (stringify whistle_config))
    (Some zone) None (Some (JStr "true")).

(** A stored probe that lost its type. *)
Definition corrupt_entry : UfdsEntry :=
  mkUfdsEntry (Probe_dn bob "whistle" "broken") "amonprobe"
    (Some "broken") None None (Some zone) None None.

(** The instance the constructor builds from [whistlelog_entry]. *)
Definition whistlelog_probe : Probe :=
  mkProbe (Probe_dn bob "whistle" "whistlelog") (Some bob) (Some "whistle")
    (mkRaw (Some "whistlelog") (Some "logscan") (Some "amonprobe")
           (Some (stringify whistle_config)) (Some zone) None None).

(** *** MAPI and the operators group: bob owns [zone], alice is an operator,
    [headnode] is the one server, and the lookup of [lost_zone] breaks. *)

Definition alice : string := "dddddddd-dddd-dddd-dddd-dddddddddddd".
Definition lost_zone : string := "eeeeeeee-eeee-eeee-eeee-eeeeeeeeeeee".

Definition not_found : jserr := JsErr ResourceNotFoundError "not found".
Definition broken : jserr := JsErr InternalError "MAPI is down".

Definition getMachine (owner : option string) (m : string)
  : option jserr * option Machine :=
  if String.eqb m lost_zone then (Some broken, None)
  else if String.eqb m zone then
    if bool_decide (owner = Some bob) || bool_decide (owner = Some "")
    then (None, Some (mkMachine "devzone" bob))
    else (Some not_found, None)
  else (Some not_found, None).

Definition services : MasterServices :=
  {| mapi_getMachine := getMachine;
     isOperator := λ u, (None, bool_decide (u = Some alice));
     serverExists := λ s, (None, String.eqb s headnode) |}.

(** The put of a probe on the machine whose lookup breaks. *)
Definition lost_probe : PublicData :=
  mkPublicData (Some bob) (Some "whistle") (Some "whistlelog") (Some "logscan")
    (Some whistle_config) (Some lost_zone) None None.

(** *** A directory: a list of probe entries, and whether it is reachable *)

Record directory := mkDirectory { up : bool; stored : list UfdsEntry }.

Definition unavailable : jserr :=
  JsErr (OtherError (Some 503%Z)) "directory unavailable".

Definition no_such_object : jserr := JsErr NoSuchObjectError "No Such Object".

Definition search (d : directory) (base : string) (opts : UfdsModel.SearchOpts)
  : outcome (list ProbeData) :=
  if negb (up d) then Failed unavailable
  else if String.eqb (UfdsModel.opt_scope opts) "base" then
    match List.filter (λ e, String.eqb (ent_dn e) base) (stored d) with
    | [] => Failed no_such_object
    | found => Done (map FromUfds found)
    end
  else Done (map FromUfds (List.filter (λ e, mentions base (ent_dn e)) (stored d))).

Definition remove (d : directory) (target : string) : option jserr * directory :=
  if negb (up d) then (Some unavailable, d)
  else if existsb (λ e, String.eqb (ent_dn e) target) (stored d) then
    (None, mkDirectory true
             (List.filter (λ e, negb (String.eqb (ent_dn e) target)) (stored d)))
  else (Some no_such_object, d).

Definition ufds : UfdsModel.Directory ProbeData :=
  {| UfdsModel.dirstate := directory;
     UfdsModel.ufdsSearch := search;
     UfdsModel.ufdsDelete := remove |}.

Definition probes : UfdsModel.Model := @ProbeController.Probe_Model platform.

(** An app with an empty cache over a directory. *)
Definition app_over (d : directory) : @UfdsModel.App probes ufds :=
  @UfdsModel.mkApp probes ufds ∅ d [] [].

Definition whistle_dn : string := "amonmonitor=whistle, uuid=" +:+ bob +:+ ", ou=users, o=smartdc".
Definition whistlelog_dn : string := Probe_dn bob "whistle" "whistlelog".

(** *** What app.js calls: one account, one monitor with three contacts (one
    that is not in the directory, one whose medium has no plugin, one that
    can be mailed) and the email plugin *)

Definition devbob : MasterApp.Account := MasterApp.mkAccount "devbob" bob.

Definition collaborators : MasterApp.Collaborators :=
  {| MasterApp.ufds_search := λ _ f _,
       if mentions "(login=devbob)" f
       then MasterApp.mkRun [devbob] (MasterApp.EndEvent 0)
       else if mentions "(login=twins)" f
       then MasterApp.mkRun [devbob; devbob] (MasterApp.EndEvent 0)
       else if mentions "(login=nobody.home)" f
       then MasterApp.mkRun [] (MasterApp.ErrorEvent unavailable)
       else MasterApp.mkRun [] (MasterApp.EndEvent 0);
     MasterApp.Monitor_get := λ n u,
       if String.eqb n "whistle" && String.eqb u bob
       then Done (MasterApp.mkMonitor "whistle" ["ghost"; "pager"; "email"])
       else Failed not_found;
     MasterApp.Contact_get := λ n _,
       if String.eqb n "email" then Done (MasterApp.mkContact "email" "email" "bob@example.com")
       else if String.eqb n "pager" then Done (MasterApp.mkContact "pager" "sms" "5551234")
       else Failed not_found;
     MasterApp.notificationPlugins := λ m,
       if String.eqb m "email" then Some (λ _ _ _, None) else None |}.

Definition whistle_event : MasterApp.Event :=
  MasterApp.mkEvent (MasterApp.mkEventProbe bob "whistle" "whistlelog" "logscan")
    "3ab1336e-5453-45f9-be10-8686ba70e419".


(** *** A relay data directory that holds the manifest of [zone] only *)

Definition dataDir : string := "/var/db/amon-relay".

Definition node : Relay.Node :=
  {| Relay.fs_readFile := λ path,
       if String.eqb path (dataDir +:+ "/machine-" +:+ zone +:+ ".json")
       then Relay.ReadData "[]"
       else if String.eqb path (dataDir +:+ "/machine-" +:+ zone +:+ ".json.content-md5")
       then Relay.ReadData "11FxOYiYfpMxmANj4kGJzg=="
       else Relay.ReadError "ENOENT";
     Relay.path_resolve := λ dir file, dir +:+ "/" +:+ file;
     Relay.JSON_parse := parse |}.

Definition zone_request : Relay.Request := Relay.mkRequest dataDir "machine" zone.
Definition new_zone_request : Relay.Request := Relay.mkRequest dataDir "machine" lost_zone.

End Demo.

(* ===================================================================== *)
(** ** monitors.js: the Monitor model *)
(* ===================================================================== *)

Module MonitorModel.

(** The [contact] attribute of a monitor: UFDS hands back one value as a
    string and several as an array; the public form gives [contacts]. *)
Inductive ContactAttr :=
| One (c : string)
| Many (cs : list string).

(** [if (x)] on such a value: an array is truthy, also when it is empty. *)
Definition truthy_contact (c : ContactAttr) : bool :=
  match c with
  | One s => truthy_string s
  | Many _ => true
  end.

(** The object [Monitor.validate] works on. *)
Record Raw := mkRaw {
  raw_amonmonitor : option string;
  raw_contact : option ContactAttr;
  raw_objectclass : option string
}.

(** The public representation (augmented with name and user), which is also
    what [serialize] returns. *)
Record PublicData := mkPublicData {
  data_user : option string;
  data_name : option string;
  data_contacts : option ContactAttr
}.

(** The raw response from UFDS. *)
Record UfdsEntry := mkUfdsEntry {
  ent_dn : string;
  ent_objectclass : string;
  ent_amonmonitor : option string;
  ent_contact : option ContactAttr
}.

Inductive MonitorData :=
| FromUfds (e : UfdsEntry)
| FromPublic (d : PublicData).

(** A Monitor instance: [this.dn], [this.user], [this.raw]. *)
Record Monitor := mkMonitor {
  dn : string;
  user : option string;
  raw : Raw
}.

(** What [assert.ok] and [assert.equal] throw. *)
Definition AssertionError (msg : string) : jserr :=
  JsErr (OtherError None) ("AssertionError: " +:+ msg).

(** [Contact.parseUrn(app, c)] of the contact module, by the error it throws
    for a contact it does not accept. *)
Class Contacts := {
  Contact_parseUrn : string → option jserr
}.

Section WithPlatform.
Context `{!Probes.Platform} `{!Contacts}.

(** [Monitor.validateName]; the pattern is the one of probe names. *)
Definition validateName (name : option string) : res unit :=
  if Probes.nameRegex_test (String_of name) then Ok tt
  else Throw (Probes.InvalidArgument
    ("Monitor name is invalid: " +:+ dquote +:+ String_of name +:+ dquote)).

(** The error of the loop of [Monitor.validate] over [requiredFields]. *)
Definition required (exported : string) : jserr :=
  Probes.MissingParameter
    (dquote +:+ exported +:+ dquote +:+ " is a required parameter").

(** [if (!(raw.contact instanceof Array)) raw.contact = [raw.contact]] *)
Definition as_array (c : ContactAttr) : list string :=
  match c with
  | One s => [s]
  | Many cs => cs
  end.

(** [raw.contact.forEach(function (c) { Contact.parseUrn(app, c); })] *)
Fixpoint parse_each (cs : list string) : res unit :=
  match cs with
  | [] => Ok tt
  | c :: rest =>
    match Contact_parseUrn c with
    | Some e => Throw e
    | None => parse_each rest
    end
  end.

(** [Monitor.validate(app, raw)] *)
Definition validate (r : Raw) : res Raw :=
  if negb (truthyS (raw_amonmonitor r)) then Throw (required "name")
  else
    match raw_contact r with
    | None => Throw (required "contacts")
    | Some c =>
      if negb (truthy_contact c) then Throw (required "contacts")
      else
        let cs := as_array c in
        parse_each cs ;;
        Ok (mkRaw (raw_amonmonitor r) (Some (Many cs)) (raw_objectclass r))
    end.

Record DnParts := mkDnParts {
  parts_user : option string;
  parts_name : option string
}.

(** [Monitor.parseDn(dn)]; indexing a missing RDN throws a TypeError. *)
Definition parseDn (d : string) : res DnParts :=
  match Probes.ldap_parseDN d with
  | None => Throw (JsErr (OtherError None) ("invalid DN: " +:+ d))
  | Some rdns =>
    match rdns !! 1%nat, rdns !! 0%nat with
    | Some r1, Some r0 =>
      Ok (mkDnParts (Probes.rdn_attr r1 "uuid") (Probes.rdn_attr r0 "amonmonitor"))
    | _, _ => Throw (Probes.newTypeError "Cannot read property of undefined")
    end
  end.

(** [Monitor.dn(user, name)] *)
Definition Monitor_dn (u n : string) : string :=
  "amonmonitor=" +:+ n +:+ ", uuid=" +:+ u +:+ ", ou=users, o=smartdc".

Definition Monitor_objectclass : string := "amonmonitor".

Definition raw_of_public (d : PublicData) : Raw :=
  mkRaw (data_name d) (data_contacts d) (Some Monitor_objectclass).

(** [raw = objCopy(data); delete raw.dn] *)
Definition raw_of_entry (e : UfdsEntry) : Raw :=
  mkRaw (ent_amonmonitor e) (ent_contact e) (Some (ent_objectclass e)).

Definition construct_public (d : PublicData) : res Monitor :=
  if negb (truthyS (data_name d)) then Throw (AssertionError "data.name")
  else if negb (truthyS (data_user d)) then Throw (AssertionError "data.user")
  else
    let r := raw_of_public d in
    validateName (raw_amonmonitor r) ;;
    r' ← validate r;
    Ok (mkMonitor (Monitor_dn (String_of (data_user d)) (String_of (data_name d)))
                  (data_user d) r').

Definition construct_ufds (e : UfdsEntry) : res Monitor :=
  if negb (String.eqb (ent_objectclass e) Monitor_objectclass) then
    Throw (AssertionError (ent_objectclass e +:+ " == " +:+ Monitor_objectclass))
  else
    p ← parseDn (ent_dn e);
    let r := raw_of_entry e in
    validateName (raw_amonmonitor r) ;;
    r' ← validate r;
    Ok (mkMonitor (ent_dn e) (parts_user p) r').

(** [new Monitor(app, data)].  [app] and [data] are always given.  An entry
    whose [objectclass] is the empty string takes the public branch, where it
    has no name. *)
Definition new_Monitor (data : MonitorData) : res Monitor :=
  match data with
  | FromUfds e =>
    if truthy_string (ent_objectclass e) then construct_ufds e
    else Throw (AssertionError "data.name")
  | FromPublic d => construct_public d
  end.

(** The getters defined by the constructor. *)
Definition name (m : Monitor) : option string := raw_amonmonitor (raw m).
Definition contacts (m : Monitor) : option ContactAttr := raw_contact (raw m).

(** [Monitor.prototype.serialize()] *)
Definition serialize (m : Monitor) : PublicData :=
  mkPublicData (user m) (name m) (contacts m).

(** The DN a monitor is listed under, the one of its user, as
    [Monitor.parentDnFromRequest] takes it from the request. *)
Definition Monitor_parentDn (m : Monitor) : string :=
  "uuid=" +:+ String_of (user m) +:+ ", ou=users, o=smartdc".

(** [Monitor] as the [Model] that monitors.js hands to ufdsmodel.js. *)
#[local] Instance Monitor_Model : UfdsModel.Model := {|
  UfdsModel.Item := Monitor;
  UfdsModel.Data := MonitorData;
  UfdsModel.Model_name := "Monitor";
  UfdsModel.Model_objectclass := Monitor_objectclass;
  UfdsModel.new_Model := new_Monitor;
  UfdsModel.Model_serialize := λ m, FromPublic (serialize m);
  UfdsModel.item_dn := dn;
  UfdsModel.item_parentDn := Monitor_parentDn;
  UfdsModel.data_dn := λ d, match d with
                            | FromUfds e => ent_dn e
                            | FromPublic _ => "undefined"
                            end
|}.

Context `{D : !UfdsModel.Directory MonitorData}.

(** [Monitor.get(app, user, name, callback)]: the two checks throw; past
    them, what [modelGet] does to the app and hands to the callback. *)
Definition Monitor_get (app : UfdsModel.App) (u n : option string)
  : res (UfdsModel.App * outcome Monitor) :=
  if negb (Probes.UUID_RE_test (String_of u)) then
    Throw (Probes.InvalidArgument
      ("invalid user UUID: " +:+ dquote +:+ String_of u +:+ dquote))
  else
    validateName n ;;
    Ok (UfdsModel.modelGet app (Monitor_dn (String_of u) (String_of n)) false).

End WithPlatform.

End MonitorModel.

(* ===================================================================== *)
(** ** master/lib/probes.js: the DNs of a request, and Probe.get *)
(* ===================================================================== *)

Module ProbeRoutes.

(** The parts of a request the two functions read: [req.params.monitor],
    [req.params.name], [req._user.uuid] and [req._user.dn]. *)
Record Request := mkRequest {
  params_monitor : option string;
  params_name : option string;
  user_uuid : string;
  user_dn : string
}.

Section WithPlatform.
Context `{!Probes.Platform}.

(** [Probe.dnFromRequest(req)] *)
Definition dnFromRequest (req : Request) : res string :=
  MonitorModel.validateName (params_monitor req) ;;
  Probes.validateName (params_name req) ;;
  Ok (Probes.Probe_dn (user_uuid req) (String_of (params_monitor req))
                      (String_of (params_name req))).

(** [Probe.parentDnFromRequest(req)] *)
Definition parentDnFromRequest (req : Request) : res string :=
  MonitorModel.validateName (params_monitor req) ;;
  Ok ("amonmonitor=" +:+ String_of (params_monitor req) +:+ ", " +:+ user_dn req).

Context `{D : !UfdsModel.Directory Probes.ProbeData}.

(** [Probe.get(app, user, monitor, name, callback)]: the three checks throw;
    past them, what [modelGet] does to the app and hands to the callback. *)
Definition Probe_get (app : @UfdsModel.App ProbeController.Probe_Model D)
    (u m n : option string)
  : res (@UfdsModel.App ProbeController.Probe_Model D * outcome Probes.Probe) :=
  if negb (Probes.UUID_RE_test (String_of u)) then
    Throw (Probes.InvalidArgument
      ("invalid user UUID: " +:+ dquote +:+ String_of u +:+ dquote))
  else
    Probes.validateName n ;;
    MonitorModel.validateName m ;;
    Ok (UfdsModel.modelGet app
          (Probes.Probe_dn (String_of u) (String_of m) (String_of n)) false).

End WithPlatform.

End ProbeRoutes.

(* ===================================================================== *)
(** ** ufdsmodel.js: put, and the request wrappers *)
(* ===================================================================== *)

Module UfdsWrite.

Import UfdsModel.

(** What [modelPut] needs of a model and of the app besides: the [raw] data
    of an instance, its [authorizePut] (the argument of its callback, [None]
    when the put is authorized) and [app.ufdsAdd(dn, raw, callback)]. *)
Class Writable (M : Model) (D : Directory Data) := {
  RawData : Type;
  item_raw : Item → RawData;
  Model_authorizePut : Item → res (option jserr);
  ufdsAdd : dirstate → string → RawData → option jserr * dirstate
}.

(** What the request wrappers need of a model: [Model.dnFromRequest] and
    [Model.parentDnFromRequest], which may throw. *)
Class Routed (M : Model) := {
  Req : Type;
  dnFromRequest : Req → res string;
  parentDnFromRequest : Req → res string
}.

(** How a request wrapper leaves: [res.send(data)] or [res.send(code)], each
    followed by [next()], or [next(err)]. *)
Inductive handled (B : Type) :=
| SentData (body : B)
| SentCode (code : Z)
| NextError (e : jserr).
Arguments SentData {B} body.
Arguments SentCode {B} code.
Arguments NextError {B} e.

Section WithModel.
Context `{M : Model} `{D : !Directory Data} `{W : !Writable M D} `{R : !Routed M}.

(** Modelled from the spec: [app.cacheInvalidatePut(modelName, item)] is a
    method of the App that is not in these files.  The spec: a PUT of an
    entity invalidates the get entry at its DN and the list entry at its
    parent DN. *)
Definition cacheInvalidatePut (app : App) (modelName : string) (item : Item) : App :=
  cacheDel (cacheDel app (modelName +:+ "Get") (item_dn item))
           (modelName +:+ "List") (item_parentDn item).

(** What a call of [modelPut] did: the app afterwards, the calls of
    [app.ufdsAdd] it made (each with its DN and raw data) and what it handed
    to its callback. *)
Record PutRun := mkPut {
  put_app : App;
  put_added : list (string * RawData);
  put_result : outcome Item
}.

(** [modelPut(app, Model, data, log, callback)].  The [try] is around the
    constructor only: an [authorizePut] that throws takes the call down. *)
Definition modelPut (app : App) (data : Data) : res PutRun :=
  let app := logto LInfo "modelPut" app in
  match new_Model data with
  | Throw e => Ok (mkPut app [] (Failed e))
  | Ok item =>
    err ← Model_authorizePut item;
    match err with
    | Some err => Ok (mkPut (logto LDebug "authorizePut err" app) [] (Failed err))
    | None =>
      let app := logto LDebug "authorizePut: authorized" app in
      let dn := item_dn item in
      match ufdsAdd (ufds app) dn (item_raw item) with
      | (Some addErr, d') =>
        Ok (mkPut (logto LError "Error saving to UFDS" (set_ufds d' app))
                  [(dn, item_raw item)] (Failed addErr))
      | (None, d') =>
        Ok (mkPut (cacheInvalidatePut (logto LTrace "create item:" (set_ufds d' app))
                                      Model_name item)
                  [(dn, item_raw item)] (Done item))
      end
    end
  end.

(** [requestList(req, res, next, Model)]; [parentDnFromRequest] is called
    outside any [try]. *)
Definition requestList (app : App) (req : Req) : res (App * handled (list Data)) :=
  let app := logto LTrace "list entered" app in
  parentDn ← parentDnFromRequest req;
  match modelList app parentDn with
  | (app, Failed err) => Ok (app, NextError err)
  | (app, Done items) =>
    let data := map Model_serialize items in
    Ok (logto LTrace "items from modelList:" app, SentData data)
  end.

(** [requestGet(req, res, next, Model)]; an error thrown by [dnFromRequest]
    is caught and handed to [next]. *)
Definition requestGet (app : App) (req : Req) : App * handled Data :=
  let app := logto LTrace "get entered" app in
  match dnFromRequest req with
  | Throw err => (app, NextError err)
  | Ok dn =>
    match modelGet app dn false with
    | (app, Failed err) => (app, NextError err)
    | (app, Done item) =>
      let data := Model_serialize item in
      (logto LTrace "item from modelGet:" app, SentData data)
    end
  end.

(** [requestDelete(req, res, next, Model)]; [dnFromRequest] is called outside
    any [try]. *)
Definition requestDelete (app : App) (req : Req) : res (App * handled Data) :=
  let app := logto LTrace "delete entered" app in
  dn ← dnFromRequest req;
  match modelDelete app dn with
  | (app, Some err) => Ok (app, NextError err)
  | (app, None) => Ok (app, SentCode 204)
  end.

End WithModel.

End UfdsWrite.

(* ===================================================================== *)
(** ** ufdsmodel.js: modelGet with a callback that may throw *)
(* ===================================================================== *)

Module UfdsCallback.

Import UfdsModel.

Section WithModel.
Context `{M : Model} `{D : !Directory Data}.
Context {T : Type}.

(** A callback [function (err, item)] that may throw: given the number of
    times it was called before in this call of [modelGet], the app and what
    it is handed, it leaves the app as it made it and returns or throws. *)
Definition callback : Type := nat → App → outcome Item → App * res T.

(** [modelGet(app, Model, dn, log, skipCache, callback)] once more, for such
    a callback.  With cached data, [callback(null, new Model(app,
    cached.data))] is inside the [try]: what the callback throws there is
    caught like an error of the constructor, the cache entry is dropped and
    the function carries on to the directory, where the callback is called
    again.  Every other call of the callback is outside any [try]; the one
    in the callback of [app.ufdsSearch] throws into the directory client,
    which is taken to end the call. *)
Definition modelGet_cb (app : App) (dn : string) (skipCache : bool) (k : callback)
  : App * res T :=
  let app := logto LInfo "modelGet" app in
  let cacheScope := Model_name +:+ "Get" in
  match (if skipCache then CarryOn app else modelGet_cached app cacheScope dn) with
  | Answer app (Failed e) => k 0%nat app (Failed e)
  | Answer app (Done item) =>
    match k 0%nat app (Done item) with
    | (app, Ok t) => (app, Ok t)
    | (app, Throw e) =>
      let app := cacheDel (logto LWarn ("error in cached data: " +:+ message e) app)
                          cacheScope dn in
      let '(app, r) := modelGet_search app skipCache cacheScope dn in
      k 1%nat app r
    end
  | CarryOn app =>
    let '(app, r) := modelGet_search app skipCache cacheScope dn in
    k 0%nat app r
  end.

End WithModel.

End UfdsCallback.

(* ===================================================================== *)
(** ** master/lib/probes.js: Probe as a model that is put and routed *)
(* ===================================================================== *)

Module ProbeWrites.

Section WithPlatform.
Context `{!Probes.Platform} `{!Probes.MasterServices}.
Context `{D : !UfdsModel.Directory Probes.ProbeData}.

(** [item.raw] and [item.authorizePut] of a Probe, over a directory whose
    [ufdsAdd] is [add]. *)
Definition Probe_Writable
    (add : UfdsModel.dirstate → string → Probes.Raw → option jserr * UfdsModel.dirstate)
  : UfdsWrite.Writable ProbeController.Probe_Model D :=
  @UfdsWrite.Build_Writable ProbeController.Probe_Model D
    Probes.Raw Probes.raw Probes.authorizePut add.

(** [Probe.dnFromRequest] and [Probe.parentDnFromRequest]. *)
#[local] Instance Probe_Routed : UfdsWrite.Routed ProbeController.Probe_Model :=
  @UfdsWrite.Build_Routed ProbeController.Probe_Model
    ProbeRoutes.Request ProbeRoutes.dnFromRequest ProbeRoutes.parentDnFromRequest.

End WithPlatform.

End ProbeWrites.

(* ===================================================================== *)
(** ** master/lib/app.js: the setup handler and asyncForEach as a whole *)
(* ===================================================================== *)

Module AppSetup.

Import MasterApp.

(** How [setup] leaves: [next()] with the account it put on the request, if
    any, after the status it sent, if any; or a response and no [next()]. *)
Inductive setup_reply :=
| Next (sent : option Z) (_account : option Account)
| Stalled (code : Z) (body : string).

Section WithCollaborators.
Context `{!Collaborators}.

(** [setup(req, res, next)] of the App constructor, by [req.uriParams.login]:
    the account cache afterwards and how the handler leaves.  What
    [accountFromLogin] throws is not caught. *)
Definition setup (accountCache : gmap string cachedAccount) (login : option string)
  : res (gmap string cachedAccount * setup_reply) :=
  if truthyS login then
    '(accountCache, (err, account)) ← accountFromLogin accountCache (String_of login);
    match err with
    | Some _ => Ok (accountCache, Next (Some 500%Z) None)
    | None =>
      match account with
      | None =>
        Ok (accountCache,
            Stalled 404 ("No such login, '" +:+ String_of login +:+ "'."))
      | Some a => Ok (accountCache, Next None (Some a))
      end
    end
  else Ok (accountCache, Next None None).

End WithCollaborators.

(** [asyncForEach(list, fn, cb)] run to the end: [ers] are the arguments of
    the callbacks [fn] was given, in the order in which they are called. *)
Definition asyncForEach (len : nat) (ers : list (option jserr)) : afe :=
  fold_left (λ s er, asyncForEach_done er s) ers (asyncForEach_start len).

End AppSetup.

(* ===================================================================== *)
(** ** monitors.js: the handlers of UpdateMonitor *)
(* ===================================================================== *)

Module MonitorRoutes.

Import Monitors.

Section WithPlatform.
Context `{!Probes.Platform} `{!MonitorModel.Contacts}.
Context `{D : !UfdsModel.Directory MonitorModel.MonitorData}.








End WithPlatform.

End MonitorRoutes.

(* ===================================================================== *)
(** ** bootstrap.js: waiting for the new zone *)
(* ===================================================================== *)

Module Bootstrap.

(** A zone as MAPI returns it. *)
Record Zone := mkZone { zone_name : string; running_status : string }.

Definition too_long : jserr :=
  JsErr (OtherError None)
    "took too long for test zone status to become 'running'".

(** The loop [async.until(test, fn, callback)] of [createDevzone], with the
    countdown in [sentinel]: what [callback] is handed and the zone held
    then, and the number of [mapi.getZone] calls made.  [getZone k] is what
    the call number [k] hands to its callback; [polls] counts the calls made
    so far. *)
Fixpoint until_running (getZone : nat → outcome Zone)
    (sentinel : nat) (zone : Zone) (polls : nat) : option jserr * Zone * nat :=
  if String.eqb (running_status zone) "running" then (None, zone, polls)
  else
    match sentinel with
    | O => (Some too_long, zone, polls)
    | S sentinel =>
      if (sentinel <=? 0)%nat then (Some too_long, zone, polls)
      else
        match getZone polls with
        | Failed err => (Some err, zone, S polls)
        | Done zone_ => until_running getZone sentinel zone_ (S polls)
        end
    end.

(** The callback of [mapi.createZone] in [createDevzone], past its check of
    [err]: [var sentinel = 30] and the loop. *)
Definition wait_for_devzone (getZone : nat → outcome Zone) (newZone : Zone)
  : option jserr * Zone * nat :=
  until_running getZone 30 newZone 0.

End Bootstrap.

(* ===================================================================== *)
(** ** More of the concrete installation: puts, requests, monitors and the
       new zone *)
(* ===================================================================== *)

Module Fixtures.

Import Probes.

(** *** The probe on the headnode that bootstrap.js loads for alice, and the
    same put by bob *)

Definition smartlogin_config : json :=
  JObj [("path", JStr "/var/svc/log/smartdc-agent-smartlogin:default.log");
        ("regex", JStr "Stopping"); ("threshold", JNum 1); ("period", JNum 60)].

Definition smartlogin : PublicData :=
  mkPublicData (Some Demo.alice) (Some "gz") (Some "smartlogin") (Some "logscan")
    (Some smartlogin_config) None (Some Demo.headnode) None.

Definition smartlogin_by_bob : PublicData :=
  mkPublicData (Some Demo.bob) (Some "gz") (Some "smartlogin") (Some "logscan")
    (Some smartlogin_config) None (Some Demo.headnode) None.

Definition smartlogin_probe : Probe :=
  mkProbe (Probe_dn Demo.alice "gz" "smartlogin") (Some Demo.alice) (Some "gz")
    (mkRaw (Some "smartlogin") (Some "logscan") (Some "amonprobe")
           (Some (Demo.stringify smartlogin_config)) None (Some Demo.headnode) None).

Definition smartlogin_probe_of_bob : Probe :=
  mkProbe (Probe_dn Demo.bob "gz" "smartlogin") (Some Demo.bob) (Some "gz")
    (raw smartlogin_probe).

(** *** Adding to the directory of [Demo] *)

Definition entry_of (dn : string) (r : Raw) : UfdsEntry :=
  mkUfdsEntry dn (String_of (raw_objectclass r)) (raw_amonprobe r) (raw_type r)
    (raw_config r) (raw_machine r) (raw_server r) (raw_global r).

Definition add (d : Demo.directory) (dn : string) (r : Raw)
  : option jserr * Demo.directory :=
  if negb (Demo.up d) then (Some Demo.unavailable, d)
  else (None, Demo.mkDirectory true (Demo.stored d ++ [entry_of dn r])%list).

Definition writable : UfdsWrite.Writable Demo.probes Demo.ufds :=
  @ProbeWrites.Probe_Writable Demo.platform Demo.services Demo.ufds add.

Definition routed : UfdsWrite.Routed Demo.probes :=
  @ProbeWrites.Probe_Routed Demo.platform.

(** *** Apps with an empty cache: over a directory that holds the whistlelog
    probe, and over an empty one; and an app whose cache holds, for the
    whistlelog probe, an entry that lost its type *)

Definition whistle_app : @UfdsModel.App Demo.probes Demo.ufds :=
  Demo.app_over (Demo.mkDirectory true [Demo.whistlelog_entry]).

Definition empty_app : @UfdsModel.App Demo.probes Demo.ufds :=
  Demo.app_over (Demo.mkDirectory true []).

Definition stale_app : @UfdsModel.App Demo.probes Demo.ufds :=
  @UfdsModel.mkApp Demo.probes Demo.ufds
    (<[("ProbeGet", Demo.whistlelog_dn) :=
         @UfdsModel.mkEntry Demo.probes None
           (@UfdsModel.COne Demo.probes (FromUfds Demo.corrupt_entry))]> ∅)
    (Demo.mkDirectory true [Demo.whistlelog_entry]) [] [].

(** *** Requests of bob: for the whistlelog probe, and for a probe whose name
    has a space *)

Definition bob_dn : string := "uuid=" +:+ Demo.bob +:+ ", ou=users, o=smartdc".

Definition whistlelog_request : ProbeRoutes.Request :=
  ProbeRoutes.mkRequest (Some "whistle") (Some "whistlelog") Demo.bob bob_dn.

Definition misnamed_request : ProbeRoutes.Request :=
  ProbeRoutes.mkRequest (Some "whistle") (Some "whistle log") Demo.bob bob_dn.

(** *** Monitors: a contact module that refuses the empty contact, the
    whistle monitor and a directory of monitors *)

Definition contacts : MonitorModel.Contacts :=
  {| MonitorModel.Contact_parseUrn := λ c,
       if String.eqb c "" then Some (InvalidArgument "invalid contact") else None |}.

Definition whistle : MonitorModel.PublicData :=
  MonitorModel.mkPublicData (Some Demo.bob) (Some "whistle") (Some (MonitorModel.One "email")).

Definition whistle_entry : MonitorModel.UfdsEntry :=
  MonitorModel.mkUfdsEntry (MonitorModel.Monitor_dn Demo.bob "whistle") "amonmonitor"
    (Some "whistle") (Some (MonitorModel.One "email")).

Definition whistle_monitor : MonitorModel.Monitor :=
  MonitorModel.mkMonitor (MonitorModel.Monitor_dn Demo.bob "whistle") (Some Demo.bob)
    (MonitorModel.mkRaw (Some "whistle") (Some (MonitorModel.Many ["email"]))
                        (Some "amonmonitor")).

(** A monitor entry right under [ou=users]: its DN names no user. *)
Definition orphan_entry : MonitorModel.UfdsEntry :=
  MonitorModel.mkUfdsEntry "amonmonitor=whistle, ou=users, o=smartdc" "amonmonitor"
    (Some "whistle") (Some (MonitorModel.One "email")).

Definition orphan_monitor : MonitorModel.Monitor :=
  MonitorModel.mkMonitor "amonmonitor=whistle, ou=users, o=smartdc" None
    (MonitorModel.mkRaw (Some "whistle") (Some (MonitorModel.Many ["email"]))
                        (Some "amonmonitor")).

Definition monitors : UfdsModel.Model :=
  @MonitorModel.Monitor_Model Demo.platform contacts.

Definition monitor_search (d : list MonitorModel.UfdsEntry) (base : string)
    (opts : UfdsModel.SearchOpts) : outcome (list MonitorModel.MonitorData) :=
  if String.eqb (UfdsModel.opt_scope opts) "base" then
    match List.filter (λ e, String.eqb (MonitorModel.ent_dn e) base) d with
    | [] => Failed Demo.no_such_object
    | found => Done (map MonitorModel.FromUfds found)
    end
  else Done (map MonitorModel.FromUfds
               (List.filter (λ e, mentions base (MonitorModel.ent_dn e)) d)).

Definition monitor_ufds : UfdsModel.Directory MonitorModel.MonitorData :=
  {| UfdsModel.dirstate := list MonitorModel.UfdsEntry;
     UfdsModel.ufdsSearch := monitor_search;
     UfdsModel.ufdsDelete := λ d target,
       (None, List.filter (λ e, negb (String.eqb (MonitorModel.ent_dn e) target)) d) |}.

Definition monitor_app : @UfdsModel.App monitors monitor_ufds :=
  @UfdsModel.mkApp monitors monitor_ufds ∅ [whistle_entry] [] [].



(** *** A new zone that is running at the third look *)

Definition devzone (status : string) : Bootstrap.Zone := Bootstrap.mkZone "devzone" status.

Definition getZone (k : nat) : outcome Bootstrap.Zone :=
  if (k <? 2)%nat then Done (devzone "provisioning") else Done (devzone "running").

(** *** A monitor of bob one of whose contacts has the medium "constructor",
    for which no plugin is loaded; the other contact can be mailed *)

Definition odd_collaborators : MasterApp.Collaborators :=
  {| MasterApp.ufds_search := @MasterApp.ufds_search Demo.collaborators;
     MasterApp.Monitor_get := λ n u,
       if String.eqb n "whistle" && String.eqb u Demo.bob
       then Done (MasterApp.mkMonitor "whistle" ["email"; "odd"])
       else Failed Demo.not_found;
     MasterApp.Contact_get := λ n _,
       if String.eqb n "email"
       then Done (MasterApp.mkContact "email" "email" "bob@example.com")
       else if String.eqb n "odd"
       then Done (MasterApp.mkContact "odd" "constructor" "bob")
       else Failed Demo.not_found;
     MasterApp.notificationPlugins :=
       @MasterApp.notificationPlugins Demo.collaborators |}.

(** *** An entry of another objectclass under the whistle monitor *)

Definition alien_entry : UfdsEntry :=
  mkUfdsEntry (Probe_dn Demo.bob "whistle" "alien") "amonprobe2"
    (Some "alien") (Some "logscan") None (Some Demo.zone) None None.

(** *** A fake-fault request of bob for the whistle monitor *)


End Fixtures.

(* ===================================================================== *)
(** ** Properties of the Probe model *)
(* ===================================================================== *)

Module ProbeFacts.

Import Probes.

Lemma starts_with_app (n a b : string) :
  starts_with n a = true → starts_with n (a +:+ b) = true.
Proof.
  revert a. induction n as [|c n IH]; intros a H; [done|].
  destruct a as [|c' a]; [done|].
  change (String c' a +:+ b) with (String c' (a +:+ b)). cbn in *.
  apply andb_true_iff in H as [-> H]. by apply IH.
Qed.

Lemma mentions_app (n a b : string) :
  mentions n a = true → mentions n (a +:+ b) = true.
Proof.
  induction a as [|c a IH]; intros H.
  - cbn in H. rewrite orb_false_r in H. destruct n; [|done].
    by destruct ("" +:+ b).
  - cbn in H. apply orb_true_iff in H as [H|H].
    + change (String c a +:+ b) with (String c (a +:+ b)).
      cbn [mentions]. apply orb_true_iff. left.
      change (String c (a +:+ b)) with (String c a +:+ b). by apply starts_with_app.
    + change (String c a +:+ b) with (String c (a +:+ b)).
      cbn [mentions]. apply orb_true_iff. right. by apply IH.
Qed.

Section Facts.
Context {PF : Platform}.

(** *** What the statements speak of *)

(** The raw object the constructor builds from [data]. *)
Definition raw_of (data : ProbeData) : Raw :=
  match data with
  | FromUfds e => raw_of_entry e
  | FromPublic d => raw_of_public d
  end.

(** [data] names a machine; [data] names a server. *)
Definition machine_set (data : ProbeData) : bool :=
  match data with
  | FromUfds e => truthyS (ent_machine e)
  | FromPublic d => truthyS (data_machine d)
  end.

Definition server_set (data : ProbeData) : bool :=
  match data with
  | FromUfds e => truthyS (ent_server e)
  | FromPublic d => truthyS (data_server d)
  end.

(** The checks the constructor and [validate] make before they look at
    machine and server all pass: the public form has name, monitor and user;
    the directory form has the objectclass of a probe and a DN that parses;
    the name matches the name pattern; name and type are present. *)
Definition reaches_target_check (data : ProbeData) : bool :=
  match data with
  | FromPublic d =>
    truthyS (data_name d) && truthyS (data_monitor d) && truthyS (data_user d)
    && nameRegex_test (String_of (data_name d)) && truthyS (data_type d)
  | FromUfds e =>
    String.eqb (ent_objectclass e) Probe_objectclass
    && is_Ok (parseDn (ent_dn e))
    && nameRegex_test (String_of (ent_amonprobe e))
    && truthyS (ent_amonprobe e) && truthyS (ent_type e)
  end.

(** Two instances with the same user, monitor, name, type, config, machine,
    server and global. *)
Definition equivalent (p q : Probe) : Prop :=
  user p = user q ∧ monitor p = monitor q ∧ name p = name q ∧ type p = type q ∧
  config p = config q ∧ machine p = machine q ∧ server p = server q ∧
  global p = global q.

(** [v] comes back from [JSON.parse(JSON.stringify(v))]. *)
Definition survives_JSON (v : json) : Prop :=
  truthy_string (JSON_stringify v) = true ∧
  JSON_parse (JSON_stringify v) = Parsed v.

(** *** Validation, step by step *)

Lemma bind_Ok {A B} (m : res A) (k : A → res B) (b : B) :
  (m ≫= k) = Ok b → ∃ a, m = Ok a ∧ k a = Ok b.
Proof. destruct m; simpl; [eauto|discriminate]. Qed.

Lemma validate_Ok r r' :
  validate r = Ok r' →
  truthyS (raw_amonprobe r) = true ∧ truthyS (raw_type r) = true ∧
  validateTarget r = Ok tt ∧
  ∃ T, plugins (String_of (raw_type r)) = Some T ∧
       validateProbeConfig T r = Ok tt ∧
       r' = (if runInGlobal T then set_global r (Some (JBool true)) else r).
Proof.
  unfold validate. intros H.
  apply bind_Ok in H as ([] & H1 & H).
  apply bind_Ok in H as ([] & H2 & H).
  apply bind_Ok in H as ([] & H3 & H).
  destruct (plugins _) as [T|] eqn:HT; [|discriminate].
  apply bind_Ok in H as ([] & H4 & H).
  unfold requireField in H1, H2.
  destruct (truthyS (raw_amonprobe r)); [|discriminate].
  destruct (truthyS (raw_type r)); [|discriminate].
  repeat split; try done. exists T. repeat split; try done. congruence.
Qed.

Lemma truthyS_keep (o : option string) :
  truthyS (if truthyS o then o else None) = truthyS o.
Proof. by destruct (truthyS o) eqn:E. Qed.

Lemma keep_truthy (o : option string) :
  o ≠ Some "" → (if truthyS o then o else None) = o.
Proof. destruct o as [[|]|]; simpl; done. Qed.

Lemma target_Ok r :
  validateTarget r = Ok tt →
  xorb (truthyS (raw_machine r)) (truthyS (raw_server r)) = true.
Proof.
  unfold validateTarget.
  destruct (truthyS (raw_machine r)), (truthyS (raw_server r)); simpl; done.
Qed.

Lemma target_both r :
  truthyS (raw_machine r) = true → truthyS (raw_server r) = true →
  validateTarget r = Throw (InvalidArgument
    ("must specify only one of 'machine' or 'server' for a probe: " +:+ format_j r)).
Proof. unfold validateTarget. by intros -> ->. Qed.

Lemma target_neither r :
  truthyS (raw_machine r) = false → truthyS (raw_server r) = false →
  validateTarget r = Throw (MissingParameter
    ("must specify one of 'machine' or 'server' for a probe: " +:+ format_j r)).
Proof. unfold validateTarget. by intros -> ->. Qed.

Lemma target_keep r r2 :
  raw_machine r2 = raw_machine r → raw_server r2 = raw_server r →
  validateTarget r = Ok tt → validateTarget r2 = Ok tt.
Proof.
  unfold validateTarget. intros -> ->.
  destruct (truthyS (raw_machine r)), (truthyS (raw_server r)); simpl; try done;
    by destruct (UUID_RE_test _).
Qed.

Lemma validate_target_fails r e :
  validateTarget r = Throw e →
  is_Ok (validate r) = false ∧
  (truthyS (raw_amonprobe r) = true → truthyS (raw_type r) = true →
   validate r = Throw e).
Proof.
  intros Ht. unfold validate, requireField. rewrite Ht.
  destruct (truthyS (raw_amonprobe r)), (truthyS (raw_type r)); simpl; done.
Qed.

Lemma getters_of_validate r r' :
  validate r = Ok r' →
  raw_amonprobe r' = raw_amonprobe r ∧ raw_type r' = raw_type r ∧
  raw_config r' = raw_config r ∧ raw_machine r' = raw_machine r ∧
  raw_server r' = raw_server r.
Proof.
  intros (_ & _ & _ & T & _ & _ & ->)%validate_Ok. by destruct (runInGlobal T).
Qed.

Lemma config_Ok T r :
  validateProbeConfig T r = Ok tt →
  truthyS (raw_config r) = false ∨
  ∃ v, truthyS (raw_config r) = true ∧
       JSON_parse (String_of (raw_config r)) = Parsed v ∧
       validateConfig T v = None.
Proof.
  unfold validateProbeConfig.
  destruct (truthyS (raw_config r)); [|by left].
  destruct (JSON_parse _) as [v|]; [|done].
  destruct (validateConfig T v) eqn:E; [done|]. right. eauto.
Qed.

(** *** The constructor *)

Lemma new_Probe_Ok data p :
  new_Probe data = Ok p → validate (raw_of data) = Ok (raw p).
Proof.
  destruct data as [e|d]; simpl.
  - destruct (truthy_string _); [|done]. unfold construct_ufds.
    destruct (negb _); [done|]. intros H.
    apply bind_Ok in H as (parts & _ & H).
    apply bind_Ok in H as ([] & _ & H).
    apply bind_Ok in H as (r' & Hv & H). by injection H as <-.
  - unfold construct_public.
    repeat (destruct (negb _); [done|]). intros H.
    apply bind_Ok in H as ([] & _ & H).
    apply bind_Ok in H as (r' & Hv & H). by injection H as <-.
Qed.

Lemma new_Probe_fails data :
  is_Ok (validate (raw_of data)) = false → is_Ok (new_Probe data) = false.
Proof.
  intros Hv. destruct (new_Probe data) as [p|] eqn:E; [|done].
  apply new_Probe_Ok in E. by rewrite E in Hv.
Qed.

Lemma construct_ufds_Ok e p :
  new_Probe (FromUfds e) = Ok p →
  nameRegex_test (String_of (ent_amonprobe e)) = true ∧
  dn p = ent_dn e ∧
  (∃ parts, parseDn (ent_dn e) = Ok parts ∧
            user p = parts_user parts ∧ monitor p = parts_monitor parts) ∧
  validate (raw_of_entry e) = Ok (raw p).
Proof.
  simpl. destruct (truthy_string _); [|done]. unfold construct_ufds.
  destruct (negb _); [done|]. intros H.
  apply bind_Ok in H as (parts & Hp & H).
  apply bind_Ok in H as ([] & Hn & H).
  apply bind_Ok in H as (r' & Hv & H). injection H as <-. simpl.
  unfold validateName in Hn.
  destruct (nameRegex_test _); [|done]. eauto 10.
Qed.

Lemma raw_of_machine data : truthyS (raw_machine (raw_of data)) = machine_set data.
Proof. destruct data; simpl; [done|apply truthyS_keep]. Qed.

Lemma raw_of_server data : truthyS (raw_server (raw_of data)) = server_set data.
Proof. destruct data; simpl; [done|apply truthyS_keep]. Qed.

Lemma reaches_then_validate data :
  reaches_target_check data = true →
  truthyS (raw_amonprobe (raw_of data)) = true
  ∧ truthyS (raw_type (raw_of data)) = true
  ∧ ∀ e, validate (raw_of data) = Throw e → new_Probe data = Throw e.
Proof.
  destruct data as [e|d]; simpl; intros H.
  - rewrite !andb_true_iff in H. destruct H as ((((Hoc & Hdn) & Hre) & Hn) & Hty).
    assert (truthy_string (ent_objectclass e) = true) as ->.
    { apply String.eqb_eq in Hoc as ->. done. }
    unfold construct_ufds. rewrite Hoc. simpl.
    destruct (parseDn (ent_dn e)) as [parts|] eqn:Ep; [|done]. simpl.
    unfold validateName. simpl. rewrite Hre. simpl.
    repeat split; try done. by intros err ->.
  - rewrite !andb_true_iff in H. destruct H as ((((Hn & Hm) & Hu) & Hre) & Hty).
    unfold construct_public. rewrite Hn, Hm, Hu. simpl.
    unfold validateName. simpl. rewrite Hre. simpl.
    repeat split; try done. by intros err ->.
Qed.

(** A probe that validates names a machine or a server and not both. *)
Lemma new_Probe_one_target data p :
  new_Probe data = Ok p →
  xorb (truthyS (machine p)) (truthyS (server p)) = true.
Proof.
  intros Hp. apply new_Probe_Ok in Hp.
  pose proof (getters_of_validate _ _ Hp) as (_ & _ & _ & Hm & Hs).
  apply validate_Ok in Hp as (_ & _ & Ht & _).
  unfold machine, server. rewrite Hm, Hs. by apply target_Ok.
Qed.

(** A probe that validates has its type in the plugin table, and its raw
    data is what the constructor built, with [global] set for a type that
    runs in the global zone. *)
Lemma new_Probe_plugin data p :
  new_Probe data = Ok p →
  ∃ T, plugins (String_of (type p)) = Some T ∧
       raw p = (if runInGlobal T
                then set_global (raw_of data) (Some (JBool true))
                else raw_of data).
Proof.
  intros Hp. apply new_Probe_Ok in Hp.
  pose proof (getters_of_validate _ _ Hp) as (_ & Hty & _).
  apply validate_Ok in Hp as (_ & _ & _ & T & HT & _ & Hr).
  exists T. unfold type. by rewrite Hty.
Qed.

(** *** Machine or server *)

(** C1 (amended).  Every probe that validates has exactly one of machine and
    server non-empty.  A construction whose data names both, or neither,
    always fails; when the checks that come first pass (see
    [reaches_target_check]) it fails with InvalidArgument and a message that
    mentions "only one" for both, and with MissingParameter and a message
    that mentions "'machine' or 'server'" for neither. *)
Theorem exactly_one_of_machine_server (data : ProbeData) :
  (∀ p, new_Probe data = Ok p →
        xorb (truthyS (machine p)) (truthyS (server p)) = true) ∧
  (machine_set data && server_set data = true →
   is_Ok (new_Probe data) = false ∧
   (reaches_target_check data = true →
    ∃ e, new_Probe data = Throw e ∧ kind e = InvalidArgumentError ∧
         mentions "only one" (message e) = true)) ∧
  (machine_set data || server_set data = false →
   is_Ok (new_Probe data) = false ∧
   (reaches_target_check data = true →
    ∃ e, new_Probe data = Throw e ∧ kind e = MissingParameterError ∧
         mentions "'machine' or 'server'" (message e) = true)).
Proof.
  split; [|split].
  - intros p. apply new_Probe_one_target.
  - intros [Hm Hs]%andb_true_iff.
    rewrite <- raw_of_machine in Hm. rewrite <- raw_of_server in Hs.
    pose proof (target_both _ Hm Hs) as Ht.
    apply validate_target_fails in Ht as [Hfail Hv].
    split; [by apply new_Probe_fails|].
    intros (Hn & Hty & Hthrow)%reaches_then_validate.
    eexists. split; [apply Hthrow; by apply Hv|]. split; [done|].
    by apply mentions_app.
  - intros [Hm Hs]%orb_false_iff.
    rewrite <- raw_of_machine in Hm. rewrite <- raw_of_server in Hs.
    pose proof (target_neither _ Hm Hs) as Ht.
    apply validate_target_fails in Ht as [Hfail Hv].
    split; [by apply new_Probe_fails|].
    intros (Hn & Hty & Hthrow)%reaches_then_validate.
    eexists. split; [apply Hthrow; by apply Hv|]. split; [done|].
    by apply mentions_app.
Qed.

(** *** global *)

(** C6 (amended).  For every probe that validates, the plugin table has an
    entry T for its type.  If T declares runInGlobal, global is true.  If it
    does not, a probe built from data in the public form has no global, and
    a probe built from data in the directory form (data that carries an
    objectclass) keeps the global attribute of that data.  So global agrees
    with T's runInGlobal if and only if T declares runInGlobal, the data was
    in the public form, or the global attribute of the data is falsy.  A put
    that hands back an item hands back this probe and has added its raw
    data, with that global, at its DN. *)
Theorem global_follows_plugin
    {MS : MasterServices} {D : UfdsModel.Directory ProbeData}
    (data : ProbeData) (p : Probe) :
  new_Probe data = Ok p →
  ∃ T, plugins (String_of (type p)) = Some T ∧
       (runInGlobal T = true → global p = Some (JBool true)) ∧
       (runInGlobal T = false →
        global p = match data with
                   | FromPublic _ => None
                   | FromUfds e => ent_global e
                   end) ∧
       (truthyJ (global p) = runInGlobal T ↔
        runInGlobal T = true ∨
        match data with
        | FromPublic _ => True
        | FromUfds e => truthyJ (ent_global e) = false
        end) ∧
       (∀ add (app : @UfdsModel.App ProbeController.Probe_Model D) r item,
          @UfdsWrite.modelPut ProbeController.Probe_Model D
            (ProbeWrites.Probe_Writable add) app data = Ok r →
          UfdsWrite.put_result r = Done item →
          item = p ∧ UfdsWrite.put_added r = [(dn p, raw p)]).
Proof.
  intros Hp. pose proof Hp as (T & HT & Hr)%new_Probe_plugin.
  exists T. split; [done|].
  assert (global p = if runInGlobal T then Some (JBool true)
                     else raw_global (raw_of data)) as Hg.
  { unfold global. rewrite Hr. by destruct (runInGlobal T). }
  split; [by intros Ht; rewrite Hg, Ht|].
  split; [by intros Ht; rewrite Hg, Ht; destruct data|]. split.
  - rewrite Hg. destruct (runInGlobal T); simpl.
    + split; [by left|done].
    + destruct data as [e|d]; simpl.
      * split; [by right|]. by intros [?|?].
      * split; [by right|done].
  - intros add app r item. unfold UfdsWrite.modelPut.
    change (@UfdsModel.new_Model ProbeController.Probe_Model data)
      with (new_Probe data). rewrite Hp.
    cbn [UfdsWrite.Model_authorizePut ProbeWrites.Probe_Writable mbind res_bind bind].
    destruct (authorizePut p) as [[err|]|err]; simpl; [by intros [= <-]| |done].
    destruct (add _ _ _) as [[addErr|] d']; intros [= <-]; simpl; [done|].
    by intros [= <-].
Qed.

(** *** serialize and back *)

(** C7 (amended).  Take a probe built from a directory entry whose DN names
    a user and a monitor, whose machine and server attributes are not empty
    strings, whose config, if it has one, is a truthy JSON value that comes
    back from stringify and parse, and which carries no global attribute
    unless its type declares runInGlobal.  Then serialize(true), fed to the
    constructor as the public form, yields an instance with the same user,
    monitor, name, type, config, machine, server and global. *)
Theorem serialize_roundtrip (e : UfdsEntry) (p : Probe) :
  new_Probe (FromUfds e) = Ok p →
  truthyS (user p) = true → truthyS (monitor p) = true →
  ent_machine e ≠ Some "" → ent_server e ≠ Some "" →
  (∀ v, config p = Some v → truthy_json v = true ∧ survives_JSON v) →
  (∀ T, plugins (String_of (ent_type e)) = Some T →
        runInGlobal T = false → ent_global e = None) →
  ∃ q, new_Probe (FromPublic (serialize true p)) = Ok q ∧ equivalent p q.
Proof.
  intros Hp Hu Hm Hmach Hserv Hcfg Hglob.
  apply construct_ufds_Ok in Hp as (Hre & _ & _ & Hv).
  pose proof (getters_of_validate _ _ Hv) as (Hn & Hty & Hc & Hma & Hse).
  simpl in Hn, Hty, Hc, Hma, Hse.
  apply validate_Ok in Hv as (Hname & Htype & Htarget & T & HT & HTc & Hr).
  simpl in Hname, Htype, HT.
  (* the config the getter returns *)
  assert (config p = (if truthyS (ent_config e)
                      then match JSON_parse (String_of (ent_config e)) with
                           | Parsed v => Some v
                           | SyntaxError _ => None
                           end
                      else None)) as Hconfig.
  { unfold config. by rewrite Hc. }
  set (d := serialize true p).
  set (r2 := raw_of_public d).
  assert (raw_amonprobe r2 = ent_amonprobe e) as Hn2 by (simpl; by unfold name).
  assert (raw_type r2 = ent_type e) as Hty2 by (simpl; by unfold type).
  assert (raw_machine r2 = ent_machine e) as Hma2.
  { simpl. unfold machine. rewrite Hma, truthyS_keep. rewrite !keep_truthy; done. }
  assert (raw_server r2 = ent_server e) as Hse2.
  { simpl. unfold server. rewrite Hse, truthyS_keep. rewrite !keep_truthy; done. }
  (* the config validates again and parses to the same value *)
  assert (validateProbeConfig T r2 = Ok tt ∧
          (if truthyS (raw_config r2)
           then match JSON_parse (String_of (raw_config r2)) with
                | Parsed v => Some v
                | SyntaxError _ => None
                end
           else None) = config p) as [HTc2 Hconfig2].
  { apply config_Ok in HTc as [Hno|(v & Hyes & Hparse & Hvalid)];
      simpl in Hno || simpl in Hyes, Hparse.
    - rewrite Hconfig, Hno. simpl. unfold validateProbeConfig.
      simpl. rewrite Hconfig, Hno. simpl. done.
    - assert (config p = Some v) as Hpv by (rewrite Hconfig, Hyes, Hparse; done).
      destruct (Hcfg v Hpv) as (Htv & Hne & Hrt).
      unfold validateProbeConfig. simpl. rewrite Hpv.
      unfold truthyJ, truthyS, truthy. rewrite !Htv. cbn.
      rewrite Hne, Hrt, Hvalid. done. }
  assert (validate r2 =
          Ok (if runInGlobal T then set_global r2 (Some (JBool true)) else r2)) as Hv2.
  { unfold validate, requireField. rewrite Hn2, Hty2, Hname, Htype. simpl.
    rewrite (target_keep (raw_of_entry e) r2); [|done..]. simpl.
    rewrite HT. rewrite HTc2. done. }
  eexists. split.
  - unfold new_Probe, construct_public.
    change (data_name d) with (raw_amonprobe (raw p)).
    change (data_monitor d) with (monitor p).
    change (data_user d) with (user p).
    rewrite Hn, Hname, Hm, Hu. cbn [negb]. fold r2.
    unfold validateName. rewrite Hn2, Hre, Hv2. reflexivity.
  - set (r3 := if runInGlobal T then set_global r2 (Some (JBool true)) else r2).
    assert (raw_amonprobe r3 = raw_amonprobe r2 ∧ raw_type r3 = raw_type r2 ∧
            raw_config r3 = raw_config r2 ∧ raw_machine r3 = raw_machine r2 ∧
            raw_server r3 = raw_server r2) as (E1 & E2 & E3 & E4 & E5).
    { unfold r3. by destruct (runInGlobal T). }
    unfold equivalent, name, type, machine, server, global. cbn [user monitor raw].
    rewrite E1, E2, E4, E5, Hn2, Hty2, Hma2, Hse2, Hn, Hty, Hma, Hse.
    repeat split; try done.
    + rewrite <- Hconfig2. unfold config at 1. cbn [raw]. by rewrite E3.
    + rewrite Hr. unfold r3. destruct (runInGlobal T) eqn:Hg; [done|].
      simpl. by apply Hglob with T.
Qed.

(** *** Who may put a probe *)

Context {MS : MasterServices}.

(** 1. The probe targets a machine the owning account owns. *)
Definition owner_of_machine (p : Probe) : Prop :=
  truthyS (machine p) = true ∧
  (mapi_getMachine (user p) (String_of (machine p))).1 = None.

(** 2. The probe targets a server that exists and the account is an
    operator. *)
Definition operator_on_server (p : Probe) : Prop :=
  truthyS (server p) = true ∧
  isOperator (user p) = (None, true) ∧
  (serverExists (String_of (server p))).2 = true.

(** 3. The probe targets a machine that exists but is not the account's,
    its type runs in the global zone and the account is an operator. *)
Definition operator_on_foreign_machine (p : Probe) : Prop :=
  truthyS (machine p) = true ∧
  (∃ e, (mapi_getMachine (user p) (String_of (machine p))).1 = Some e ∧
        httpCode_is 404 e = true) ∧
  is_Some (mapi_getMachine (Some "") (String_of (machine p))).2 ∧
  (∃ T, plugins (String_of (type p)) = Some T ∧ runInGlobal T = true) ∧
  isOperator (user p) = (None, true).

(** A lookup behind the authorization fails for a reason of its own: the
    owner's machine lookup with something other than a 404, or the operator
    check of a server probe. *)
Definition lookup_breaks (p : Probe) : Prop :=
  (truthyS (machine p) = true ∧
   ∃ e, (mapi_getMachine (user p) (String_of (machine p))).1 = Some e ∧
        httpCode_is 404 e = false) ∨
  (truthyS (machine p) = false ∧ truthyS (server p) = true ∧
   is_Some (isOperator (user p)).1).

(** What [authorizePut] is shown to do for one probe. *)
Definition decided (p : Probe) : Prop :=
  (authorizePut p = Ok None ↔
   owner_of_machine p ∨ operator_on_server p ∨ operator_on_foreign_machine p) ∧
  (authorizePut p = Ok (Some internal_authorizing) ↔ lookup_breaks p) ∧
  (∃ r, authorizePut p = Ok r ∧
        ∀ e, r = Some e → e ≠ internal_authorizing →
             kind e = InvalidArgumentError) ∧
  (truthyS (server p) = true → isOperator (user p) = (None, false) →
   ∃ e, authorizePut p = Ok (Some e) ∧ kind e = InvalidArgumentError ∧
        mentions "operator" (message e) = true).

Ltac unfold_authorization :=
  unfold decided, owner_of_machine, operator_on_server,
    operator_on_foreign_machine, lookup_breaks, authorizePut,
    isRunInGlobalOrErr, isExistingMachineOrErr, userIsOperatorOrErr,
    internal_authorizing, Internal, InvalidArgument.

(** Splits the statement into its parts, takes the hypotheses of each part
    apart and closes it by what the equations between results say. *)
Ltac take_apart :=
  repeat (match goal with
          | H : ∃ _, _ |- _ => destruct H
          | H : _ ∧ _ |- _ => destruct H
          | H : _ ∨ _ |- _ => destruct H
          | H : is_Some _ |- _ => destruct H
          end; simplify_eq).

Ltac settle :=
  repeat match goal with
         | |- _ ∧ _ => split
         | |- _ ↔ _ => split
         end;
  intros; take_apart;
  first [ done
        | timeout 5 congruence
        | eexists; split; [done|]; intros; by simplify_eq
        | timeout 20 naive_solver ].

Lemma authorizePut_machine p T :
  plugins (String_of (type p)) = Some T →
  truthyS (machine p) = true → truthyS (server p) = false →
  decided p.
Proof.
  intros HT Hm Hs. unfold_authorization. rewrite HT, Hm, Hs.
  destruct (mapi_getMachine (user p) _) as [[e|] own]; cbn [fst snd];
    [destruct (httpCode_is 404 e) eqn:H404|].
  - (* not the owner's: the three conditions of an operator's global probe *)
    destruct (mapi_getMachine (Some "") _) as [err' [m|]];
      destruct (isOperator (user p)) as [[oe|] [|]];
      destruct (runInGlobal T) eqn:Hg; cbn; settle.
  - (* the lookup broke *)
    cbn. settle.
  - (* the owner's *)
    cbn. settle.
Qed.

Lemma authorizePut_server p :
  (serverExists (String_of (server p))).1 = None →
  truthyS (machine p) = false → truthyS (server p) = true →
  decided p.
Proof.
  intros Hse Hm Hs. unfold_authorization. rewrite Hm, Hs.
  destruct (isOperator (user p)) as [[oe|] [|]];
    destruct (serverExists _) as [se [|]]; cbn in Hse |- *; subst se;
    first [ settle | idtac ].
  all: eexists; split; [done|]; split; [done|]; by vm_compute.
Qed.

(** C2 (amended).  Take a probe that validated, and let the lookup of its
    server, if it is asked, hand back no error of its own.  The put is
    authorized exactly when (1) the probe targets a machine the account owns,
    or (2) it targets a server that exists and the account is an operator, or
    (3) it targets a machine that exists but that the account does not own,
    its type declares runInGlobal and the account is an operator.  Otherwise
    it is refused: with InternalError exactly when the owner's machine lookup
    fails with something other than a 404 or the operator check of a server
    probe fails, and with InvalidArgument in every other case, among them the
    put of a server probe by an account that is not an operator, whose
    message mentions the operator. *)
Theorem authorizePut_decides (data : ProbeData) (p : Probe) :
  new_Probe data = Ok p →
  (serverExists (String_of (server p))).1 = None →
  (authorizePut p = Ok None ↔
   owner_of_machine p ∨ operator_on_server p ∨ operator_on_foreign_machine p) ∧
  (authorizePut p = Ok (Some internal_authorizing) ↔ lookup_breaks p) ∧
  (∃ r, authorizePut p = Ok r ∧
        ∀ e, r = Some e → e ≠ internal_authorizing →
             kind e = InvalidArgumentError) ∧
  (truthyS (server p) = true → isOperator (user p) = (None, false) →
   ∃ e, authorizePut p = Ok (Some e) ∧ kind e = InvalidArgumentError ∧
        mentions "operator" (message e) = true).
Proof.
  intros Hp Hse.
  destruct (new_Probe_plugin _ _ Hp) as (T & HT & _).
  pose proof (new_Probe_one_target _ _ Hp) as Hone.
  change (decided p).
  destruct (truthyS (machine p)) eqn:Hm, (truthyS (server p)) eqn:Hs; try done.
  - by apply (authorizePut_machine p T).
  - by apply authorizePut_server.
Qed.

End Facts.

(** *** The installation of [Demo] *)

(** C1, counterexample.  A put that names both a machine and a server and no
    type fails with MissingParameter for the type. *)
Lemma two_targets_without_type :
  machine_set (FromPublic Demo.two_targets_no_type) = true ∧
  server_set (FromPublic Demo.two_targets_no_type) = true ∧
  @new_Probe Demo.platform (FromPublic Demo.two_targets_no_type)
  = Throw (MissingParameter "'type' is a required parameter for a probe").
Proof. by vm_compute. Qed.

(** C1, witness: the same put with its type. *)
Lemma two_targets_refused :
  ∃ e, @new_Probe Demo.platform (FromPublic Demo.two_targets) = Throw e ∧
       kind e = InvalidArgumentError ∧ mentions "only one" (message e) = true.
Proof.
  destruct (@exactly_one_of_machine_server Demo.platform (FromPublic Demo.two_targets))
    as (_ & Hboth & _).
  destruct Hboth as [_ Hreached]; [reflexivity|].
  apply Hreached. reflexivity.
Defined.

(** C6, counterexample.  Data in the directory form for a log scanner, a
    type that does not run in the global zone, that carries a global
    attribute: it validates and its global is truthy; put by bob for his own
    zone, the put is authorized and adds the raw data with that global. *)
Lemma stale_global_is_kept :
  ∃ p, @new_Probe Demo.platform (FromUfds Demo.stale_global_entry) = Ok p ∧
       truthyJ (global p) = true ∧
       @plugins Demo.platform (String_of (type p)) = Some Demo.logscan ∧
       runInGlobal Demo.logscan = false ∧
       ∃ r, @UfdsWrite.modelPut Demo.probes Demo.ufds Fixtures.writable
              Fixtures.empty_app (FromUfds Demo.stale_global_entry) = Ok r ∧
            UfdsWrite.put_result r = Done p ∧
            UfdsWrite.put_added r = [(dn p, raw p)] ∧
            raw_global (raw p) = Some (JStr "true").
Proof.
  eexists. split; [by vm_compute|]. split; [reflexivity|]. split; [reflexivity|].
  split; [reflexivity|]. eexists. split; [reflexivity|]. repeat split; reflexivity.
Qed.

(** C6, witness: the put of the whistlelog probe. *)
Lemma whistlelog_is_not_global :
  @new_Probe Demo.platform (FromPublic Demo.whistlelog) = Ok Demo.whistlelog_probe ∧
  ∃ T, @plugins Demo.platform (String_of (type Demo.whistlelog_probe)) = Some T ∧
       truthyJ (global Demo.whistlelog_probe) = runInGlobal T.
Proof.
  assert (@new_Probe Demo.platform (FromPublic Demo.whistlelog)
          = Ok Demo.whistlelog_probe) as Hp by (by vm_compute).
  split; [exact Hp|].
  destruct (@global_follows_plugin Demo.platform Demo.services Demo.ufds _ _ Hp)
    as (T & HT & _ & _ & Hput & _).
  exists T. split; [exact HT|]. apply Hput. right. exact I.
Defined.

(** C7, counterexample.  The entry with the stale global attribute: the
    instance built from it has global "true", the one built from its
    serialization has none. *)
Lemma stale_global_is_lost :
  ∃ p q, @new_Probe Demo.platform (FromUfds Demo.stale_global_entry) = Ok p ∧
         @new_Probe Demo.platform (FromPublic (@serialize Demo.platform true p)) = Ok q ∧
         global p = Some (JStr "true") ∧ global q = None.
Proof. eexists _, _. split; [by vm_compute|]. by vm_compute. Qed.

(** C7, witness: the whistlelog probe as UFDS stores it. *)
Lemma whistlelog_roundtrip :
  ∃ q, @new_Probe Demo.platform
         (FromPublic (@serialize Demo.platform true Demo.whistlelog_probe)) = Ok q ∧
       @equivalent Demo.platform Demo.whistlelog_probe q.
Proof.
  apply (@serialize_roundtrip Demo.platform Demo.whistlelog_entry).
  - by vm_compute.
  - reflexivity.
  - reflexivity.
  - discriminate.
  - discriminate.
  - intros v Hv. vm_compute in Hv. injection Hv as <-. by vm_compute.
  - intros T _ _. reflexivity.
Defined.

(** C2, counterexample.  The owner's lookup of the machine breaks with an
    error that is not a 404: the put is refused with InternalError. *)
Lemma broken_lookup_is_internal :
  ∃ p, @new_Probe Demo.platform (FromPublic Demo.lost_probe) = Ok p ∧
       @authorizePut Demo.platform Demo.services p = Ok (Some internal_authorizing) ∧
       kind internal_authorizing = InternalError.
Proof. eexists. by vm_compute. Qed.

(** C2, witness: bob puts a probe on his own zone. *)
Lemma owner_is_authorized :
  @authorizePut Demo.platform Demo.services Demo.whistlelog_probe = Ok None ↔
  @owner_of_machine Demo.services Demo.whistlelog_probe ∨
  @operator_on_server Demo.services Demo.whistlelog_probe ∨
  @operator_on_foreign_machine Demo.platform Demo.services Demo.whistlelog_probe.
Proof.
  destruct (@authorizePut_decides Demo.platform Demo.services
              (FromPublic Demo.whistlelog) Demo.whistlelog_probe) as [H _].
  - by vm_compute.
  - reflexivity.
  - exact H.
Defined.

End ProbeFacts.

(* ===================================================================== *)
(** ** Properties of the UFDS model helpers *)
(* ===================================================================== *)

Module ModelFacts.

Import UfdsModel.

Section ModelFacts.
Context {M : Model} {D : Directory Data}.

(** The entries of a search that construct, in order. *)
Definition constructed (rawItems : list Data) : list Item :=
  omap (λ d, match new_Model d with Ok i => Some i | Throw _ => None end) rawItems.

Lemma construct_each_items rawItems :
  (construct_each rawItems).2 = constructed rawItems.
Proof.
  induction rawItems as [|d rest IH]; [done|]. simpl.
  destruct (construct_each rest) as [lines instances]. simpl in IH. subst.
  unfold constructed. simpl. by destruct (new_Model d).
Qed.

Lemma construct_each_logs rawItems d e :
  d ∈ rawItems → new_Model d = Throw e →
  construct_logged d e ∈ (construct_each rawItems).1.
Proof.
  induction rawItems as [|d' rest IH]; [by intros ?%elem_of_nil|].
  intros [->|Hin]%elem_of_cons He; simpl;
    destruct (construct_each rest) as [lines instances]; simpl in *.
  - rewrite He. simpl. apply elem_of_cons. by left.
  - destruct (new_Model d'); simpl; [by apply IH|].
    apply elem_of_cons. right. by apply IH.
Qed.

Lemma elem_of_constructed rawItems i :
  i ∈ constructed rawItems ↔ ∃ d, d ∈ rawItems ∧ new_Model d = Ok i.
Proof.
  unfold constructed. rewrite list_elem_of_omap. split.
  - intros (d & Hd & H). exists d. split; [done|].
    destruct (new_Model d); congruence.
  - intros (d & Hd & H). exists d. by rewrite H.
Qed.

Lemma modelList_cached_CarryOn app scope key app' :
  modelList_cached app scope key = CarryOn app' →
  ufds app' = ufds app ∧ calls app' = calls app ∧
  (cache app' = cache app ∨ cache app' = delete (scope, key) (cache app)) ∧
  ∃ lines, log app' = (log app ++ lines)%list.
Proof.
  unfold modelList_cached, cacheGet.
  destruct (cache app !! (scope, key)) as [cached|].
  - destruct (c_err cached); [done|].
    destruct (c_data cached) as [|d|ds]; try (intros [= <-]; simpl; eauto 10).
    + rewrite <- app_assoc. eauto 10.
    + rewrite <- app_assoc. eauto 10.
    + destruct (mapM new_Model ds); [done|]. intros [= <-]. simpl.
      rewrite <- app_assoc. eauto 10.
  - intros [= <-]. repeat split; eauto. exists []. by rewrite app_nil_r.
Qed.

(** C10 (amended).  When [modelList] goes to the directory (nothing usable is
    cached) and the search hands back [rawItems], it hands back exactly the
    entries that construct, in their order, however many of the others fail;
    each entry that fails leaves a line in the log: a warning when the
    failure is a validation (REST) error, and a line at error level for any
    other error. *)
Theorem modelList_skips_invalid app parentDn app' rawItems :
  modelList_cached (logto LInfo "modelList" app) (Model_name +:+ "List") parentDn
    = CarryOn app' →
  ufdsSearch (ufds app) parentDn
    (mkOpts (Some ("(objectclass=" +:+ Model_objectclass +:+ ")")) "sub")
    = Done rawItems →
  (modelList app parentDn).2 = Done (constructed rawItems) ∧
  (∀ i, i ∈ constructed rawItems ↔ ∃ d, d ∈ rawItems ∧ new_Model d = Ok i) ∧
  (∀ d e, d ∈ rawItems → new_Model d = Throw e →
          construct_logged d e ∈ log (modelList app parentDn).1 ∧
          level (construct_logged d e) = if isRESTError e then LWarn else LError).
Proof.
  intros Hmiss Hsearch.
  pose proof (modelList_cached_CarryOn _ _ _ _ Hmiss) as (Hu & _).
  simpl in Hu.
  unfold modelList. rewrite Hmiss. unfold modelList_search.
  cbn [ufds called logto]. rewrite Hu, Hsearch.
  pose proof (construct_each_items rawItems) as Hitems.
  pose proof (construct_each_logs rawItems) as Hlogs.
  destruct (construct_each rawItems) as [lines instances]. simpl in Hitems, Hlogs.
  subst instances. split; [done|]. split; [apply elem_of_constructed|].
  intros d e Hd He. split.
  - simpl. rewrite !elem_of_app. left. right. by apply Hlogs.
  - unfold construct_logged. by destruct (isRESTError e).
Qed.


(** *** The directory halves *)

Lemma modelGet_search_spec app skipCache scope dn :
  let r := modelGet_search app skipCache scope dn in
  ufds r.1 = ufds app ∧
  calls r.1 = (calls app ++ [DSearch dn (mkOpts None "base")])%list ∧
  match r.2 with
  | Failed e =>
    (skipCache = false ∧ httpCode_is 503 e = false ∧
     cache r.1 = <[(scope, dn) := mkEntry (Some e) CUndefined]> (cache app)) ∨
    (cache r.1 = cache app ∧
     (skipCache = true ∨ httpCode_is 503 e = true ∨
      e = JsErr InternalError "invalid entry" ∨
      e = JsErr InternalError "conflicting entries"))
  | Done item =>
    cache r.1 = if skipCache then cache app
                else <[(scope, dn) := mkEntry None (COne (Model_serialize item))]> (cache app)
  end.
Proof.
  unfold modelGet_search. cbn [ufds called].
  destruct (ufdsSearch (ufds app) dn _) as [entries|err].
  - destruct entries as [|entry [|]]; cbn; try (by eauto 10).
    destruct (new_Model entry); cbn; [|by eauto 10].
    by destruct skipCache.
  - destruct (httpCode_is 503 err) eqn:E; cbn; [by eauto 10|].
    destruct (is_NoSuchObjectError err); destruct skipCache; cbn; eauto 10.
Qed.

Lemma modelList_search_spec app scope key parentDn :
  let r := modelList_search app scope key parentDn in
  ufds r.1 = ufds app ∧
  match r.2 with
  | Failed e =>
    (httpCode_is 503 e = false ∧
     cache r.1 = <[(scope, key) := mkEntry (Some e) CUndefined]> (cache app)) ∨
    (httpCode_is 503 e = true ∧ cache r.1 = cache app)
  | Done items =>
    cache r.1 = <[(scope, key) := mkEntry None (CMany (map Model_serialize items))]> (cache app)
  end.
Proof.
  unfold modelList_search. cbn [ufds called logto].
  destruct (ufdsSearch (ufds app) parentDn _) as [rawItems|err].
  - by destruct (construct_each rawItems) as [lines instances].
  - destruct (httpCode_is 503 err) eqn:E; cbn; eauto.
Qed.

(** *** Deleting *)

Lemma modelGet_skipCache app dn :
  cache (modelGet app dn true).1 = cache app ∧
  ufds (modelGet app dn true).1 = ufds app ∧
  calls (modelGet app dn true).1 = (calls app ++ [DSearch dn (mkOpts None "base")])%list.
Proof.
  unfold modelGet.
  destruct (modelGet_search_spec (logto LInfo "modelGet" app) true
              (Model_name +:+ "Get") dn) as (Hu & Hcalls & Hcache).
  repeat split; try done.
  destruct (modelGet_search _ _ _ _) as [app1 [item|e]]; simpl in *; [done|].
  by destruct Hcache as [([=] & _)|[-> _]].
Qed.

(** C9.  [modelDelete] first fetches the entity with the cache bypassed: one
    base search, which leaves cache and directory as they were.  If the fetch
    fails, its error is handed back and that is all: no delete is sent and
    the cache is not touched.  Otherwise the delete is sent after the search;
    if it fails the cache is as before; only if it succeeds are the entity's
    get entry and its parent's list entry removed from the cache. *)
Theorem modelDelete_fetches_first app dn :
  let fetched := modelGet (logto LInfo "modelDelete" app) dn true in
  let search := DSearch dn (mkOpts None "base") in
  cache fetched.1 = cache app ∧ ufds fetched.1 = ufds app ∧
  calls fetched.1 = (calls app ++ [search])%list ∧
  match fetched.2 with
  | Failed getErr =>
    modelDelete app dn = (fetched.1, Some getErr)
  | Done item =>
    calls (modelDelete app dn).1 = (calls app ++ [search; DDelete dn])%list ∧
    ufds (modelDelete app dn).1 = (ufdsDelete (ufds app) dn).2 ∧
    match (ufdsDelete (ufds app) dn).1 with
    | Some delErr =>
      (modelDelete app dn).2 = Some delErr ∧
      cache (modelDelete app dn).1 = cache app
    | None =>
      (modelDelete app dn).2 = None ∧
      (modelDelete app dn).1 =
        cacheInvalidateDelete (set_ufds (ufdsDelete (ufds app) dn).2
                                 (called (DDelete dn) fetched.1))
                              Model_name item ∧
      cache (modelDelete app dn).1 =
        delete (Model_name +:+ "List", item_parentDn item)
          (delete (Model_name +:+ "Get", item_dn item) (cache app))
    end
  end.
Proof.
  intros fetched search.
  destruct (modelGet_skipCache (logto LInfo "modelDelete" app) dn)
    as (Hc & Hu & Hcalls).
  fold fetched in Hc, Hu, Hcalls. simpl in Hc, Hu, Hcalls.
  repeat split; try done.
  unfold modelDelete. fold fetched.
  destruct fetched as [app1 [item|getErr]]; simpl in *; [|done].
  rewrite Hu. destruct (ufdsDelete (ufds app) dn) as [[delErr|] d']; simpl.
  - rewrite Hcalls, <- app_assoc. done.
  - rewrite Hcalls, <- app_assoc, Hc. done.
Qed.

(** *** What reaches the cache *)

(** No cached value holds an error whose [httpCode] is 503. *)
Definition no_503_cached (c : gmap (string * string) centry) : Prop :=
  ∀ k v e, c !! k = Some v → c_err v = Some e → httpCode_is 503 e = false.

Lemma no_503_delete c k : no_503_cached c → no_503_cached (delete k c).
Proof.
  intros H k' v e Hk. apply lookup_delete_Some in Hk as [_ Hk]. by apply (H k').
Qed.

Lemma no_503_insert c k v :
  (∀ e, c_err v = Some e → httpCode_is 503 e = false) →
  no_503_cached c → no_503_cached (<[k := v]> c).
Proof.
  intros Hv H k' v' e Hk.
  apply lookup_insert_Some in Hk as [[_ <-]|[_ Hk]]; [apply Hv|by apply (H k')].
Qed.

Lemma modelGet_cached_spec app scope dn :
  match modelGet_cached app scope dn with
  | Answer app' r =>
    cache app' = cache app ∧
    ∀ e, r = Failed e → ∃ v, cache app !! (scope, dn) = Some v ∧ c_err v = Some e
  | CarryOn app' =>
    ufds app' = ufds app ∧ calls app' = calls app ∧
    (cache app' = cache app ∨ cache app' = delete (scope, dn) (cache app))
  end.
Proof.
  unfold modelGet_cached, cacheGet.
  destruct (cache app !! (scope, dn)) as [cached|]; [|by eauto].
  destruct (c_err cached) eqn:E.
  { split; [done|]. intros ? [= <-]. eauto. }
  destruct (c_data cached) as [|d|ds]; try (by eauto).
  destruct (new_Model d); [|by eauto]. split; [done|]. by intros ? [=].
Qed.

Lemma modelList_cached_spec app scope key :
  match modelList_cached app scope key with
  | Answer app' r =>
    cache app' = cache app ∧
    ∀ e, r = Failed e → ∃ v, cache app !! (scope, key) = Some v ∧ c_err v = Some e
  | CarryOn app' =>
    ufds app' = ufds app ∧ calls app' = calls app ∧
    (cache app' = cache app ∨ cache app' = delete (scope, key) (cache app))
  end.
Proof.
  unfold modelList_cached, cacheGet.
  destruct (cache app !! (scope, key)) as [cached|]; [|by eauto].
  destruct (c_err cached) eqn:E.
  { split; [done|]. intros ? [= <-]. eauto. }
  destruct (c_data cached) as [|d|ds]; try (by eauto).
  destruct (mapM new_Model ds); [|by eauto]. split; [done|]. by intros ? [=].
Qed.

Lemma modelGet_keeps_no_503 app dn skipCache :
  no_503_cached (cache app) → no_503_cached (cache (modelGet app dn skipCache).1).
Proof.
  intros Hc. unfold modelGet.
  set (app0 := logto LInfo "modelGet" app).
  set (scope := Model_name +:+ "Get").
  assert (∀ app1, cache app1 = cache app0 ∨ cache app1 = delete (scope, dn) (cache app0) →
                  no_503_cached (cache (modelGet_search app1 skipCache scope dn).1))
    as Hsearch.
  { intros app1 H1.
    assert (no_503_cached (cache app1)) as Hc1.
    { destruct H1 as [->| ->]; [done|by apply no_503_delete]. }
    destruct (modelGet_search_spec app1 skipCache scope dn) as (_ & _ & H).
    destruct (modelGet_search _ _ _ _) as [app2 [item|e]]; simpl in *.
    - rewrite H. destruct skipCache; [done|]. by apply no_503_insert.
    - destruct H as [(_ & He & ->)|[-> _]]; [|done].
      apply no_503_insert; [|done]. by intros ? [= <-]. }
  destruct skipCache; [by apply Hsearch; left|].
  pose proof (modelGet_cached_spec app0 scope dn) as H.
  destruct (modelGet_cached _ _ _) as [app1 r|app1].
  - simpl. by destruct H as [-> _].
  - apply Hsearch. by destruct H as (_ & _ & H).
Qed.

Lemma modelList_keeps_no_503 app parentDn :
  no_503_cached (cache app) → no_503_cached (cache (modelList app parentDn).1).
Proof.
  intros Hc. unfold modelList.
  set (app0 := logto LInfo "modelList" app).
  set (scope := Model_name +:+ "List").
  pose proof (modelList_cached_spec app0 scope parentDn) as H.
  destruct (modelList_cached _ _ _) as [app1 r|app1].
  - simpl. by destruct H as [-> _].
  - destruct H as (_ & _ & H).
    assert (no_503_cached (cache app1)) as Hc1.
    { destruct H as [->| ->]; [done|by apply no_503_delete]. }
    destruct (modelList_search_spec app1 scope parentDn parentDn) as (_ & H2).
    destruct (modelList_search _ _ _ _) as [app2 [items|e]]; simpl in *.
    + rewrite H2. by apply no_503_insert.
    + destruct H2 as [(He & ->)|[_ ->]]; [|done].
      apply no_503_insert; [|done]. by intros ? [= <-].
Qed.

(** An error [modelGet] hands back is in the cache afterwards, unless it is
    a 503 or one of the two internal errors raised on what the search found. *)
Lemma modelGet_error_cached app dn e :
  (modelGet app dn false).2 = Failed e →
  (∃ v, cache (modelGet app dn false).1 !! (Model_name +:+ "Get", dn) = Some v ∧
        c_err v = Some e) ∨
  httpCode_is 503 e = true ∨
  e = JsErr InternalError "invalid entry" ∨
  e = JsErr InternalError "conflicting entries".
Proof.
  unfold modelGet. set (app0 := logto LInfo "modelGet" app).
  set (scope := Model_name +:+ "Get").
  pose proof (modelGet_cached_spec app0 scope dn) as H.
  destruct (modelGet_cached _ _ _) as [app1 r|app1]; simpl.
  - destruct H as [-> H]. intros ->. left. by apply H.
  - destruct (modelGet_search_spec app1 false scope dn) as (_ & _ & H2).
    destruct (modelGet_search _ _ _ _) as [app2 [item|e']]; simpl in *; [done|].
    intros [= ->].
    destruct H2 as [(_ & _ & ->)|(_ & [?|?])]; [|done|by right].
    left. eexists. by rewrite lookup_insert_eq.
Qed.

Lemma modelList_error_cached app parentDn e :
  (modelList app parentDn).2 = Failed e →
  (∃ v, cache (modelList app parentDn).1 !! (Model_name +:+ "List", parentDn) = Some v ∧
        c_err v = Some e) ∨
  httpCode_is 503 e = true.
Proof.
  unfold modelList. set (app0 := logto LInfo "modelList" app).
  set (scope := Model_name +:+ "List").
  pose proof (modelList_cached_spec app0 scope parentDn) as H.
  destruct (modelList_cached _ _ _) as [app1 r|app1]; simpl.
  - destruct H as [-> H]. intros ->. left. by apply H.
  - destruct (modelList_search_spec app1 scope parentDn parentDn) as (_ & H2).
    destruct (modelList_search _ _ _ _) as [app2 [item|e']]; simpl in *; [done|].
    intros [= ->].
    destruct H2 as [(_ & ->)|(? & _)]; [|by right].
    left. eexists. by rewrite lookup_insert_eq.
Qed.

End ModelFacts.

(** C10, witness: a directory that holds the whistlelog probe and a probe
    that lost its type. *)
Lemma corrupt_probe_is_skipped :
  (@modelList Demo.probes Demo.ufds
     (Demo.app_over (Demo.mkDirectory true [Demo.whistlelog_entry; Demo.corrupt_entry]))
     Demo.whistle_dn).2
  = Done [Demo.whistlelog_probe].
Proof.
  pose (app := Demo.app_over
                 (Demo.mkDirectory true [Demo.whistlelog_entry; Demo.corrupt_entry])).
  destruct (@modelList_skips_invalid Demo.probes Demo.ufds app Demo.whistle_dn
              (logto LInfo "modelList" app)
              [Probes.FromUfds Demo.whistlelog_entry; Probes.FromUfds Demo.corrupt_entry])
    as [H _].
  - reflexivity.
  - reflexivity.
  - unfold app in H. rewrite H. reflexivity.
Defined.

(** C10, counterexample.  A directory that hands back the whistlelog probe
    and an entry of another objectclass: the constructor throws a TypeError
    for that entry, which is no REST error; the entry is skipped, the log
    has a line at error level for it and no warning. *)
Lemma alien_entry_is_skipped_without_warning :
  @new_Model Demo.probes (Probes.FromUfds Fixtures.alien_entry)
  = Throw (JsErr TypeError
             ("invalid probe data: objectclass " +:+ dquote +:+ "amonprobe2" +:+ dquote
              +:+ " !== " +:+ dquote +:+ "amonprobe" +:+ dquote)) ∧
  (@modelList Demo.probes Demo.ufds
     (Demo.app_over (Demo.mkDirectory true [Demo.whistlelog_entry; Fixtures.alien_entry]))
     Demo.whistle_dn).2
  = Done [Demo.whistlelog_probe] ∧
  LogLine LError "Unknown error with Probe entry:"
  ∈ log (@modelList Demo.probes Demo.ufds
           (Demo.app_over
              (Demo.mkDirectory true [Demo.whistlelog_entry; Fixtures.alien_entry]))
           Demo.whistle_dn).1 ∧
  Forall (λ line, level line ≠ LWarn)
    (log (@modelList Demo.probes Demo.ufds
            (Demo.app_over
               (Demo.mkDirectory true [Demo.whistlelog_entry; Fixtures.alien_entry]))
            Demo.whistle_dn).1).
Proof.
  split; [reflexivity|]. split; [reflexivity|].
  assert (log (@modelList Demo.probes Demo.ufds
                 (Demo.app_over
                    (Demo.mkDirectory true [Demo.whistlelog_entry; Fixtures.alien_entry]))
                 Demo.whistle_dn).1
          = [LogLine LInfo "modelList"; LogLine LTrace "modelList: ufds search";
             LogLine LError "Unknown error with Probe entry:";
             LogLine LTrace "instances:"]) as -> by reflexivity.
  split.
  - apply list_elem_of_further, list_elem_of_further, list_elem_of_here.
  - repeat (apply Forall_cons; split; [discriminate|]). apply Forall_nil_2.
Qed.

(** C9, witness: deleting the stored whistlelog probe sends the search, then
    the delete, and removes the two cache entries. *)
Lemma stored_probe_is_deleted :
  (@modelDelete Demo.probes Demo.ufds
     (Demo.app_over (Demo.mkDirectory true [Demo.whistlelog_entry]))
     Demo.whistlelog_dn).2 = None ∧
  calls (@modelDelete Demo.probes Demo.ufds
           (Demo.app_over (Demo.mkDirectory true [Demo.whistlelog_entry]))
           Demo.whistlelog_dn).1
  = [DSearch Demo.whistlelog_dn (mkOpts None "base"); DDelete Demo.whistlelog_dn] ∧
  cache (@modelDelete Demo.probes Demo.ufds
           (Demo.app_over (Demo.mkDirectory true [Demo.whistlelog_entry]))
           Demo.whistlelog_dn).1
  = delete ("ProbeList", Demo.whistle_dn) (delete ("ProbeGet", Demo.whistlelog_dn) ∅).
Proof.
  pose proof (@modelDelete_fetches_first Demo.probes Demo.ufds
                (Demo.app_over (Demo.mkDirectory true [Demo.whistlelog_entry]))
                Demo.whistlelog_dn) as H.
  cbv zeta in H. destruct H as (_ & _ & _ & H).
  change ((@modelGet Demo.probes Demo.ufds
             (logto LInfo "modelDelete"
                (Demo.app_over (Demo.mkDirectory true [Demo.whistlelog_entry])))
             Demo.whistlelog_dn true).2)
    with (@Done (@Item Demo.probes) Demo.whistlelog_probe) in H.
  destruct H as (Hcalls & _ & H).
  change ((@ufdsDelete _ Demo.ufds
             (ufds (Demo.app_over (Demo.mkDirectory true [Demo.whistlelog_entry])))
             Demo.whistlelog_dn).1)
    with (@None jserr) in H.
  destruct H as (Hres & _ & Hcache).
  split; [exact Hres|]. split; [exact Hcalls|exact Hcache].
Defined.

(** C9, an instance: deleting a probe the directory does not hold sends one
    search and no delete, and leaves the cache empty. *)
Example delete_of_missing_probe :
  let r := @modelDelete Demo.probes Demo.ufds
             (Demo.app_over (Demo.mkDirectory true []))
             (Probes.Probe_dn Demo.bob "whistle" "whistlelog") in
  r.2 = Some (JsErr ResourceNotFoundError "not found") ∧
  cache r.1 = ∅ ∧
  calls r.1 = [DSearch (Probes.Probe_dn Demo.bob "whistle" "whistlelog")
                       (mkOpts None "base")].
Proof. repeat split; reflexivity. Qed.

End ModelFacts.

(* ===================================================================== *)
(** ** Properties of the account cache and of the dispatcher *)
(* ===================================================================== *)

Module AppFacts.

Import MasterApp.

Section AppFacts.
Context {C : Collaborators}.

(** An error [accountFromLogin] hands back is in the account cache
    afterwards. *)
Lemma accountFromLogin_error_cached accountCache login r e :
  accountFromLogin accountCache login = Ok r →
  r.2.1 = Some e →
  ∃ a, r.1 !! login = Some (mkCached (Some e) a).
Proof.
  unfold accountFromLogin.
  destruct (negb (truthy_string login)); [done|].
  destruct (negb (VALID_LOGIN_CHARS_test login)); [done|].
  destruct (accountCache !! login) as [[cerr cacct]|] eqn:Hhit.
  - simpl. destruct cerr as [e'|]; intros [= <-]; simpl; [|done].
    intros [= <-]. eauto.
  - unfold account_cacheAndCallback.
    destruct (run_finish _) as [status|err].
    + destruct (negb (status =? 0)%Z).
      * intros [= <-]. simpl. intros [= <-]. eexists. apply lookup_insert_eq.
      * destruct (run_entries _) as [|a [|]]; intros [= <-]; simpl; try done;
          intros [= <-]; eexists; apply lookup_insert_eq.
    + intros [= <-]. simpl. intros [= <-]. eexists. apply lookup_insert_eq.
Qed.

(** *** The dispatcher *)

(** No contact among [names] that is found has, for its medium, a name of
    [Object_prototype] for which no plugin is loaded. *)
Definition no_inherited_medium (userUuid : string) (names : list string) : Prop :=
  ∀ name contact,
    name ∈ names → Contact_get name userUuid = Done contact →
    notificationPlugins (medium contact) = None →
    medium contact ∉ Object_prototype.

(** The warning [getAndNotifyContact] writes for a contact that could not be
    got, for one whose medium has no plugin, and for one whose plugin
    reported an error. *)
Definition warned (event : Event) (userUuid name : string) (line : logline) : Prop :=
  (∃ err, Contact_get name userUuid = Failed err ∧
          line = LogLine LWarn ("could not get contact '" +:+ name +:+ "' (user '"
                                +:+ userUuid +:+ "'): " +:+ message err)) ∨
  (∃ contact, Contact_get name userUuid = Done contact ∧
              notificationPlugins (medium contact) = None ∧
              line = LogLine LWarn
                       "could not notify contact: notification plugin '%s' not found") ∨
  (∃ contact notify e,
      Contact_get name userUuid = Done contact ∧
      notificationPlugins (medium contact) = Some notify ∧
      notify (probe_name (event_probe event)) (data contact) "XXX message" = Some e ∧
      line = LogLine LWarn ("could not notify contact: " +:+ message e)).

(** After [k] of [n] items are done, without error, [cb] has been called
    once if that was the last item and not at all otherwise. *)
Lemma asyncForEach_counts (n k : nat) :
  (k ≤ n)%nat →
  Nat.iter k (asyncForEach_done None) (asyncForEach_start n)
  = mkAfe (Z.of_nat n - Z.of_nat k) None
          (if (Z.of_nat n - Z.of_nat k =? 0)%Z then [None] else []).
Proof.
  induction k as [|k IH]; intros Hk.
  - unfold asyncForEach_start. simpl. rewrite Z.sub_0_r.
    destruct n; [done|]. by destruct (Z.eqb_spec (Z.of_nat (S n)) 0); [lia|].
  - rewrite Nat.iter_succ, IH by lia. unfold asyncForEach_done. cbn.
    destruct (Z.eqb_spec (Z.of_nat n - Z.of_nat k) 0) as [|_]; [lia|].
    replace (Z.of_nat n - Z.of_nat k - 1)%Z with (Z.of_nat n - Z.of_nat (S k))%Z by lia.
    done.
Qed.

(** One contact, when its medium is no inherited name: no exception, the loop
    is told, what was notified and logged stays, a contact with a plugin is
    notified and each kind of failure is logged. *)
Lemma getAndNotifyContact_spec event userUuid n st :
  crashed st = None → no_inherited_medium userUuid [n] →
  crashed (getAndNotifyContact event userUuid n st) = None ∧
  loop (getAndNotifyContact event userUuid n st) = asyncForEach_done None (loop st) ∧
  (∀ x, x ∈ notified st → x ∈ notified (getAndNotifyContact event userUuid n st)) ∧
  (∀ l, l ∈ dispatch_log st → l ∈ dispatch_log (getAndNotifyContact event userUuid n st)) ∧
  (∀ contact notify,
     Contact_get n userUuid = Done contact →
     notificationPlugins (medium contact) = Some notify →
     mkNotify (medium contact) (probe_name (event_probe event)) (data contact)
              "XXX message"
     ∈ notified (getAndNotifyContact event userUuid n st)) ∧
  (∀ line, warned event userUuid n line →
           line ∈ dispatch_log (getAndNotifyContact event userUuid n st)).
Proof.
  intros Hst Hsound. unfold getAndNotifyContact, warned. rewrite Hst.
  destruct (Contact_get n userUuid) as [contact|err] eqn:Hget.
  - unfold notifyContact.
    destruct (notificationPlugins (medium contact)) as [notify|] eqn:Hplugin.
    + cbn [crashed loop notified dispatch_log]. repeat split; try done.
      * intros x Hx. apply elem_of_app. by left.
      * intros l Hl. destruct (notify _ _ _); rewrite !elem_of_app; eauto.
      * intros c f Hc _. injection Hc as <-.
        apply elem_of_app. right. apply list_elem_of_here.
      * intros line [(e & He & _)|[(c & Hc & Hp & _)|(c & f & e & Hc & Hp & He & ->)]].
        -- congruence.
        -- injection Hc as <-. congruence.
        -- injection Hc as <-. rewrite Hplugin in Hp. injection Hp as <-.
           rewrite He, elem_of_app. right. apply list_elem_of_here.
    + rewrite bool_decide_eq_false_2
        by (apply (Hsound n contact); [apply list_elem_of_here|done..]).
      cbn [crashed loop notified dispatch_log]. repeat split; try done.
      * intros x Hx. by rewrite app_nil_r.
      * intros l Hl. rewrite !elem_of_app. eauto.
      * intros c f Hc Hp. injection Hc as <-. congruence.
      * intros line [(e & He & _)|[(c & Hc & Hp & ->)|(c & f & e & Hc & Hp & _)]].
        -- congruence.
        -- rewrite elem_of_app. right. apply list_elem_of_here.
        -- injection Hc as <-. congruence.
  - cbn [crashed loop notified dispatch_log]. repeat split; try done.
    + intros l Hl. rewrite !elem_of_app. eauto.
    + intros line [(e & He & ->)|[(c & Hc & _)|(c & f & e & Hc & _)]]; try congruence.
      injection He as <-. rewrite elem_of_app. right. apply list_elem_of_here.
Qed.

Lemma no_inherited_medium_cons userUuid n order :
  no_inherited_medium userUuid (n :: order) →
  no_inherited_medium userUuid [n] ∧ no_inherited_medium userUuid order.
Proof.
  intros H. split; intros name contact Hin; apply H.
  - apply list_elem_of_singleton in Hin as ->. apply list_elem_of_here.
  - by apply list_elem_of_further.
Qed.

(** The same for the contacts of a dispatch, in the order in which they are
    completed. *)
Lemma dispatch_spec event userUuid order st :
  crashed st = None → no_inherited_medium userUuid order →
  let st' := fold_left (λ st n, getAndNotifyContact event userUuid n st) order st in
  crashed st' = None ∧
  loop st' = Nat.iter (length order) (asyncForEach_done None) (loop st) ∧
  (∀ x, x ∈ notified st → x ∈ notified st') ∧
  (∀ l, l ∈ dispatch_log st → l ∈ dispatch_log st') ∧
  (∀ n contact notify,
     n ∈ order → Contact_get n userUuid = Done contact →
     notificationPlugins (medium contact) = Some notify →
     mkNotify (medium contact) (probe_name (event_probe event)) (data contact)
              "XXX message" ∈ notified st') ∧
  (∀ n line, n ∈ order → warned event userUuid n line → line ∈ dispatch_log st').
Proof.
  revert st. induction order as [|n order IH]; intros st Hst Hsound; cbn zeta.
  - cbn [fold_left length Nat.iter]. repeat split; try done.
    + by intros n c f ?%elem_of_nil.
    + by intros n line ?%elem_of_nil.
  - apply no_inherited_medium_cons in Hsound as [Hn Hrest].
    destruct (getAndNotifyContact_spec event userUuid n st Hst Hn)
      as (Hc1 & Hl1 & Hn1 & Hd1 & Hv1 & Hw1).
    destruct (IH _ Hc1 Hrest) as (Hc2 & Hl2 & Hn2 & Hd2 & Hv2 & Hw2).
    cbn [fold_left length]. repeat split.
    + done.
    + rewrite Hl2, Hl1. by rewrite Nat.iter_succ_r.
    + intros x Hx. by apply Hn2, Hn1.
    + intros l Hl. by apply Hd2, Hd1.
    + intros m c f [->|Hin]%elem_of_cons Hget Hplugin.
      * apply Hn2. by apply (Hv1 c f).
      * by apply (Hv2 m c f).
    + intros m line [->|Hin]%elem_of_cons Hline.
      * by apply Hd2, Hw1.
      * by apply (Hw2 m).
Qed.

(** Take an event whose monitor is found, its contacts completing in any
    order, none of them with an inherited name for its medium.
    [processEvent] calls its callback once, without an error, and throws
    nothing, whatever the lookups of the contacts and the plugins hand back.
    Every contact of the monitor that is found and whose medium has a plugin
    gets its [notify] call, whichever other contacts are not found or have
    no plugin.  Every contact that could not be got, has no plugin or could
    not be notified leaves its warning in the log. *)
Lemma dispatch_without_inherited_medium event order monitor :
  Monitor_get (probe_monitor (event_probe event)) (probe_user (event_probe event))
    = Done monitor →
  order ≡ₚ contacts monitor →
  no_inherited_medium (probe_user (event_probe event)) (contacts monitor) →
  callbacks (processEvent event order) = [None] ∧
  thrown (processEvent event order) = None ∧
  (∀ name contact notify,
     name ∈ contacts monitor →
     Contact_get name (probe_user (event_probe event)) = Done contact →
     notificationPlugins (medium contact) = Some notify →
     mkNotify (medium contact) (probe_name (event_probe event)) (data contact)
              "XXX message"
     ∈ sent (processEvent event order)) ∧
  (∀ name line,
     name ∈ contacts monitor →
     warned event (probe_user (event_probe event)) name line →
     line ∈ logged (processEvent event order)).
Proof.
  intros Hmon Hperm Hsound.
  assert (no_inherited_medium (probe_user (event_probe event)) order) as Hsound'.
  { intros name contact Hin. apply Hsound. by rewrite <- Hperm. }
  unfold processEvent. rewrite Hmon. cbn [sent callbacks logged thrown].
  destruct (dispatch_spec event (probe_user (event_probe event)) order
              (mkDispatch [] [LogLine LDebug "App.processEvent"]
                 (asyncForEach_start (length (contacts monitor))) None)
              eq_refl Hsound') as (Hc & Hl & _ & _ & Hv & Hw).
  cbv zeta in Hc, Hl, Hv, Hw. repeat split.
  - rewrite Hl. cbn [loop]. rewrite <- (Permutation_length Hperm).
    rewrite asyncForEach_counts by done. cbn. by rewrite Z.sub_diag.
  - done.
  - intros name contact notify Hin. apply Hv. by rewrite Hperm.
  - intros name line Hin. apply Hw. by rewrite Hperm.
Qed.

End AppFacts.


(** C4.  A contact whose medium is "constructor", a name for which no plugin
    is loaded, ends the dispatch with a TypeError: in whichever order the two
    contacts of the monitor are completed, [processEvent] never calls its
    callback, and the contact that can be mailed is not notified when it is
    completed second.  With no such medium among the contacts, for every
    installation, event, monitor and order of completion, [processEvent]
    calls its callback once, without an error, every contact that is found
    and has a plugin is notified, and each contact that could not be got,
    has no plugin or could not be notified leaves its warning in the log. *)
Theorem inherited_medium_ends_the_dispatch :
  (let r := @processEvent Fixtures.odd_collaborators Demo.whistle_event ["email"; "odd"] in
   callbacks r = [] ∧
   thrown r = Some (JsErr TypeError "plugin.notify is not a function") ∧
   sent r = [mkNotify "email" "whistlelog" "bob@example.com" "XXX message"]) ∧
  (let r := @processEvent Fixtures.odd_collaborators Demo.whistle_event ["odd"; "email"] in
   callbacks r = [] ∧
   thrown r = Some (JsErr TypeError "plugin.notify is not a function") ∧
   sent r = []) ∧
  (∀ (C : Collaborators) event order monitor,
     let userUuid := probe_user (event_probe event) in
     Monitor_get (probe_monitor (event_probe event)) userUuid = Done monitor →
     order ≡ₚ contacts monitor →
     (∀ name contact,
        name ∈ contacts monitor → Contact_get name userUuid = Done contact →
        notificationPlugins (medium contact) = None →
        medium contact ∉ Object_prototype) →
     callbacks (processEvent event order) = [None] ∧
     thrown (processEvent event order) = None ∧
     (∀ name contact notify,
        name ∈ contacts monitor → Contact_get name userUuid = Done contact →
        notificationPlugins (medium contact) = Some notify →
        mkNotify (medium contact) (probe_name (event_probe event)) (data contact)
                 "XXX message"
        ∈ sent (processEvent event order)) ∧
     (∀ name err,
        name ∈ contacts monitor → Contact_get name userUuid = Failed err →
        LogLine LWarn ("could not get contact '" +:+ name +:+ "' (user '"
                       +:+ userUuid +:+ "'): " +:+ message err)
        ∈ logged (processEvent event order)) ∧
     (∀ name contact,
        name ∈ contacts monitor → Contact_get name userUuid = Done contact →
        notificationPlugins (medium contact) = None →
        LogLine LWarn "could not notify contact: notification plugin '%s' not found"
        ∈ logged (processEvent event order)) ∧
     (∀ name contact notify e,
        name ∈ contacts monitor → Contact_get name userUuid = Done contact →
        notificationPlugins (medium contact) = Some notify →
        notify (probe_name (event_probe event)) (data contact) "XXX message" = Some e →
        LogLine LWarn ("could not notify contact: " +:+ message e)
        ∈ logged (processEvent event order))).
Proof.
  split; [by vm_compute|]. split; [by vm_compute|].
  intros C event order monitor userUuid Hmon Hperm Hsound.
  destruct (dispatch_without_inherited_medium event order monitor Hmon Hperm Hsound)
    as (Hcb & Hthrown & Hsent & Hlogged).
  repeat split; try done.
  - intros name err Hin Hget. apply (Hlogged name); [done|]. left. eauto.
  - intros name contact Hin Hget Hplugin. apply (Hlogged name); [done|].
    right. left. eauto.
  - intros name contact notify e Hin Hget Hplugin He. apply (Hlogged name); [done|].
    right. right. eauto 10.
Qed.



End AppFacts.

(* ===================================================================== *)
(** ** Properties of the relay's endpoints *)
(* ===================================================================== *)

Module RelayFacts.

Import Relay.

Section RelayFacts.
Context {N : Node}.

(** The two files of the target of a request. *)
Definition md5Path (req : Request) : string :=
  path_resolve (_dataDir req)
    (_targetType req +:+ "-" +:+ _targetUuid req +:+ ".json.content-md5").

Definition jsonPath (req : Request) : string :=
  path_resolve (_dataDir req) (_targetType req +:+ "-" +:+ _targetUuid req +:+ ".json").

(** C8 (amended).  HEAD /agentprobes answers 500 InternalError whenever the
    content-md5 file cannot be read, also when it is absent, and 200 with the
    stored Content-MD5 when it can.  GET /agentprobes answers 200 with an
    empty array when the manifest file is absent, and 200 with the stored
    JSON body when it is there. *)
Theorem agentprobes_from_disk (req : Request) :
  (∀ c, fs_readFile (md5Path req) = ReadError c →
        headAgentProbes req = mkResponse 500 [] (RestErrorBody "InternalError")) ∧
  (∀ md5, fs_readFile (md5Path req) = ReadData md5 →
          headAgentProbes req = mkResponse 200 [("Content-MD5", md5)] (Text "")) ∧
  (fs_readFile (jsonPath req) = ReadError "ENOENT" →
   listAgentProbes req = Ok (mkResponse 200 [] (Json (JArr [])))) ∧
  (∀ text v, fs_readFile (jsonPath req) = ReadData text →
             JSON_parse text = Parsed v →
             listAgentProbes req = Ok (mkResponse 200 [] (Json v))).
Proof.
  unfold headAgentProbes, listAgentProbes, md5Path, jsonPath.
  repeat split.
  - by intros c ->.
  - by intros md5 ->.
  - by intros ->.
  - by intros text v -> ->.
Qed.

End RelayFacts.

(** C8, counterexample.  A target whose files are not on disk: HEAD answers
    500. *)
Lemma head_without_manifest :
  @fs_readFile Demo.node (@md5Path Demo.node Demo.new_zone_request) = ReadError "ENOENT" ∧
  @headAgentProbes Demo.node Demo.new_zone_request
  = mkResponse 500 [] (RestErrorBody "InternalError").
Proof. by vm_compute. Qed.

(** C8, witness: a target whose files are on disk. *)
Lemma manifest_on_disk_is_served :
  @headAgentProbes Demo.node Demo.zone_request
    = mkResponse 200 [("Content-MD5", "11FxOYiYfpMxmANj4kGJzg==")] (Text "") ∧
  @listAgentProbes Demo.node Demo.zone_request
    = Ok (mkResponse 200 [] (Json (JArr []))).
Proof.
  destruct (@agentprobes_from_disk Demo.node Demo.zone_request)
    as (_ & Hhead & _ & Hget).
  split.
  - apply Hhead. reflexivity.
  - apply (Hget "[]"); reflexivity.
Defined.

(** C8, an instance: the same target on GET, and a target whose files are
    there. *)
Example agentprobes_of_demo :
  @listAgentProbes Demo.node Demo.new_zone_request
    = Ok (mkResponse 200 [] (Json (JArr []))) ∧
  @headAgentProbes Demo.node Demo.zone_request
    = mkResponse 200 [("Content-MD5", "11FxOYiYfpMxmANj4kGJzg==")] (Text "") ∧
  @listAgentProbes Demo.node Demo.zone_request
    = Ok (mkResponse 200 [] (Json (JArr []))).
Proof. by vm_compute. Qed.

End RelayFacts.

(* ===================================================================== *)
(** ** What the read paths write to their caches *)
(* ===================================================================== *)

Module CacheFacts.

Import UfdsModel MasterApp ModelFacts AppFacts.

Section Caches.
Context {M : Model} {D : Directory Data} {C : Collaborators}.

(** C5 (amended).  An error that [modelGet] (with the cache in use) or
    [modelList] hands back is in the cache afterwards, as the error of the
    entry of that DN, with two exceptions: an error of the directory whose
    httpCode is 503, and, for [modelGet], the InternalError raised for an
    entry that does not construct or for a search that finds another number
    of entries than one.  A 503 from the directory is handed back by the
    search without any write to the cache, and neither function ever leaves
    an error with httpCode 503 in a cache that held none.  An error that
    [accountFromLogin] hands back, other than one with httpCode 503, is in
    the account cache afterwards. *)
Theorem errors_cached_except_503 :
  (∀ app dn e,
     (modelGet app dn false).2 = Failed e →
     (∃ v, cache (modelGet app dn false).1 !! (Model_name +:+ "Get", dn) = Some v ∧
           c_err v = Some e) ∨
     httpCode_is 503 e = true ∨
     e = JsErr InternalError "invalid entry" ∨
     e = JsErr InternalError "conflicting entries") ∧
  (∀ app parentDn e,
     (modelList app parentDn).2 = Failed e →
     (∃ v, cache (modelList app parentDn).1 !! (Model_name +:+ "List", parentDn) = Some v ∧
           c_err v = Some e) ∨
     httpCode_is 503 e = true) ∧
  (∀ app skipCache scope dn err,
     ufdsSearch (ufds app) dn (mkOpts None "base") = Failed err →
     httpCode_is 503 err = true →
     modelGet_search app skipCache scope dn
     = (called (DSearch dn (mkOpts None "base")) app, Failed err)) ∧
  (∀ app scope key parentDn err,
     (modelList_search app scope key parentDn).2 = Failed err →
     httpCode_is 503 err = true →
     cache (modelList_search app scope key parentDn).1 = cache app) ∧
  (∀ app dn skipCache,
     no_503_cached (cache app) →
     no_503_cached (cache (modelGet app dn skipCache).1)) ∧
  (∀ app parentDn,
     no_503_cached (cache app) →
     no_503_cached (cache (modelList app parentDn).1)) ∧
  (∀ accountCache login r e,
     accountFromLogin accountCache login = Ok r →
     r.2.1 = Some e →
     httpCode_is 503 e = false →
     ∃ a, r.1 !! login = Some (mkCached (Some e) a)).
Proof.
  repeat split.
  - apply modelGet_error_cached.
  - apply modelList_error_cached.
  - intros app skipCache scope dn err Hsearch H503.
    unfold modelGet_search. cbn [ufds called]. by rewrite Hsearch, H503.
  - intros app scope key parentDn err Herr H503.
    destruct (modelList_search_spec app scope key parentDn) as (_ & H).
    rewrite Herr in H. destruct H as [(Hno & _)|(_ & H)]; [congruence|done].
  - apply modelGet_keeps_no_503.
  - apply modelList_keeps_no_503.
  - intros accountCache login r e Hr He _.
    by apply (accountFromLogin_error_cached accountCache).
Qed.

End Caches.

(** C5, counterexample.  The directory holds a probe that lost its type:
    [modelGet] hands back InternalError, a 500, and the cache stays empty. *)
Lemma invalid_entry_is_not_cached :
  (@modelGet Demo.probes Demo.ufds
     (Demo.app_over (Demo.mkDirectory true [Demo.corrupt_entry]))
     (Probes.Probe_dn Demo.bob "whistle" "broken") false).2
  = Failed (JsErr InternalError "invalid entry") ∧
  cache (@modelGet Demo.probes Demo.ufds
           (Demo.app_over (Demo.mkDirectory true [Demo.corrupt_entry]))
           (Probes.Probe_dn Demo.bob "whistle" "broken") false).1
  = ∅ ∧
  httpCode (JsErr InternalError "invalid entry") = Some 500%Z.
Proof. repeat split; reflexivity. Qed.

(** C5, witness: a probe the directory does not hold is cached as not
    found. *)
Lemma missing_probe_is_a_negative_entry :
  ∃ v, cache (@modelGet Demo.probes Demo.ufds (Demo.app_over (Demo.mkDirectory true []))
                Demo.whistlelog_dn false).1
       !! ("ProbeGet", Demo.whistlelog_dn) = Some v ∧
       c_err v = Some (JsErr ResourceNotFoundError "not found").
Proof.
  destruct (@errors_cached_except_503 Demo.probes Demo.ufds Demo.collaborators)
    as (Hget & _).
  destruct (Hget (Demo.app_over (Demo.mkDirectory true [])) Demo.whistlelog_dn
              (JsErr ResourceNotFoundError "not found")) as [H|[H|[H|H]]].
  - reflexivity.
  - exact H.
  - discriminate H.
  - discriminate H.
  - discriminate H.
Defined.

(** C5, instances: the entry that is written for a probe the directory does
    not hold; a directory that cannot be reached leaves the cache empty. *)
Example missing_probe_is_cached :
  cache (@modelGet Demo.probes Demo.ufds (Demo.app_over (Demo.mkDirectory true []))
           (Probes.Probe_dn Demo.bob "whistle" "whistlelog") false).1
  !! ("ProbeGet", Probes.Probe_dn Demo.bob "whistle" "whistlelog")
  = Some (mkEntry (Some (JsErr ResourceNotFoundError "not found")) CUndefined).
Proof. reflexivity. Qed.

Example unreachable_directory_is_not_cached :
  @modelGet Demo.probes Demo.ufds (Demo.app_over (Demo.mkDirectory false []))
    (Probes.Probe_dn Demo.bob "whistle" "whistlelog") false
  = (called (DSearch (Probes.Probe_dn Demo.bob "whistle" "whistlelog") (mkOpts None "base"))
       (logto LInfo "modelGet" (Demo.app_over (Demo.mkDirectory false []))),
     Failed Demo.unavailable).
Proof. reflexivity. Qed.

(** [accountFromLogin] makes no difference between errors: the error of a
    search that ends in an ['error'] event is put in the account cache
    whatever its httpCode, and a second call is answered from the cache. *)
Example account_error_is_cached_whatever_its_code :
  ∃ c, @accountFromLogin Demo.collaborators ∅ "nobody.home"
       = Ok (c, (Some Demo.unavailable, None)) ∧
       c !! "nobody.home" = Some (mkCached (Some Demo.unavailable) None) ∧
       @accountFromLogin Demo.collaborators c "nobody.home"
       = Ok (c, (Some Demo.unavailable, None)).
Proof. eexists. repeat split; reflexivity. Qed.

End CacheFacts.

(* ===================================================================== *)
(** ** Properties of the probes that validate *)
(* ===================================================================== *)

Module ProbeShape.

Import Probes ProbeFacts.

(** *** What the two patterns accept *)

Lemma take_class_split f n s r :
  take_class f n s = Some r →
  ∃ p, s = p +:+ r ∧ String.length p = n ∧ all_chars f p = true.
Proof.
  revert s. induction n as [|n IH]; intros s; simpl.
  - intros [= ->]. by exists "".
  - destruct s as [|c s]; [done|]. destruct (f c) eqn:Hc; [|done].
    intros (p & -> & <- & Hp)%IH. exists (String c p). simpl. by rewrite Hc.
Qed.

Lemma take_dash_split s r : take_dash s = Some r → s = "-" +:+ r.
Proof.
  destruct s as [|c s]; [done|]. simpl.
  destruct (Ascii.eqb_spec c "-"%char) as [->|]; [|done]. by intros [= ->].
Qed.

(** A string of the shape 8-4-4-4-12, in lower-case hexadecimal digits. *)
Definition uuid_shaped (t : string) : Prop :=
  ∃ a b c d e,
    t = a +:+ "-" +:+ b +:+ "-" +:+ c +:+ "-" +:+ d +:+ "-" +:+ e ∧
    String.length a = 8%nat ∧ String.length b = 4%nat ∧ String.length c = 4%nat ∧
    String.length d = 4%nat ∧ String.length e = 12%nat ∧
    all_chars is_hex (a +:+ b +:+ c +:+ d +:+ e) = true.

Lemma all_chars_app f a b :
  all_chars f (a +:+ b) = all_chars f a && all_chars f b.
Proof.
  induction a as [|c a IH]; [done|].
  change (String c a +:+ b) with (String c (a +:+ b)). simpl.
  by rewrite IH, andb_assoc.
Qed.

Lemma length_app (a b : string) :
  String.length (a +:+ b) = (String.length a + String.length b)%nat.
Proof.
  induction a as [|c a IH]; [done|].
  change (String c a +:+ b) with (String c (a +:+ b)). simpl. by rewrite IH.
Qed.

Lemma append_empty (a : string) : a +:+ "" = a.
Proof.
  induction a as [|c a IH]; [done|].
  change (String c a +:+ "") with (String c (a +:+ "")). by rewrite IH.
Qed.

Lemma UUID_RE_shape t : UUID_RE_test t = true → uuid_shaped t.
Proof.
  unfold UUID_RE_test.
  destruct (take_class is_hex 8 t) as [s1|] eqn:E1; [|done]. cbn [mbind option_bind].
  destruct (take_dash s1) as [s2|] eqn:E2; [|done]. cbn [mbind option_bind].
  destruct (take_class is_hex 4 s2) as [s3|] eqn:E3; [|done]. cbn [mbind option_bind].
  destruct (take_dash s3) as [s4|] eqn:E4; [|done]. cbn [mbind option_bind].
  destruct (take_class is_hex 4 s4) as [s5|] eqn:E5; [|done]. cbn [mbind option_bind].
  destruct (take_dash s5) as [s6|] eqn:E6; [|done]. cbn [mbind option_bind].
  destruct (take_class is_hex 4 s6) as [s7|] eqn:E7; [|done]. cbn [mbind option_bind].
  destruct (take_dash s7) as [s8|] eqn:E8; [|done]. cbn [mbind option_bind].
  destruct (take_class is_hex 12 s8) as [[|]|] eqn:E9; [|done..]. intros _.
  apply take_class_split in E1 as (a & -> & La & Ha).
  apply take_dash_split in E2 as ->.
  apply take_class_split in E3 as (b & -> & Lb & Hb).
  apply take_dash_split in E4 as ->.
  apply take_class_split in E5 as (c & -> & Lc & Hc).
  apply take_dash_split in E6 as ->.
  apply take_class_split in E7 as (d & -> & Ld & Hd).
  apply take_dash_split in E8 as ->.
  apply take_class_split in E9 as (e & -> & Le & He).
  exists a, b, c, d, e. split.
  { by rewrite append_empty. }
  repeat split; try done.
  rewrite !all_chars_app, Ha, Hb, Hc, Hd, He. done.
Qed.

Lemma take_class_app f n p r :
  String.length p = n → all_chars f p = true → take_class f n (p +:+ r) = Some r.
Proof.
  revert n. induction p as [|c p IH]; intros n <-; [done|].
  change (String c p +:+ r) with (String c (p +:+ r)). simpl.
  intros [-> Hp]%andb_true_iff. by apply IH.
Qed.

Lemma take_dash_app r : take_dash ("-" +:+ r) = Some r.
Proof. done. Qed.

Lemma UUID_RE_exact t : UUID_RE_test t = true ↔ uuid_shaped t.
Proof.
  split; [apply UUID_RE_shape|].
  intros (a & b & c & d & e & -> & La & Lb & Lc & Ld & Le & H).
  rewrite !all_chars_app, !andb_true_iff in H.
  destruct H as (Ha & Hb & Hc & Hd & He).
  unfold UUID_RE_test.
  rewrite (take_class_app _ _ a) by done. cbn [mbind option_bind].
  rewrite take_dash_app. cbn [mbind option_bind].
  rewrite (take_class_app _ _ b) by done. cbn [mbind option_bind].
  rewrite take_dash_app. cbn [mbind option_bind].
  rewrite (take_class_app _ _ c) by done. cbn [mbind option_bind].
  rewrite take_dash_app. cbn [mbind option_bind].
  rewrite (take_class_app _ _ d) by done. cbn [mbind option_bind].
  rewrite take_dash_app. cbn [mbind option_bind].
  rewrite <- (append_empty e) at 1. by rewrite (take_class_app _ _ e).
Qed.

Lemma uuid_shaped_length t : uuid_shaped t → String.length t = 36%nat.
Proof.
  intros (a & b & c & d & e & -> & La & Lb & Lc & Ld & Le & _).
  rewrite !length_app, La, Lb, Lc, Ld, Le. done.
Qed.

(** The characters with a meaning in a distinguished name: the separators
    of RDNs and of attribute and value, the quoting and escape characters,
    and the space. *)
Definition dn_special (c : ascii) : bool :=
  bool_decide (c ∈ [","; "="; "+"; "<"; ">"; "#"; ";"; "092"; "034"; " "]%char).

Lemma name_char_plain c : is_name_char c = true → dn_special c = false.
Proof. destruct c as [[] [] [] [] [] [] [] []]; by vm_compute. Qed.

Lemma all_chars_impl (f g : ascii → bool) s :
  (∀ c, f c = true → g c = true) → all_chars f s = true → all_chars g s = true.
Proof.
  intros Hfg. induction s as [|c s IH]; [done|]. simpl.
  intros [Hc Hs]%andb_true_iff. by rewrite (Hfg c Hc), IH.
Qed.

Section Shape.
Context {PF : Platform}.

Lemma new_Probe_name data p :
  new_Probe data = Ok p →
  nameRegex_test (String_of (raw_amonprobe (raw_of data))) = true.
Proof.
  assert (∀ o, is_Ok (validateName o) = true → nameRegex_test (String_of o) = true) as Hn.
  { intros o. unfold validateName. by destruct (nameRegex_test _). }
  destruct data as [e|d]; simpl.
  - destruct (truthy_string _); [|done]. unfold construct_ufds.
    destruct (negb _); [done|]. intros H.
    apply bind_Ok in H as (parts & _ & H).
    apply bind_Ok in H as ([] & Hv & _). apply Hn. simpl in Hv. by rewrite Hv.
  - unfold construct_public.
    repeat (destruct (negb _); [done|]). intros H.
    apply bind_Ok in H as ([] & Hv & _). apply Hn. simpl in Hv. by rewrite Hv.
Qed.

(** X1.  A probe that validates targets a machine or a server whose
    identifier is a UUID in lower case: 36 characters, five groups of 8, 4,
    4, 4 and 12 hexadecimal digits joined by dashes. *)
Theorem valid_probe_targets_a_uuid (data : ProbeData) (p : Probe) :
  new_Probe data = Ok p →
  ∃ t, uuid_shaped t ∧ String.length t = 36%nat ∧
       ((machine p = Some t ∧ truthyS (server p) = false) ∨
        (server p = Some t ∧ truthyS (machine p) = false)).
Proof.
  intros Hp. apply new_Probe_Ok in Hp.
  pose proof (getters_of_validate _ _ Hp) as (_ & _ & _ & Hm & Hs).
  apply validate_Ok in Hp as (_ & _ & Ht & _).
  unfold machine, server. rewrite Hm, Hs. clear Hm Hs.
  unfold validateTarget in Ht.
  destruct (raw_machine (raw_of data)) as [m|] eqn:Em;
    destruct (raw_server (raw_of data)) as [s|] eqn:Es; simpl in Ht.
  - destruct (truthy_string m) eqn:Tm, (truthy_string s) eqn:Ts; simpl in Ht; try done.
    + destruct (UUID_RE_test m) eqn:U; [|done]. apply UUID_RE_shape in U.
      exists m. split; [done|]. split; [by apply uuid_shaped_length|]. left. simpl. by rewrite ?Ts.
    + destruct (UUID_RE_test s) eqn:U; [|done]. apply UUID_RE_shape in U.
      exists s. split; [done|]. split; [by apply uuid_shaped_length|]. right. simpl. by rewrite ?Tm.
  - destruct (truthy_string m) eqn:Tm; simpl in Ht; [|done].
    destruct (UUID_RE_test m) eqn:U; [|done]. apply UUID_RE_shape in U.
    exists m. split; [done|]. split; [by apply uuid_shaped_length|]. by left.
  - destruct (truthy_string s) eqn:Ts; simpl in Ht; [|done].
    destruct (UUID_RE_test s) eqn:U; [|done]. apply UUID_RE_shape in U.
    exists s. split; [done|]. split; [by apply uuid_shaped_length|]. by right.
  - done.
Qed.

(** X2.  A probe that validates has a name: a letter followed by at most 31
    letters, digits, underscores, dots and dashes.  So no character of the
    name has a meaning of its own in the DN that [Probe.dn] formats the name
    into. *)
Theorem valid_probe_is_named (data : ProbeData) (p : Probe) :
  new_Probe data = Ok p →
  ∃ c rest, name p = Some (String c rest) ∧
            is_alpha c = true ∧ all_chars is_name_char rest = true ∧
            (String.length rest ≤ 31)%nat ∧
            all_chars (λ x, negb (dn_special x)) (String c rest) = true.
Proof.
  intros Hp. pose proof (new_Probe_name _ _ Hp) as Hre.
  apply new_Probe_Ok in Hp.
  pose proof (getters_of_validate _ _ Hp) as (Hn & _).
  apply validate_Ok in Hp as (Hname & _).
  unfold name. rewrite Hn.
  destruct (raw_amonprobe (raw_of data)) as [[|c rest]|]; try done.
  simpl in Hre. rewrite !andb_true_iff in Hre. destruct Hre as ((Hc & Hrest) & Hlen).
  exists c, rest. repeat split; try done.
  - by apply Nat.leb_le.
  - apply (all_chars_impl is_name_char).
    + intros x Hx. by rewrite (name_char_plain x Hx).
    + simpl. rewrite Hrest, andb_true_r. unfold is_name_char. by rewrite Hc.
Qed.

(** X3.  The config of a probe that validates is either absent or a JSON
    text that parses, to a value the plugin of the probe's type accepts; the
    [config] getter returns that value, and is never handed a text that
    [JSON.parse] refuses. *)
Theorem valid_probe_config_parses (data : ProbeData) (p : Probe) :
  new_Probe data = Ok p →
  ∃ T, plugins (String_of (type p)) = Some T ∧
       ((truthyS (raw_config (raw p)) = false ∧ config p = None) ∨
        (∃ text v, raw_config (raw p) = Some text ∧ JSON_parse text = Parsed v ∧
                   validateConfig T v = None ∧ config p = Some v)).
Proof.
  intros Hp. apply new_Probe_Ok in Hp.
  pose proof (getters_of_validate _ _ Hp) as (_ & Hty & Hc & _).
  apply validate_Ok in Hp as (_ & _ & _ & T & HT & HTc & _).
  exists T. unfold type, config. rewrite Hty, Hc. split; [done|].
  apply config_Ok in HTc as [Hno|(v & Hyes & Hparse & Hvalid)].
  - left. by rewrite Hno.
  - right. destruct (raw_config (raw_of data)) as [text|]; [|done].
    exists text, v. simpl in Hparse. rewrite Hyes. simpl. by rewrite Hparse.
Qed.

Context {MS : MasterServices}.

(** X4.  The put of a probe on a server by an account that the operator check
    reports as an operator is decided by the flag of [serverExists] alone:
    it is authorized when the flag is true and refused with InvalidArgument
    when it is false, whether or not that lookup reports an error of its
    own. *)
Theorem server_put_follows_the_flag (p : Probe) :
  truthyS (machine p) = false → truthyS (server p) = true →
  isOperator (user p) = (None, true) →
  authorizePut p =
    Ok (if (serverExists (String_of (server p))).2 then None
        else Some (InvalidArgument
               ("'server', " +:+ String_of (server p) +:+ ", is invalid: no such server"))).
Proof.
  intros Hm Hs Hop. unfold authorizePut. rewrite Hm, Hs, Hop.
  destruct (serverExists _) as [se [|]]; done.
Qed.

End Shape.

(** X1, witness.  The whistlelog probe: its machine is the zone of bob. *)
Lemma whistlelog_targets_a_uuid :
  ∃ t, uuid_shaped t ∧ String.length t = 36%nat ∧
       ((machine Demo.whistlelog_probe = Some t ∧
         truthyS (server Demo.whistlelog_probe) = false) ∨
        (server Demo.whistlelog_probe = Some t ∧
         truthyS (machine Demo.whistlelog_probe) = false)).
Proof.
  apply (@valid_probe_targets_a_uuid Demo.platform (FromPublic Demo.whistlelog)).
  by vm_compute.
Defined.

(** X2, witness.  The whistlelog probe: its name. *)
Lemma whistlelog_is_named :
  ∃ c rest, name Demo.whistlelog_probe = Some (String c rest) ∧
            is_alpha c = true ∧ all_chars is_name_char rest = true ∧
            (String.length rest ≤ 31)%nat ∧
            all_chars (λ x, negb (dn_special x)) (String c rest) = true.
Proof.
  apply (@valid_probe_is_named Demo.platform (FromPublic Demo.whistlelog)).
  by vm_compute.
Defined.

(** X3, witness.  The whistlelog probe: its config is the one that was put. *)
Lemma whistlelog_config_parses :
  ∃ T, @plugins Demo.platform (String_of (type Demo.whistlelog_probe)) = Some T ∧
       ((truthyS (raw_config (raw Demo.whistlelog_probe)) = false ∧
         @config Demo.platform Demo.whistlelog_probe = None) ∨
        (∃ text v, raw_config (raw Demo.whistlelog_probe) = Some text ∧
                   @JSON_parse Demo.platform text = Parsed v ∧
                   validateConfig T v = None ∧
                   @config Demo.platform Demo.whistlelog_probe = Some v)).
Proof.
  apply (@valid_probe_config_parses Demo.platform (FromPublic Demo.whistlelog)).
  by vm_compute.
Defined.

(** X4, witness.  Alice, an operator, puts the smartlogin probe on the headnode. *)
Lemma alice_may_put_on_the_headnode :
  @new_Probe Demo.platform (FromPublic Fixtures.smartlogin)
  = Ok Fixtures.smartlogin_probe ∧
  @authorizePut Demo.platform Demo.services Fixtures.smartlogin_probe
  = Ok (if (@serverExists Demo.services
              (String_of (server Fixtures.smartlogin_probe))).2
        then None
        else Some (InvalidArgument
               ("'server', " +:+ String_of (server Fixtures.smartlogin_probe)
                +:+ ", is invalid: no such server"))).
Proof.
  split; [by vm_compute|].
  apply (@server_put_follows_the_flag Demo.platform Demo.services); reflexivity.
Defined.

End ProbeShape.

(* ===================================================================== *)
(** ** Properties of the read paths of ufdsmodel.js *)
(* ===================================================================== *)

Module ReadFacts.

Import UfdsModel ModelFacts.

Section ReadFacts.
Context {M : Model} {D : Directory Data}.

(** Two apps that differ in their logs only. *)
Definition same_but_log (a b : App) : Prop :=
  cache a = cache b ∧ ufds a = ufds b ∧ calls a = calls b.

Lemma same_but_log_logto lvl txt a : same_but_log (logto lvl txt a) a.
Proof. done. Qed.

Lemma modelGet_search_log a b skipCache scope dn :
  same_but_log a b →
  (modelGet_search a skipCache scope dn).2 = (modelGet_search b skipCache scope dn).2 ∧
  same_but_log (modelGet_search a skipCache scope dn).1
               (modelGet_search b skipCache scope dn).1.
Proof.
  intros (Hc & Hu & Hcalls). unfold modelGet_search, same_but_log. cbn [ufds called].
  rewrite Hu. destruct (ufdsSearch (ufds b) dn _) as [entries|err].
  - destruct entries as [|entry [|]]; cbn; rewrite ?Hc, ?Hu, ?Hcalls; try done.
    destruct (new_Model entry); cbn; rewrite ?Hc, ?Hu, ?Hcalls; [|done].
    destruct skipCache; cbn; rewrite ?Hc, ?Hu, ?Hcalls; done.
  - destruct (httpCode_is 503 err); cbn; rewrite ?Hc, ?Hu, ?Hcalls; [done|].
    destruct (is_NoSuchObjectError err); destruct skipCache; cbn;
      rewrite ?Hc, ?Hu, ?Hcalls; done.
Qed.

Lemma modelList_search_log a b scope key parentDn :
  same_but_log a b →
  (modelList_search a scope key parentDn).2 = (modelList_search b scope key parentDn).2 ∧
  same_but_log (modelList_search a scope key parentDn).1
               (modelList_search b scope key parentDn).1.
Proof.
  intros (Hc & Hu & Hcalls). unfold modelList_search, same_but_log.
  cbn [ufds called logto]. rewrite Hu.
  destruct (ufdsSearch (ufds b) parentDn _) as [rawItems|err].
  - destruct (construct_each rawItems) as [lines instances]. cbn.
    rewrite ?Hc, ?Hu, ?Hcalls. done.
  - destruct (httpCode_is 503 err); cbn; rewrite ?Hc, ?Hu, ?Hcalls; done.
Qed.

(** *** What the cache check answers *)

Lemma modelGet_cached_hit app scope dn d item :
  cacheGet app scope dn = Some (mkEntry None (COne d)) →
  new_Model d = Ok item →
  modelGet_cached app scope dn = Answer app (Done item).
Proof. unfold modelGet_cached. intros -> H. simpl. by rewrite H. Qed.

Lemma modelGet_cached_error app scope dn v e :
  cacheGet app scope dn = Some v → c_err v = Some e →
  modelGet_cached app scope dn = Answer app (Failed e).
Proof. unfold modelGet_cached. intros -> H. by rewrite H. Qed.

Lemma modelGet_cached_Done app scope dn app' item :
  modelGet_cached app scope dn = Answer app' (Done item) →
  app' = app ∧ ∃ d, cacheGet app scope dn = Some (mkEntry None (COne d)) ∧
                    new_Model d = Ok item.
Proof.
  unfold modelGet_cached.
  destruct (cacheGet app scope dn) as [[[e|] [|d|ds]]|]; simpl; try done.
  destruct (new_Model d) eqn:E; [|done]. intros [= <- <-]. eauto.
Qed.

Lemma modelGet_search_Done app scope dn app1 item :
  modelGet_search app false scope dn = (app1, Done item) →
  cacheGet app1 scope dn = Some (mkEntry None (COne (Model_serialize item))).
Proof.
  unfold modelGet_search. cbn [ufds called].
  destruct (ufdsSearch _ _ _) as [entries|err].
  - destruct entries as [|entry [|]]; try done.
    destruct (new_Model entry); [|done]. intros [= <- <-].
    unfold cacheGet. simpl. apply lookup_insert_eq.
  - destruct (httpCode_is 503 err); [done|]. by destruct (is_NoSuchObjectError err).
Qed.

Lemma modelGet_search_found app skipCache scope dn app1 item :
  modelGet_search app skipCache scope dn = (app1, Done item) →
  ∃ entry, ufdsSearch (ufds app) dn (mkOpts None "base") = Done [entry] ∧
           new_Model entry = Ok item.
Proof.
  unfold modelGet_search. cbn [ufds called].
  destruct (ufdsSearch _ _ _) as [entries|err].
  - destruct entries as [|entry [|]]; try done.
    destruct (new_Model entry) eqn:E; [|done]. intros [= _ <-]. eauto.
  - destruct (httpCode_is 503 err); [done|]. by destruct (is_NoSuchObjectError err).
Qed.

(** X5.  When [modelGet] (with the cache in use) has handed back an item
    whose serialization the constructor accepts, the next [modelGet] of the
    same DN is answered from the cache: it sends the directory nothing,
    leaves the cache as it is, and hands back the item the cache entry
    constructs. *)
Theorem modelGet_answers_again_from_cache app dn app1 item :
  modelGet app dn false = (app1, Done item) →
  is_Ok (new_Model (Model_serialize item)) = true →
  ∃ item', modelGet app1 dn false = (logto LInfo "modelGet" app1, Done item') ∧
           (item' = item ∨ new_Model (Model_serialize item) = Ok item').
Proof.
  unfold modelGet at 1. cbn zeta.
  destruct (modelGet_cached _ _ _) as [app' r|app'] eqn:Hc.
  - intros [= -> ->] _.
    apply modelGet_cached_Done in Hc as (-> & d & Hd & Hitem).
    exists item. split; [|by left]. unfold modelGet. cbn zeta.
    by rewrite (modelGet_cached_hit _ _ _ d item).
  - intros Hs Hok. apply modelGet_search_Done in Hs.
    destruct (new_Model (Model_serialize item)) as [item'|] eqn:E; [|done].
    exists item'. split; [|by right]. unfold modelGet. cbn zeta.
    by rewrite (modelGet_cached_hit _ _ _ (Model_serialize item) item').
Qed.

(** X6.  An error that [modelGet] (with the cache in use) has handed back,
    other than a 503 and the two internal errors raised on what a search
    found, is handed back again by the next [modelGet] of the same DN,
    without a request to the directory and without a change to the cache. *)
Theorem modelGet_error_is_replayed app dn app1 e :
  modelGet app dn false = (app1, Failed e) →
  httpCode_is 503 e = false →
  e ≠ JsErr InternalError "invalid entry" →
  e ≠ JsErr InternalError "conflicting entries" →
  modelGet app1 dn false = (logto LInfo "modelGet" app1, Failed e).
Proof.
  intros Hget H503 Hinv Hconf.
  pose proof (modelGet_error_cached app dn e) as H.
  rewrite Hget in H. simpl in H.
  destruct H as [(v & Hv & He)|[H|[H|H]]]; [done| |congruence..].
  unfold modelGet. cbn zeta.
  by rewrite (modelGet_cached_error _ _ _ v e).
Qed.

(** X7.  [modelGet] takes a search that finds no entry, or more than one, for
    an inconsistency of the directory: it hands back InternalError
    "conflicting entries", logs an error and writes nothing to the cache. *)
Theorem modelGet_needs_exactly_one_entry app dn skipCache entries :
  skipCache = true ∨ cacheGet app (Model_name +:+ "Get") dn = None →
  ufdsSearch (ufds app) dn (mkOpts None "base") = Done entries →
  length entries ≠ 1%nat →
  (modelGet app dn skipCache).2 = Failed (JsErr InternalError "conflicting entries") ∧
  cache (modelGet app dn skipCache).1 = cache app ∧
  LogLine LError "multiple hits in UFDS for one dn" ∈ log (modelGet app dn skipCache).1.
Proof.
  intros Hmiss Hsearch Hlen. unfold modelGet. cbn zeta.
  assert ((if skipCache then CarryOn (logto LInfo "modelGet" app)
           else modelGet_cached (logto LInfo "modelGet" app) (Model_name +:+ "Get") dn)
          = CarryOn (logto LInfo "modelGet" app)) as ->.
  { destruct skipCache; [done|]. destruct Hmiss as [?|Hmiss]; [done|].
    unfold modelGet_cached, cacheGet in *. cbn [cache logto]. by rewrite Hmiss. }
  unfold modelGet_search. cbn [ufds called logto]. rewrite Hsearch.
  destruct entries as [|entry [|]]; try done; cbn;
    (split; [done|]; split; [done|]);
    rewrite elem_of_app; right; apply list_elem_of_here.
Qed.

Lemma mapM_all_Ok {A B} (f : A → res B) (l : list A) :
  Forall (λ x, is_Ok (f x) = true) l →
  ∃ ys, mapM f l = Ok ys ∧ length ys = length l.
Proof.
  induction 1 as [|x l Hx _ (ys & IH & Hlen)]; [by exists []|].
  destruct (f x) as [y|] eqn:E; [|done].
  exists (y :: ys). simpl. rewrite E. simpl. rewrite IH. simpl. by rewrite Hlen.
Qed.

Lemma modelList_cached_hit app scope key ds items :
  cacheGet app scope key = Some (mkEntry None (CMany ds)) →
  mapM new_Model ds = Ok items →
  modelList_cached app scope key
  = Answer (logto LTrace "modelList: cache hit" app) (Done items).
Proof. unfold modelList_cached. intros -> H. simpl. by rewrite H. Qed.

Lemma modelList_cached_Done app scope key app' items :
  modelList_cached app scope key = Answer app' (Done items) →
  cache app' = cache app ∧
  ∃ ds, cacheGet app scope key = Some (mkEntry None (CMany ds)) ∧
        mapM new_Model ds = Ok items.
Proof.
  unfold modelList_cached.
  destruct (cacheGet app scope key) as [[[e|] [|d|ds]]|]; simpl; try done.
  destruct (mapM new_Model ds) eqn:E; [|done]. intros [= <- <-]. eauto.
Qed.

Lemma modelList_search_Done app scope key parentDn app1 items :
  modelList_search app scope key parentDn = (app1, Done items) →
  cacheGet app1 scope key = Some (mkEntry None (CMany (map Model_serialize items))).
Proof.
  unfold modelList_search. cbn [ufds called logto].
  destruct (ufdsSearch _ _ _) as [rawItems|err].
  - destruct (construct_each rawItems) as [lines instances].
    intros [= <- <-]. unfold cacheGet. simpl. apply lookup_insert_eq.
  - by destruct (httpCode_is 503 err).
Qed.

(** X8.  When [modelList] has handed back a list of items whose
    serializations the constructor accepts, the next [modelList] of the same
    parent DN is answered from the cache: it sends the directory nothing,
    leaves the cache as it is, and hands back as many items. *)
Theorem modelList_answers_again_from_cache app parentDn app1 items :
  modelList app parentDn = (app1, Done items) →
  Forall (λ i, is_Ok (new_Model (Model_serialize i)) = true) items →
  ∃ items',
    modelList app1 parentDn
    = (logto LTrace "modelList: cache hit" (logto LInfo "modelList" app1), Done items') ∧
    length items' = length items.
Proof.
  unfold modelList at 1. cbn zeta.
  destruct (modelList_cached _ _ _) as [app' r|app'] eqn:Hc.
  - intros [= -> ->] _.
    apply modelList_cached_Done in Hc as (Hcache & ds & Hd & Hitems).
    exists items. split; [|done]. unfold modelList. cbn zeta.
    rewrite (modelList_cached_hit _ _ _ ds items); [done| |done].
    unfold cacheGet in *. cbn [cache logto] in *. by rewrite Hcache.
  - intros Hs Hok. apply modelList_search_Done in Hs.
    destruct (mapM_all_Ok new_Model (map Model_serialize items)) as (items' & Hm & Hlen).
    { by apply Forall_map. }
    exists items'. split; [|by rewrite Hlen, length_map].
    unfold modelList. cbn zeta.
    by rewrite (modelList_cached_hit _ _ _ (map Model_serialize items) items').
Qed.

(** X9.  [modelGet] and [modelList] only read the directory: each sends it at
    most one request, a search (with scope base at the DN, or with scope sub
    and the objectclass filter at the parent DN), and never a delete. *)
Theorem reads_send_one_search_at_most app dn skipCache parentDn :
  (ufds (modelGet app dn skipCache).1 = ufds app ∧
   (calls (modelGet app dn skipCache).1 = calls app ∨
    calls (modelGet app dn skipCache).1
    = (calls app ++ [DSearch dn (mkOpts None "base")])%list)) ∧
  (ufds (modelList app parentDn).1 = ufds app ∧
   (calls (modelList app parentDn).1 = calls app ∨
    calls (modelList app parentDn).1
    = (calls app ++ [DSearch parentDn
                       (mkOpts (Some ("(objectclass=" +:+ Model_objectclass +:+ ")"))
                               "sub")])%list)).
Proof.
  split.
  - unfold modelGet. cbn zeta.
    set (app0 := logto LInfo "modelGet" app).
    assert (∀ app', ufds app' = ufds app → calls app' = calls app →
              ufds (modelGet_search app' skipCache (Model_name +:+ "Get") dn).1 = ufds app ∧
              calls (modelGet_search app' skipCache (Model_name +:+ "Get") dn).1
              = (calls app ++ [DSearch dn (mkOpts None "base")])%list) as Hs.
    { intros app' Hu Hcalls.
      destruct (modelGet_search_spec app' skipCache (Model_name +:+ "Get") dn)
        as (Hu' & Hc' & _). cbn zeta in Hu', Hc'. by rewrite Hu', Hc', Hu, Hcalls. }
    destruct skipCache.
    + destruct (Hs app0) as [Hu Hc]; [done..|]. split; [done|]. by right.
    + pose proof (modelGet_cached_spec app0 (Model_name +:+ "Get") dn) as H.
      destruct (modelGet_cached _ _ _) as [app' r|app'] eqn:Hc.
      * unfold modelGet_cached in Hc.
        destruct (cacheGet app0 _ _) as [[[e|] [|d|ds]]|]; simpl in Hc; try done.
        -- injection Hc as <- <-. split; [done|]. by left.
        -- injection Hc as <- <-. split; [done|]. by left.
        -- injection Hc as <- <-. split; [done|]. by left.
        -- destruct (new_Model d); [|done]. injection Hc as <- <-.
           split; [done|]. by left.
      * destruct H as (Hu & Hcalls & _).
        destruct (Hs app') as [Hu' Hc']; [done..|]. split; [done|]. by right.
  - unfold modelList. cbn zeta.
    set (app0 := logto LInfo "modelList" app).
    destruct (modelList_cached _ _ _) as [app' r|app'] eqn:Hc.
    + unfold modelList_cached in Hc.
      destruct (cacheGet app0 _ _) as [[[e|] [|d|ds]]|]; simpl in Hc; try done.
      * injection Hc as <- <-. split; [done|]. by left.
      * injection Hc as <- <-. split; [done|]. by left.
      * injection Hc as <- <-. split; [done|]. by left.
      * destruct (mapM new_Model ds); [|done]. injection Hc as <- <-.
        split; [done|]. by left.
    + apply modelList_cached_CarryOn in Hc as (Hu & Hcalls & _).
      unfold modelList_search. cbn [ufds called logto].
      destruct (ufdsSearch (ufds app') parentDn _) as [rawItems|err].
      * destruct (construct_each rawItems) as [lines instances]. cbn.
        rewrite Hu, Hcalls. split; [done|]. by right.
      * destruct (httpCode_is 503 err); cbn; rewrite Hu, Hcalls;
          (split; [done|]); by right.
Qed.

(** X10.  A cache entry whose data the constructor no longer accepts counts
    as a miss: [modelGet] and [modelList] hand back what they hand back for
    the cache without that entry, and leave the cache, the directory and the
    requests made as that call leaves them. *)
Theorem unusable_cache_entry_is_a_miss app dn ds d e :
  (cacheGet app (Model_name +:+ "Get") dn = Some (mkEntry None (COne d)) →
   new_Model d = Throw e →
   (modelGet app dn false).2
   = (modelGet (cacheDel app (Model_name +:+ "Get") dn) dn false).2 ∧
   same_but_log (modelGet app dn false).1
                (modelGet (cacheDel app (Model_name +:+ "Get") dn) dn false).1) ∧
  (cacheGet app (Model_name +:+ "List") dn = Some (mkEntry None (CMany ds)) →
   mapM new_Model ds = Throw e →
   (modelList app dn).2
   = (modelList (cacheDel app (Model_name +:+ "List") dn) dn).2 ∧
   same_but_log (modelList app dn).1
                (modelList (cacheDel app (Model_name +:+ "List") dn) dn).1).
Proof.
  split.
  - intros Hhit Hbad.
    assert (modelGet app dn false
            = modelGet_search
                (cacheDel (logto LWarn ("error in cached data: " +:+ message e)
                                 (logto LInfo "modelGet" app))
                          (Model_name +:+ "Get") dn)
                false (Model_name +:+ "Get") dn) as ->.
    { unfold modelGet. cbn zeta. unfold modelGet_cached, cacheGet in *.
      cbn [cache logto]. rewrite Hhit. cbn [c_err c_data]. by rewrite Hbad. }
    assert (modelGet (cacheDel app (Model_name +:+ "Get") dn) dn false
            = modelGet_search (logto LInfo "modelGet" (cacheDel app (Model_name +:+ "Get") dn))
                false (Model_name +:+ "Get") dn) as ->.
    { unfold modelGet. cbn zeta. unfold modelGet_cached, cacheGet.
      cbn [cache logto cacheDel]. by rewrite lookup_delete_eq. }
    by apply modelGet_search_log.
  - intros Hhit Hbad.
    assert (modelList app dn
            = modelList_search
                (cacheDel (logto LWarn ("error in cached data: " +:+ message e)
                                 (logto LTrace "modelList: cache hit"
                                        (logto LInfo "modelList" app)))
                          (Model_name +:+ "List") dn)
                (Model_name +:+ "List") dn dn) as ->.
    { unfold modelList. cbn zeta. unfold modelList_cached, cacheGet in *.
      cbn [cache logto]. rewrite Hhit. cbn [c_err c_data]. by rewrite Hbad. }
    assert (modelList (cacheDel app (Model_name +:+ "List") dn) dn
            = modelList_search (logto LInfo "modelList" (cacheDel app (Model_name +:+ "List") dn))
                (Model_name +:+ "List") dn dn) as ->.
    { unfold modelList. cbn zeta. unfold modelList_cached, cacheGet.
      cbn [cache logto cacheDel]. by rewrite lookup_delete_eq. }
    by apply modelList_search_log.
Qed.

End ReadFacts.

(** *** The installation of [Demo] *)

(** X5, witness.  The whistlelog probe, got twice in a row. *)
Lemma whistlelog_is_got_from_the_cache :
  ∃ item',
    @modelGet Demo.probes Demo.ufds
      (@modelGet Demo.probes Demo.ufds Fixtures.whistle_app Demo.whistlelog_dn false).1
      Demo.whistlelog_dn false
    = (logto LInfo "modelGet"
         (@modelGet Demo.probes Demo.ufds Fixtures.whistle_app Demo.whistlelog_dn false).1,
       Done item') ∧
    (item' = Demo.whistlelog_probe ∨
     @new_Model Demo.probes (@Model_serialize Demo.probes Demo.whistlelog_probe)
     = Ok item').
Proof.
  apply (@modelGet_answers_again_from_cache Demo.probes Demo.ufds Fixtures.whistle_app).
  - reflexivity.
  - reflexivity.
Defined.

(** X6, witness.  A probe the directory does not hold, asked for twice in a row. *)
Lemma missing_probe_is_not_looked_for_again :
  @modelGet Demo.probes Demo.ufds
    (@modelGet Demo.probes Demo.ufds (Demo.app_over (Demo.mkDirectory true []))
       Demo.whistlelog_dn false).1
    Demo.whistlelog_dn false
  = (logto LInfo "modelGet"
       (@modelGet Demo.probes Demo.ufds (Demo.app_over (Demo.mkDirectory true []))
          Demo.whistlelog_dn false).1,
     Failed (JsErr ResourceNotFoundError "not found")).
Proof.
  apply (@modelGet_error_is_replayed Demo.probes Demo.ufds
           (Demo.app_over (Demo.mkDirectory true []))).
  - reflexivity.
  - reflexivity.
  - discriminate.
  - discriminate.
Defined.

(** X7, witness.  A directory that holds the whistlelog probe twice. *)
Lemma twins_are_conflicting_entries :
  (@modelGet Demo.probes Demo.ufds
     (Demo.app_over (Demo.mkDirectory true [Demo.whistlelog_entry; Demo.whistlelog_entry]))
     Demo.whistlelog_dn false).2
  = Failed (JsErr InternalError "conflicting entries") ∧
  cache (@modelGet Demo.probes Demo.ufds
     (Demo.app_over (Demo.mkDirectory true [Demo.whistlelog_entry; Demo.whistlelog_entry]))
     Demo.whistlelog_dn false).1 = ∅ ∧
  LogLine LError "multiple hits in UFDS for one dn"
  ∈ log (@modelGet Demo.probes Demo.ufds
     (Demo.app_over (Demo.mkDirectory true [Demo.whistlelog_entry; Demo.whistlelog_entry]))
     Demo.whistlelog_dn false).1.
Proof.
  apply (@modelGet_needs_exactly_one_entry Demo.probes Demo.ufds
           (Demo.app_over (Demo.mkDirectory true
                             [Demo.whistlelog_entry; Demo.whistlelog_entry]))
           Demo.whistlelog_dn false
           [Probes.FromUfds Demo.whistlelog_entry; Probes.FromUfds Demo.whistlelog_entry]).
  - right. reflexivity.
  - reflexivity.
  - simpl. lia.
Defined.

(** X8, witness.  The probes of the whistle monitor, listed twice in a row. *)
Lemma whistle_is_listed_from_the_cache :
  ∃ items',
    @modelList Demo.probes Demo.ufds
      (@modelList Demo.probes Demo.ufds Fixtures.whistle_app Demo.whistle_dn).1 Demo.whistle_dn
    = (logto LTrace "modelList: cache hit"
         (logto LInfo "modelList"
            (@modelList Demo.probes Demo.ufds Fixtures.whistle_app Demo.whistle_dn).1),
       Done items') ∧
    length items' = length [Demo.whistlelog_probe].
Proof.
  apply (@modelList_answers_again_from_cache Demo.probes Demo.ufds Fixtures.whistle_app).
  - reflexivity.
  - apply Forall_cons. split; [reflexivity|apply Forall_nil_2].
Defined.

(** X10, witness.  The stale entry is passed over and the probe is looked up. *)
Lemma a_stale_entry_is_looked_up_again :
  (@modelGet Demo.probes Demo.ufds Fixtures.stale_app Demo.whistlelog_dn false).2
  = (@modelGet Demo.probes Demo.ufds (cacheDel Fixtures.stale_app "ProbeGet" Demo.whistlelog_dn)
       Demo.whistlelog_dn false).2 ∧
  same_but_log
    (@modelGet Demo.probes Demo.ufds Fixtures.stale_app Demo.whistlelog_dn false).1
    (@modelGet Demo.probes Demo.ufds (cacheDel Fixtures.stale_app "ProbeGet" Demo.whistlelog_dn)
       Demo.whistlelog_dn false).1.
Proof.
  apply (proj1 (@unusable_cache_entry_is_a_miss Demo.probes Demo.ufds Fixtures.stale_app
                  Demo.whistlelog_dn [] (Probes.FromUfds Demo.corrupt_entry)
                  (Probes.MissingParameter "'type' is a required parameter for a probe"))).
  - reflexivity.
  - reflexivity.
Defined.

End ReadFacts.

(* ===================================================================== *)
(** ** Properties of modelPut and of the request wrappers *)
(* ===================================================================== *)

Module WriteFacts.

Import UfdsModel UfdsWrite.

Section WriteFacts.
Context {M : Model} {D : Directory Data} {W : Writable M D} {R : Routed M}.

(** What [modelPut] does, case by case. *)
Lemma modelPut_cases app data r :
  modelPut app data = Ok r →
  (∃ e, new_Model data = Throw e ∧
        r = mkPut (logto LInfo "modelPut" app) [] (Failed e)) ∨
  (∃ item e, new_Model data = Ok item ∧ Model_authorizePut item = Ok (Some e) ∧
             r = mkPut (logto LDebug "authorizePut err" (logto LInfo "modelPut" app))
                       [] (Failed e)) ∨
  (∃ item, new_Model data = Ok item ∧ Model_authorizePut item = Ok None ∧
           put_added r = [(item_dn item, item_raw item)] ∧
           ufds (put_app r) = (ufdsAdd (ufds app) (item_dn item) (item_raw item)).2 ∧
           match (ufdsAdd (ufds app) (item_dn item) (item_raw item)).1 with
           | Some addErr => put_result r = Failed addErr ∧ cache (put_app r) = cache app
           | None => put_result r = Done item
           end).
Proof.
  unfold modelPut. cbn zeta.
  destruct (new_Model data) as [item|e]; [|intros [= <-]; left; eauto].
  destruct (Model_authorizePut item) as [[err|]|] eqn:Hauth; simpl; [| |done].
  { intros [= <-]. right. left. eauto 10. }
  destruct (ufdsAdd _ _ _) as [[addErr|] d'] eqn:Hadd; intros [= <-];
    right; right; exists item; simpl in *; rewrite Hadd; done.
Qed.

(** X11.  [modelPut] sends the directory at most one add, and only for data
    the constructor accepts and [authorizePut] authorizes: the add is for
    the DN of the instance, with its raw data.  A put that adds nothing
    leaves the directory as it was. *)
Theorem modelPut_adds_only_what_is_authorized app data r :
  modelPut app data = Ok r →
  (length (put_added r) ≤ 1)%nat ∧
  (∀ x, x ∈ put_added r →
        ∃ item, new_Model data = Ok item ∧ Model_authorizePut item = Ok None ∧
                x = (item_dn item, item_raw item)) ∧
  (put_added r = [] → ufds (put_app r) = ufds app).
Proof.
  intros [(e & _ & ->)|[(item & e & _ & _ & ->)|(item & Hitem & Hauth & Hadd & _)]]%modelPut_cases;
    simpl; try (split; [lia|]; split; [by intros ? ?%elem_of_nil|done]).
  rewrite Hadd. simpl. split; [lia|]. split; [|done].
  intros x ->%list_elem_of_singleton. eauto.
Qed.

(** X12.  The error [modelPut] hands to its callback is the one of the step
    that failed: what the constructor threw, what [authorizePut] reported or
    what [ufdsAdd] reported; on every failure the cache is left as it was.
    An item is handed back only when the constructor accepted the data, the
    put was authorized and the add succeeded, and it is the instance that
    was built. *)
Theorem modelPut_reports_the_failing_step app data r :
  modelPut app data = Ok r →
  match put_result r with
  | Failed e =>
    cache (put_app r) = cache app ∧
    (new_Model data = Throw e ∨
     ∃ item, new_Model data = Ok item ∧
             (Model_authorizePut item = Ok (Some e) ∨
              (Model_authorizePut item = Ok None ∧
               (ufdsAdd (ufds app) (item_dn item) (item_raw item)).1 = Some e)))
  | Done item =>
    new_Model data = Ok item ∧ Model_authorizePut item = Ok None ∧
    (ufdsAdd (ufds app) (item_dn item) (item_raw item)).1 = None
  end.
Proof.
  intros [(e & He & ->)|[(item & e & Hi & Ha & ->)|(item & Hitem & Hauth & _ & _ & H)]]%modelPut_cases;
    simpl; [by eauto|by eauto 10|].
  destruct (ufdsAdd _ _ _).1 as [addErr|] eqn:E.
  - destruct H as [-> ->]. split; [done|]. right. exists item. eauto.
  - rewrite H. done.
Qed.

(** X13.  [requestDelete] sends 204 only for an entry that was there and is
    gone: the name in the request was accepted, the search at its DN, sent
    first and past the cache, found exactly one entry, which the constructor
    accepted, and the delete that was sent after it succeeded. *)
Theorem a_204_means_found_and_deleted app req app' :
  requestDelete app req = Ok (app', SentCode 204) →
  ∃ dn entry item,
    dnFromRequest req = Ok dn ∧
    ufdsSearch (ufds app) dn (mkOpts None "base") = Done [entry] ∧
    new_Model entry = Ok item ∧
    ufdsDelete (ufds app) dn = (None, ufds app') ∧
    calls app' = (calls app ++ [DSearch dn (mkOpts None "base"); DDelete dn])%list.
Proof.
  unfold requestDelete. cbn zeta.
  destruct (dnFromRequest req) as [dn|] eqn:Hdn; [|done]. simpl.
  set (app0 := logto LTrace "delete entered" app).
  destruct (modelDelete app0 dn) as [app1 [err|]] eqn:Hdel; [done|].
  intros [= <-]. exists dn.
  unfold modelDelete in Hdel. cbn zeta in Hdel.
  set (app00 := logto LInfo "modelDelete" app0) in *.
  pose proof (ModelFacts.modelGet_skipCache app00 dn) as (_ & Hu & Hcalls).
  destruct (modelGet app00 dn true) as [app2 [item|getErr]] eqn:Hget; [|done].
  simpl in Hu, Hcalls.
  unfold modelGet in Hget. cbn zeta in Hget.
  apply ReadFacts.modelGet_search_found in Hget as (entry & Hsearch & Hitem).
  exists entry, item. split; [done|]. split; [done|]. split; [done|].
  cbn [ufds called] in Hdel. rewrite Hu in Hdel.
  change (ufds app00) with (ufds app) in Hdel.
  destruct (ufdsDelete (ufds app) dn) as [[delErr|] d']; [done|].
  injection Hdel as <-. split; [done|].
  cbn. rewrite Hcalls. cbn. by rewrite <- app_assoc.
Qed.

End WriteFacts.

(** *** The installation of [Demo] *)

(** X11, witness.  Bob puts the whistlelog probe on his zone. *)
Lemma whistlelog_is_added_once :
  ∃ r, @modelPut Demo.probes Demo.ufds Fixtures.writable Fixtures.empty_app
         (Probes.FromPublic Demo.whistlelog) = Ok r ∧
       (length (put_added r) ≤ 1)%nat ∧
       (∀ x, x ∈ put_added r →
             ∃ item, @new_Model Demo.probes (Probes.FromPublic Demo.whistlelog) = Ok item ∧
                     @Model_authorizePut _ _ Fixtures.writable item = Ok None ∧
                     x = (@item_dn Demo.probes item, @item_raw _ _ Fixtures.writable item)) ∧
       (put_added r = [] → ufds (put_app r) = ufds Fixtures.empty_app).
Proof.
  eexists. split; [reflexivity|].
  apply (@modelPut_adds_only_what_is_authorized Demo.probes Demo.ufds Fixtures.writable
           Fixtures.empty_app (Probes.FromPublic Demo.whistlelog)).
  reflexivity.
Defined.

(** X12, witness.  Bob puts the smartlogin probe on the headnode. *)
Lemma put_by_bob_on_the_headnode_fails :
  ∃ r, @modelPut Demo.probes Demo.ufds Fixtures.writable Fixtures.empty_app
         (Probes.FromPublic Fixtures.smartlogin_by_bob) = Ok r ∧
       match put_result r with
       | Failed e =>
         cache (put_app r) = cache Fixtures.empty_app ∧
         (@new_Model Demo.probes (Probes.FromPublic Fixtures.smartlogin_by_bob) = Throw e ∨
          ∃ item, @new_Model Demo.probes (Probes.FromPublic Fixtures.smartlogin_by_bob)
                  = Ok item ∧
                  (@Model_authorizePut _ _ Fixtures.writable item = Ok (Some e) ∨
                   (@Model_authorizePut _ _ Fixtures.writable item = Ok None ∧
                    (@ufdsAdd _ _ Fixtures.writable (ufds Fixtures.empty_app)
                       (@item_dn Demo.probes item)
                       (@item_raw _ _ Fixtures.writable item)).1 = Some e)))
       | Done item =>
         @new_Model Demo.probes (Probes.FromPublic Fixtures.smartlogin_by_bob) = Ok item ∧
         @Model_authorizePut _ _ Fixtures.writable item = Ok None ∧
         (@ufdsAdd _ _ Fixtures.writable (ufds Fixtures.empty_app) (@item_dn Demo.probes item)
            (@item_raw _ _ Fixtures.writable item)).1 = None
       end.
Proof.
  eexists. split; [reflexivity|].
  apply (@modelPut_reports_the_failing_step Demo.probes Demo.ufds Fixtures.writable
           Fixtures.empty_app (Probes.FromPublic Fixtures.smartlogin_by_bob)).
  reflexivity.
Defined.

(** X13, witness.  Bob deletes the whistlelog probe. *)
Lemma whistlelog_is_deleted_with_a_204 :
  ∃ dn entry item,
    @dnFromRequest _ Fixtures.routed Fixtures.whistlelog_request = Ok dn ∧
    @ufdsSearch _ Demo.ufds (ufds Fixtures.whistle_app) dn (mkOpts None "base")
    = Done [entry] ∧
    @new_Model Demo.probes entry = Ok item ∧
    @ufdsDelete _ Demo.ufds (ufds Fixtures.whistle_app) dn
    = (None, Demo.mkDirectory true []) ∧
    calls (@modelDelete Demo.probes Demo.ufds
             (logto LTrace "delete entered" Fixtures.whistle_app)
             Demo.whistlelog_dn).1
    = (calls Fixtures.whistle_app
       ++ [DSearch dn (mkOpts None "base"); DDelete dn])%list.
Proof.
  apply (@a_204_means_found_and_deleted Demo.probes Demo.ufds Fixtures.routed
           Fixtures.whistle_app Fixtures.whistlelog_request
           (@modelDelete Demo.probes Demo.ufds
              (logto LTrace "delete entered" Fixtures.whistle_app)
              Demo.whistlelog_dn).1).
  reflexivity.
Defined.

End WriteFacts.

(* ===================================================================== *)
(** ** Properties of the probe routes *)
(* ===================================================================== *)

Module RouteFacts.

Import Probes ProbeFacts UfdsModel UfdsWrite ProbeRoutes.

Section RouteFacts.
Context {PF : Platform} {MS : MasterServices} {D : Directory ProbeData}.


Lemma validateName_Ok o :
  Probes.validateName o = Ok tt ↔ nameRegex_test (String_of o) = true.
Proof. unfold Probes.validateName. by destruct (nameRegex_test _). Qed.

Lemma Monitor_validateName_Ok o :
  MonitorModel.validateName o = Ok tt ↔ nameRegex_test (String_of o) = true.
Proof. unfold MonitorModel.validateName. by destruct (nameRegex_test _). Qed.

Lemma validateName_Throw o e :
  Probes.validateName o = Throw e →
  nameRegex_test (String_of o) = false ∧ kind e = InvalidArgumentError.
Proof.
  unfold Probes.validateName. destruct (nameRegex_test _); [done|]. by intros [= <-].
Qed.

Lemma Monitor_validateName_Throw o e :
  MonitorModel.validateName o = Throw e →
  nameRegex_test (String_of o) = false ∧ kind e = InvalidArgumentError.
Proof.
  unfold MonitorModel.validateName. destruct (nameRegex_test _); [done|].
  by intros [= <-].
Qed.

(** X14.  A probe put in the public form under a user, a monitor and a name
    is looked for at the DN it was stored at.  When the monitor name matches
    the name pattern, [Probe.dnFromRequest] gives, for the same user,
    monitor and name, the [dn] the constructor gave the instance; and when
    the user is a UUID besides, [Probe.get] passes its three checks and is
    [modelGet], with the cache in use, at that [dn].  For data in the
    directory form the [dn] of the instance is the one the data carries,
    whatever a request would give. *)
Theorem put_and_get_agree_on_the_dn
    (app : @App ProbeController.Probe_Model D) (data : ProbeData) (p : Probe)
    (udn : string) :
  new_Probe data = Ok p →
  match data with
  | FromPublic d =>
    nameRegex_test (String_of (data_monitor d)) = true →
    dnFromRequest (mkRequest (data_monitor d) (data_name d) (String_of (data_user d)) udn)
    = Ok (dn p) ∧
    (UUID_RE_test (String_of (data_user d)) = true →
     Probe_get app (data_user d) (data_monitor d) (data_name d)
     = Ok (modelGet app (dn p) false))
  | FromUfds e => dn p = ent_dn e
  end.
Proof.
  destruct data as [e|d]; intros Hp.
  { by apply ProbeFacts.construct_ufds_Ok in Hp as (_ & ? & _). }
  intros Hm. pose proof (ProbeShape.new_Probe_name _ _ Hp) as Hn. simpl in Hn.
  assert (dn p = Probe_dn (String_of (data_user d)) (String_of (data_monitor d))
                          (String_of (data_name d))) as ->.
  { simpl in Hp. unfold construct_public in Hp.
    repeat (destruct (negb _); [done|]).
    apply bind_Ok in Hp as ([] & _ & Hp).
    apply bind_Ok in Hp as (r' & _ & Hp). by injection Hp as <-. }
  apply Monitor_validateName_Ok in Hm. apply validateName_Ok in Hn.
  split.
  - unfold dnFromRequest. cbn [params_monitor params_name user_uuid].
    by rewrite Hm, Hn.
  - intros Hu. unfold Probe_get. by rewrite Hu, Hm, Hn.
Qed.

(** X15.  When [req._user.dn] is the DN of the user, the DN
    [Probe.dnFromRequest] gives lies directly under the one
    [Probe.parentDnFromRequest] gives, which is the DN [Monitor.dn] gives
    the monitor: the probes that are listed under a monitor are those whose
    DN is their own RDN followed by the DN of the monitor. *)
Theorem probe_dn_is_under_its_monitor (req : Request) (d : string) :
  user_dn req = "uuid=" +:+ user_uuid req +:+ ", ou=users, o=smartdc" →
  dnFromRequest req = Ok d →
  ∃ parent, parentDnFromRequest req = Ok parent ∧
            parent = MonitorModel.Monitor_dn (user_uuid req) (String_of (params_monitor req)) ∧
            d = "amonprobe=" +:+ String_of (params_name req) +:+ ", " +:+ parent.
Proof.
  intros Hdn. unfold dnFromRequest, parentDnFromRequest.
  destruct (MonitorModel.validateName _) as [[]|]; [|done]. simpl.
  destruct (Probes.validateName _) as [[]|]; [|done]. simpl.
  intros [= <-]. rewrite Hdn. eexists. split; [done|]. split; reflexivity.
Qed.

Lemma dnFromRequest_Throw req e :
  dnFromRequest req = Throw e →
  kind e = InvalidArgumentError ∧
  nameRegex_test (String_of (params_monitor req))
  && nameRegex_test (String_of (params_name req)) = false.
Proof.
  unfold dnFromRequest.
  destruct (MonitorModel.validateName _) as [[]|e1] eqn:E1; simpl.
  - destruct (Probes.validateName _) as [[]|e2] eqn:E2; simpl; [done|].
    intros [= <-]. apply validateName_Throw in E2 as [-> ?]. by rewrite andb_false_r.
  - intros [= <-]. by apply Monitor_validateName_Throw in E1 as [-> ?].
Qed.

Lemma dnFromRequest_fails req :
  nameRegex_test (String_of (params_monitor req))
  && nameRegex_test (String_of (params_name req)) = false →
  ∃ e, dnFromRequest req = Throw e.
Proof.
  unfold dnFromRequest, Probes.validateName, MonitorModel.validateName.
  destruct (nameRegex_test (String_of (params_monitor req)));
    destruct (nameRegex_test (String_of (params_name req))); simpl; try done; eauto.
Qed.

(** X16.  A request for a probe whose monitor name or probe name does not
    match the name pattern sends the directory nothing and touches no cache:
    [requestGet] catches the InvalidArgumentError of [dnFromRequest] and
    hands it to [next], a 409; [requestDelete], which calls [dnFromRequest]
    outside any [try], throws it. *)
Theorem invalid_names_never_reach_the_directory
    (app : @App ProbeController.Probe_Model D) (req : Request) :
  nameRegex_test (String_of (params_monitor req))
  && nameRegex_test (String_of (params_name req)) = false →
  ∃ e, kind e = InvalidArgumentError ∧ httpCode e = Some 409%Z ∧
       @requestGet ProbeController.Probe_Model D ProbeWrites.Probe_Routed app req
       = (logto LTrace "get entered" app, NextError e) ∧
       @requestDelete ProbeController.Probe_Model D ProbeWrites.Probe_Routed app req = Throw e.
Proof.
  intros (e & He)%dnFromRequest_fails. exists e.
  pose proof (dnFromRequest_Throw _ _ He) as [Hk _].
  unfold requestGet, requestDelete. cbn [UfdsWrite.dnFromRequest ProbeWrites.Probe_Routed].
  rewrite He. unfold httpCode. by rewrite Hk.
Qed.

(** X17.  What [requestGet] and [requestList] send for probes is the public
    serialization: whatever the cache and the directory hold, no probe that
    is sent carries [global]. *)
Theorem probe_requests_never_send_global
    (app : @App ProbeController.Probe_Model D) (req : Request) :
  (∀ app' body,
     @requestGet ProbeController.Probe_Model D ProbeWrites.Probe_Routed app req = (app', SentData body) →
     ∃ d, body = FromPublic d ∧ data_global d = None) ∧
  (∀ app' bodies,
     @requestList ProbeController.Probe_Model D ProbeWrites.Probe_Routed app req = Ok (app', SentData bodies) →
     Forall (λ body, ∃ d, body = FromPublic d ∧ data_global d = None) bodies).
Proof.
  split.
  - intros app' body. unfold requestGet.
    cbn [UfdsWrite.dnFromRequest ProbeWrites.Probe_Routed].
    destruct (dnFromRequest req) as [dn|]; [|done].
    destruct (modelGet _ dn false) as [app1 [item|err]]; [|done].
    intros [= _ <-]. eexists. split; [reflexivity|done].
  - intros app' bodies. unfold requestList.
    cbn [UfdsWrite.parentDnFromRequest ProbeWrites.Probe_Routed].
    destruct (parentDnFromRequest req) as [parentDn|]; [|done]. simpl.
    destruct (modelList _ parentDn) as [app1 [items|err]]; [|done].
    intros [= _ <-]. apply Forall_map, Forall_true. intros p. simpl.
    eexists. split; [reflexivity|done].
Qed.

(** X18.  The put of a probe on a server by an account that the operator
    check reports as no operator never reaches the directory: [modelPut]
    hands back InvalidArgument, a 409, makes no add and leaves directory and
    cache as they were. *)
Theorem put_on_a_server_needs_an_operator
    (add : dirstate → string → Raw → option jserr * dirstate)
    (app : @App ProbeController.Probe_Model D) (data : ProbeData) (p : Probe) :
  new_Probe data = Ok p →
  truthyS (server p) = true →
  isOperator (user p) = (None, false) →
  ∃ r e, @modelPut ProbeController.Probe_Model D (ProbeWrites.Probe_Writable add) app data = Ok r ∧
         put_result r = Failed e ∧ kind e = InvalidArgumentError ∧
         httpCode e = Some 409%Z ∧
         put_added r = [] ∧ ufds (put_app r) = ufds app ∧
         cache (put_app r) = cache app.
Proof.
  intros Hp Hs Hop. pose proof (new_Probe_one_target _ _ Hp) as Hone.
  rewrite Hs in Hone. destruct (truthyS (machine p)) eqn:Hm; [done|].
  unfold modelPut.
  change (@new_Model ProbeController.Probe_Model data) with (new_Probe data).
  rewrite Hp. cbn [Model_authorizePut ProbeWrites.Probe_Writable].
  unfold authorizePut. rewrite Hm, Hs, Hop. simpl.
  eexists _, _. split; [reflexivity|]. done.
Qed.

Lemma authorizePut_returns (p : Probe) T :
  plugins (String_of (type p)) = Some T → ∃ r, authorizePut p = Ok r.
Proof.
  intros HT. unfold authorizePut, isRunInGlobalOrErr, isExistingMachineOrErr,
    userIsOperatorOrErr. rewrite HT.
  destruct (truthyS (machine p)).
  - destruct (mapi_getMachine (user p) _) as [[e|] own]; [|by eauto].
    destruct (httpCode_is 404 e); [|by eauto].
    destruct (runInGlobal T); simpl; [|by eauto].
    destruct (mapi_getMachine (Some "") _) as [err' [m|]]; simpl; [|by eauto].
    destruct (isOperator (user p)) as [[oe|] [|]]; simpl; eauto.
  - destruct (truthyS (server p)); [|by eauto].
    destruct (isOperator (user p)) as [[oe|] [|]]; simpl; eauto.
    destruct (serverExists _) as [se [|]]; simpl; eauto.
Qed.

(** X19.  [modelPut] of a probe always calls back: the constructor's errors
    are caught, and [authorizePut] does not throw for a probe that
    validated, since the plugin of its type, which the third condition
    reads, is in the plugin table. *)
Theorem probe_put_always_calls_back
    (add : dirstate → string → Raw → option jserr * dirstate)
    (app : @App ProbeController.Probe_Model D) (data : ProbeData) :
  ∃ r, @modelPut ProbeController.Probe_Model D (ProbeWrites.Probe_Writable add) app data
       = Ok r.
Proof.
  unfold modelPut.
  change (@new_Model ProbeController.Probe_Model data) with (new_Probe data).
  destruct (new_Probe data) as [p|e] eqn:Hp; [|by eauto].
  destruct (new_Probe_plugin _ _ Hp) as (T & HT & _).
  destruct (authorizePut_returns p T HT) as (r & Hr).
  cbn [Model_authorizePut ProbeWrites.Probe_Writable]. rewrite Hr. simpl.
  destruct r as [err|]; [by eauto|].
  cbn [ufdsAdd ProbeWrites.Probe_Writable].
  destruct (add _ _ _) as [[addErr|] d']; eauto.
Qed.

End RouteFacts.

(** *** The installation of [Demo] *)

(** X14, witness.  The whistlelog probe: put by bob, and asked for by bob. *)
Lemma whistlelog_is_got_where_it_was_put :
  @dnFromRequest
    (mkRequest (data_monitor Demo.whistlelog) (data_name Demo.whistlelog)
               (String_of (data_user Demo.whistlelog)) Fixtures.bob_dn)
  = Ok (dn Demo.whistlelog_probe) ∧
  (UUID_RE_test (String_of (data_user Demo.whistlelog)) = true →
   @Probe_get Demo.platform Demo.ufds Fixtures.whistle_app
     (data_user Demo.whistlelog) (data_monitor Demo.whistlelog) (data_name Demo.whistlelog)
   = Ok (@modelGet Demo.probes Demo.ufds Fixtures.whistle_app
           (dn Demo.whistlelog_probe) false)).
Proof.
  apply (@put_and_get_agree_on_the_dn Demo.platform Demo.ufds Fixtures.whistle_app
           (FromPublic Demo.whistlelog) Demo.whistlelog_probe Fixtures.bob_dn).
  - by vm_compute.
  - reflexivity.
Defined.

(** X15, witness.  The whistlelog probe lies under the whistle monitor. *)
Lemma whistlelog_is_under_whistle :
  ∃ parent, parentDnFromRequest Fixtures.whistlelog_request = Ok parent ∧
            parent = MonitorModel.Monitor_dn Demo.bob "whistle" ∧
            Demo.whistlelog_dn = "amonprobe=" +:+ "whistlelog" +:+ ", " +:+ parent.
Proof.
  apply (probe_dn_is_under_its_monitor Fixtures.whistlelog_request Demo.whistlelog_dn).
  - reflexivity.
  - reflexivity.
Defined.

(** X16, witness.  A request for a probe named "whistle log". *)
Lemma a_name_with_a_space_is_a_409 :
  ∃ e, kind e = InvalidArgumentError ∧ httpCode e = Some 409%Z ∧
       @requestGet Demo.probes Demo.ufds Fixtures.routed Fixtures.whistle_app
         Fixtures.misnamed_request
       = (logto LTrace "get entered" Fixtures.whistle_app, NextError e) ∧
       @requestDelete Demo.probes Demo.ufds Fixtures.routed Fixtures.whistle_app
         Fixtures.misnamed_request = Throw e.
Proof.
  apply (@invalid_names_never_reach_the_directory Demo.platform Demo.ufds
           Fixtures.whistle_app Fixtures.misnamed_request).
  reflexivity.
Defined.

(** X18, witness.  Bob, who is no operator, puts the smartlogin probe on the headnode. *)
Lemma bob_may_not_put_on_the_headnode :
  ∃ r e, @modelPut Demo.probes Demo.ufds Fixtures.writable Fixtures.empty_app
           (FromPublic Fixtures.smartlogin_by_bob) = Ok r ∧
         put_result r = Failed e ∧ kind e = InvalidArgumentError ∧
         httpCode e = Some 409%Z ∧
         put_added r = [] ∧ ufds (put_app r) = ufds Fixtures.empty_app ∧
         cache (put_app r) = cache Fixtures.empty_app.
Proof.
  apply (@put_on_a_server_needs_an_operator Demo.platform Demo.services Demo.ufds
           Fixtures.add Fixtures.empty_app (FromPublic Fixtures.smartlogin_by_bob)
           Fixtures.smartlogin_probe_of_bob).
  - by vm_compute.
  - reflexivity.
  - reflexivity.
Defined.

(** X17, witness.  What a GET of the whistlelog probe sends. *)
Lemma whistlelog_is_sent_without_global :
  ∃ d, @Model_serialize Demo.probes Demo.whistlelog_probe = Probes.FromPublic d ∧
       Probes.data_global d = None.
Proof.
  apply (proj1 (@probe_requests_never_send_global Demo.platform Demo.ufds
                  Fixtures.whistle_app Fixtures.whistlelog_request)
           (@requestGet Demo.probes Demo.ufds Fixtures.routed Fixtures.whistle_app
              Fixtures.whistlelog_request).1).
  reflexivity.
Defined.

End RouteFacts.

(* ===================================================================== *)
(** ** Properties of asyncForEach, the dispatcher and the logins *)
(* ===================================================================== *)

Module DispatchFacts.

Import MasterApp AppSetup.

(** *** asyncForEach *)

(** The first error among the arguments of the callbacks. *)
Fixpoint first_error (ers : list (option jserr)) : option jserr :=
  match ers with
  | [] => None
  | Some e :: _ => Some e
  | None :: rest => first_error rest
  end.

Definition run (ers : list (option jserr)) (s : afe) : afe :=
  fold_left (λ s er, asyncForEach_done er s) ers s.

Lemma run_after_error ers c e cbs :
  run ers (mkAfe c (Some e) cbs) = mkAfe c (Some e) cbs.
Proof. induction ers as [|er ers IH]; [done|]. simpl. apply IH. Qed.

Lemma run_counting ers (c : Z) cbs :
  (0 < c)%Z → (Z.of_nat (length ers) ≤ c)%Z →
  afe_cb (run ers (mkAfe c None cbs))
  = (cbs ++ match first_error ers with
            | Some e => [Some e]
            | None => if (Z.of_nat (length ers) =? c)%Z then [None] else []
            end)%list.
Proof.
  revert c cbs. induction ers as [|[e|] ers IH]; intros c cbs Hc Hlen.
  - cbn [run fold_left afe_cb first_error length Z.of_nat].
    destruct (Z.eqb_spec (Z.of_nat 0) c); [lia|]. by rewrite app_nil_r.
  - cbn [run fold_left first_error]. unfold asyncForEach_done at 2.
    cbn [afe_errState afe_c afe_cb].
    change (fold_left _ ers ?s) with (run ers s). by rewrite run_after_error.
  - cbn [run fold_left first_error]. unfold asyncForEach_done at 2. cbn [afe_errState afe_c afe_cb].
    cbn [length] in Hlen |- *.
    destruct (Z.eqb_spec (c - 1) 0) as [H0|H0].
    + assert (ers = []) as -> by (destruct ers; [done|simpl in Hlen; lia]).
      assert (c = 1%Z) as -> by lia. done.
    + change (fold_left _ ers ?s) with (run ers s).
      rewrite IH by lia. f_equal. destruct (first_error ers); [done|].
      destruct (Z.eqb_spec (Z.of_nat (length ers)) (c - 1)),
        (Z.eqb_spec (Z.of_nat (S (length ers))) c); try done; lia.
Qed.

(** X20.  When [fn] calls each of its callbacks once, [asyncForEach] calls
    [cb] exactly once: with the first error that a callback was called with
    or, when none was, without an error, after the last callback.  For an
    empty list it calls [cb] at once.  Before all callbacks have been called
    it has called [cb] only if one of them reported an error. *)
Theorem asyncForEach_calls_back_once (len : nat) (ers : list (option jserr)) :
  (length ers ≤ len)%nat →
  afe_cb (asyncForEach len ers)
  = match first_error ers with
    | Some e => [Some e]
    | None => if (length ers =? len)%nat then [None] else []
    end.
Proof.
  intros Hlen. unfold asyncForEach, asyncForEach_start.
  destruct len as [|len].
  - destruct ers; [done|simpl in Hlen; lia].
  - change (fold_left _ ers ?s) with (run ers s).
    rewrite run_counting by lia. simpl. destruct (first_error ers); [done|].
    destruct (Nat.eqb_spec (length ers) (S len)),
      (Z.eqb_spec (Z.of_nat (length ers)) (Z.of_nat (S len))); try done; lia.
Qed.

Section Dispatch.
Context {C : Collaborators}.

(** *** Who is notified *)

Lemma notified_by_step event userUuid n st x :
  x ∈ notified (getAndNotifyContact event userUuid n st) →
  x ∈ notified st ∨
  ∃ contact notify,
    Contact_get n userUuid = Done contact ∧
    notificationPlugins (medium contact) = Some notify ∧
    x = mkNotify (medium contact) (probe_name (event_probe event)) (data contact)
                 "XXX message".
Proof.
  unfold getAndNotifyContact, notifyContact.
  destruct (crashed st); [by left|].
  destruct (Contact_get n userUuid) as [contact|err]; [|by left].
  destruct (notificationPlugins (medium contact)) as [notify|] eqn:E; simpl.
  - intros [?|Hx]%elem_of_app; [by left|]. apply list_elem_of_singleton in Hx as ->.
    right. eauto.
  - destruct (bool_decide _); simpl; [by left|]. rewrite app_nil_r. by left.
Qed.

Lemma notified_length_step event userUuid n st :
  (length (notified (getAndNotifyContact event userUuid n st))
   ≤ S (length (notified st)))%nat.
Proof.
  unfold getAndNotifyContact, notifyContact.
  destruct (crashed st); [lia|].
  destruct (Contact_get n userUuid) as [contact|err]; simpl; [|lia].
  destruct (notificationPlugins (medium contact)); simpl.
  - rewrite length_app. simpl. lia.
  - destruct (bool_decide _); simpl; [lia|]. rewrite length_app. simpl. lia.
Qed.

Lemma notified_by_fold event userUuid order st x :
  x ∈ notified (fold_left (λ st n, getAndNotifyContact event userUuid n st) order st) →
  x ∈ notified st ∨
  ∃ n contact notify,
    n ∈ order ∧ Contact_get n userUuid = Done contact ∧
    notificationPlugins (medium contact) = Some notify ∧
    x = mkNotify (medium contact) (probe_name (event_probe event)) (data contact)
                 "XXX message".
Proof.
  revert st. induction order as [|n order IH]; intros st; [by left|].
  cbn [fold_left]. intros [H|(n' & c & f & Hin & ?)]%IH.
  - apply notified_by_step in H as [?|(c & f & ?)]; [by left|].
    right. exists n, c, f. split; [apply list_elem_of_here|done].
  - right. exists n', c, f. split; [by apply list_elem_of_further|done].
Qed.

Lemma notified_length_fold event userUuid order st :
  (length (notified (fold_left (λ st n, getAndNotifyContact event userUuid n st) order st))
   ≤ length order + length (notified st))%nat.
Proof.
  revert st. induction order as [|n order IH]; intros st; [simpl; lia|].
  cbn [fold_left length]. pose proof (IH (getAndNotifyContact event userUuid n st)).
  pose proof (notified_length_step event userUuid n st). lia.
Qed.

(** X21.  [processEvent] notifies only contacts of the monitor: every call of
    a plugin's [notify] is for a contact that was named in the list, was
    found for the user of the event and whose medium has a plugin, and it
    carries the name of the probe of the event and the data of that contact.
    There are at most as many calls as contacts, and none when the monitor
    is not found. *)
Theorem only_the_contacts_are_notified event order :
  (∀ x, x ∈ sent (processEvent event order) →
        ∃ n contact notify,
          n ∈ order ∧
          Contact_get n (probe_user (event_probe event)) = Done contact ∧
          notificationPlugins (medium contact) = Some notify ∧
          x = mkNotify (medium contact) (probe_name (event_probe event))
                       (data contact) "XXX message") ∧
  (length (sent (processEvent event order)) ≤ length order)%nat ∧
  (∀ err, Monitor_get (probe_monitor (event_probe event))
                      (probe_user (event_probe event)) = Failed err →
          sent (processEvent event order) = []).
Proof.
  unfold processEvent.
  destruct (Monitor_get _ _) as [monitor|err]; cbn [sent].
  - split; [|split; [|done]].
    + intros x [H|H]%notified_by_fold; [by apply elem_of_nil in H|done].
    + etrans; [apply notified_length_fold|]. simpl. lia.
  - split; [by intros x ?%elem_of_nil|]. split; [simpl; lia|done].
Qed.

(** *** Logins *)

(** The characters with a meaning in an LDAP search filter. *)
Definition filter_special (c : ascii) : bool :=
  bool_decide (c ∈ ["("; ")"; "*"; "092"; "&"; "|"; "!"; "="; "<"; ">"; "~"; "000"]%char).

Lemma login_char_plain c : is_login_char c = true → filter_special c = false.
Proof. destruct c as [[] [] [] [] [] [] [] []]; by vm_compute. Qed.

Lemma alpha_is_login_char c : Probes.is_alpha c = true → is_login_char c = true.
Proof. unfold is_login_char. by intros ->. Qed.

(** X22.  [accountFromLogin] lets only plain logins past its check: when it
    does not throw, the login has at least two characters, starts with a
    letter and consists of letters, digits, underscores, dots and at-signs;
    so no character with a meaning in an LDAP filter gets into the filter it
    searches with. *)
Theorem only_plain_logins_are_searched accountCache login r :
  accountFromLogin accountCache login = Ok r →
  (2 ≤ String.length login)%nat ∧
  Probes.all_chars is_login_char login = true ∧
  Probes.all_chars (λ c, negb (filter_special c)) login = true.
Proof.
  unfold accountFromLogin.
  destruct (negb (truthy_string login)); [done|].
  destruct (VALID_LOGIN_CHARS_test login) eqn:Hv; [|done]. intros _.
  destruct login as [|c [|c' rest]]; try done. simpl in Hv.
  rewrite !andb_true_iff in Hv. destruct Hv as ((Hc & Hc') & Hrest).
  apply alpha_is_login_char in Hc.
  assert (Probes.all_chars is_login_char (String c (String c' rest)) = true) as Hall.
  { simpl. by rewrite Hc, Hc', Hrest. }
  split; [simpl; lia|]. split; [done|].
  apply (ProbeShape.all_chars_impl is_login_char); [|done].
  intros x Hx. by rewrite (login_char_plain x Hx).
Qed.

End Dispatch.

(** X23.  What [accountFromLogin] has handed to its callback for a login, it
    hands to the callback of the next call for that login from the account
    cache, as long as the entry is there: with the same error or the same
    account, also when no account was found, whatever the directory would
    answer then, and without a change to the cache. *)
Theorem accountFromLogin_answers_again_from_cache
    (C1 C2 : Collaborators) accountCache login accountCache1 r :
  @accountFromLogin C1 accountCache login = Ok (accountCache1, r) →
  @accountFromLogin C2 accountCache1 login = Ok (accountCache1, r).
Proof.
  unfold accountFromLogin.
  destruct (negb (truthy_string login)); [done|].
  destruct (negb (VALID_LOGIN_CHARS_test login)); [done|].
  destruct (accountCache !! login) as [[cerr cacct]|] eqn:Hhit.
  - simpl. destruct cerr as [e|]; intros [= <- <-]; rewrite Hhit; done.
  - unfold account_cacheAndCallback.
    destruct (run_finish _) as [status|err].
    + destruct (negb (status =? 0)%Z).
      * intros [= <- <-]. by rewrite lookup_insert_eq.
      * destruct (run_entries _) as [|a [|]]; intros [= <- <-];
          by rewrite lookup_insert_eq.
    + intros [= <- <-]. by rewrite lookup_insert_eq.
Qed.

Section Setup.
Context {C : Collaborators}.

(** X24.  For a login that has no entry in the account cache and that the
    directory does not know (the search ends with status 0 and no entry),
    [setup] answers 404 with a message that names the login, puts no account
    on the request and does not call [next]; and it answers the same for the
    next request with that login from the account cache, whatever the
    directory holds by then. *)
Theorem unknown_login_is_a_404 accountCache login :
  truthy_string login = true → VALID_LOGIN_CHARS_test login = true →
  accountCache !! login = None →
  ufds_search "o=smartdc" ("(&(login=" +:+ login +:+ ")(objectclass=sdcperson))") "sub"
  = mkRun [] (EndEvent 0) →
  let answer := Stalled 404 ("No such login, '" +:+ login +:+ "'.") in
  let accountCache1 := <[login := mkCached None None]> accountCache in
  setup accountCache (Some login) = Ok (accountCache1, answer) ∧
  ∀ C' : Collaborators,
    @setup C' accountCache1 (Some login) = Ok (accountCache1, answer).
Proof.
  intros Ht Hv Hmiss Hrun. cbn zeta. split.
  - unfold setup, accountFromLogin. simpl. rewrite Ht, Hv, Hmiss, Hrun. done.
  - intros C'. unfold setup, accountFromLogin. simpl.
    rewrite Ht, Hv, lookup_insert_eq. done.
Qed.

End Setup.

(** *** The installation of [Demo] *)

(** X20, witness.  Three items, the second of which reports an error. *)
Lemma the_first_error_is_called_back :
  afe_cb (asyncForEach 3 [None; Some Demo.broken; None]) = [Some Demo.broken].
Proof.
  apply (asyncForEach_calls_back_once 3 [None; Some Demo.broken; None]).
  simpl. lia.
Defined.

(** X22, witness.  The login of bob. *)
Lemma devbob_is_a_plain_login :
  (2 ≤ String.length "devbob")%nat ∧
  Probes.all_chars is_login_char "devbob" = true ∧
  Probes.all_chars (λ c, negb (filter_special c)) "devbob" = true.
Proof.
  apply (@only_plain_logins_are_searched Demo.collaborators ∅ "devbob"
           (<["devbob" := mkCached None (Some Demo.devbob)]> ∅,
            (None, Some Demo.devbob))).
  reflexivity.
Defined.

(** X23, witness.  The account of bob, asked for again. *)
Lemma devbob_is_answered_from_the_cache :
  @accountFromLogin Demo.collaborators
    (<["devbob" := mkCached None (Some Demo.devbob)]> ∅) "devbob"
  = Ok (<["devbob" := mkCached None (Some Demo.devbob)]> ∅, (None, Some Demo.devbob)).
Proof.
  apply (accountFromLogin_answers_again_from_cache Demo.collaborators Demo.collaborators
           ∅ "devbob").
  reflexivity.
Defined.

(** X24, witness.  A login the directory does not know. *)
Lemma a_stranger_is_a_404 :
  @setup Demo.collaborators ∅ (Some "stranger")
  = Ok (<["stranger" := mkCached None None]> ∅,
        Stalled 404 "No such login, 'stranger'.") ∧
  ∀ C' : Collaborators,
    @setup C' (<["stranger" := mkCached None None]> ∅) (Some "stranger")
    = Ok (<["stranger" := mkCached None None]> ∅,
          Stalled 404 "No such login, 'stranger'.").
Proof.
  apply (@unknown_login_is_a_404 Demo.collaborators ∅ "stranger"); reflexivity.
Defined.

(** X21, witness.  The event of the whistlelog probe: the one call made is the mail to
    bob. *)
Lemma the_mail_goes_to_a_contact :
  ∃ n contact notify,
    n ∈ ["email"; "ghost"; "pager"] ∧
    @MasterApp.Contact_get Demo.collaborators n Demo.bob = Done contact ∧
    @MasterApp.notificationPlugins Demo.collaborators (MasterApp.medium contact)
    = Some notify ∧
    MasterApp.mkNotify "email" "whistlelog" "bob@example.com" "XXX message"
    = MasterApp.mkNotify (MasterApp.medium contact) "whistlelog"
        (MasterApp.data contact) "XXX message".
Proof.
  apply (proj1 (@only_the_contacts_are_notified Demo.collaborators
                  Demo.whistle_event ["email"; "ghost"; "pager"])
           (MasterApp.mkNotify "email" "whistlelog" "bob@example.com" "XXX message")).
  apply list_elem_of_here.
Defined.

End DispatchFacts.

(* ===================================================================== *)
(** ** Properties of the Monitor model *)
(* ===================================================================== *)

Module MonitorFacts.

Import MonitorModel.

Section MonitorFacts.
Context {PF : Probes.Platform} {CT : Contacts}.

Lemma monitor_validate_Ok r r' :
  validate r = Ok r' →
  truthyS (raw_amonmonitor r) = true ∧
  ∃ c, raw_contact r = Some c ∧ truthy_contact c = true ∧
       parse_each (as_array c) = Ok tt ∧
       r' = mkRaw (raw_amonmonitor r) (Some (Many (as_array c))) (raw_objectclass r).
Proof.
  unfold validate.
  destruct (truthyS (raw_amonmonitor r)) eqn:Hn; [|done]. simpl.
  destruct (raw_contact r) as [c|]; [|done].
  destruct (truthy_contact c) eqn:Hc; [|done]. simpl.
  destruct (parse_each (as_array c)) as [[]|] eqn:E; [|done]. simpl.
  intros [= <-]. split; [done|]. by exists c.
Qed.

Lemma parse_each_Ok cs :
  parse_each cs = Ok tt ↔ Forall (λ c, Contact_parseUrn c = None) cs.
Proof.
  induction cs as [|c cs IH]; simpl; [done|].
  rewrite Forall_cons. destruct (Contact_parseUrn c); [|by rewrite IH; intuition].
  split; [done|]. by intros [? _].
Qed.

(** What the constructor checks, and what it builds. *)
Lemma new_Monitor_Ok data m :
  new_Monitor data = Ok m →
  Probes.nameRegex_test (String_of (name m)) = true ∧
  truthyS (name m) = true ∧
  raw_objectclass (raw m) = Some Monitor_objectclass ∧
  (∃ cs, contacts m = Some (Many cs) ∧ parse_each cs = Ok tt ∧
         ∃ c, match data with
              | FromUfds e => ent_contact e
              | FromPublic d => data_contacts d
              end = Some c ∧ truthy_contact c = true ∧ cs = as_array c) ∧
  match data with
  | FromUfds e => dn m = ent_dn e
  | FromPublic d =>
    user m = data_user d ∧ name m = data_name d ∧ truthyS (data_user d) = true ∧
    dn m = Monitor_dn (String_of (data_user d)) (String_of (data_name d))
  end.
Proof.
  assert (∀ o, is_Ok (validateName o) = true →
               Probes.nameRegex_test (String_of o) = true) as Hn.
  { intros o. unfold validateName. by destruct (Probes.nameRegex_test _). }
  destruct data as [e|d]; simpl.
  - destruct (truthy_string _); [|done]. unfold construct_ufds.
    destruct (String.eqb_spec (ent_objectclass e) Monitor_objectclass) as [Hoc|];
      [|done]. simpl. intros H.
    apply ProbeFacts.bind_Ok in H as (parts & _ & H).
    apply ProbeFacts.bind_Ok in H as ([] & Hv & H).
    apply ProbeFacts.bind_Ok in H as (r' & Hr & H). injection H as <-.
    apply monitor_validate_Ok in Hr as (Ht & c & Hc & Htc & Hp & ->).
    unfold name, contacts. simpl in *. rewrite Hoc.
    repeat split; try done; [apply Hn; by rewrite Hv|]. eauto 10.
  - unfold construct_public.
    destruct (truthyS (data_name d)) eqn:Tn; [|done].
    destruct (truthyS (data_user d)) eqn:Tu; [|done]. simpl. intros H.
    apply ProbeFacts.bind_Ok in H as ([] & Hv & H).
    apply ProbeFacts.bind_Ok in H as (r' & Hr & H). injection H as <-.
    apply monitor_validate_Ok in Hr as (Ht & c & Hc & Htc & Hp & ->).
    unfold name, contacts. simpl in *.
    repeat split; try done; [apply Hn; by rewrite Hv|]. eauto 10.
Qed.

(** X25.  The contacts of a monitor that validates are an array of contacts
    that [Contact.parseUrn] accepts: the array that was given or, for one
    contact given as a string, the array of that one.  An empty array passes
    the check of the required fields, so a monitor may have no contact at
    all. *)
Theorem valid_monitor_has_an_array_of_contacts :
  (∀ data m,
     new_Monitor data = Ok m →
     ∃ cs, contacts m = Some (Many cs) ∧
           Forall (λ c, Contact_parseUrn c = None) cs ∧
           ∃ c, match data with
                | FromUfds e => ent_contact e
                | FromPublic d => data_contacts d
                end = Some c ∧
                match c with
                | One s => truthy_string s = true ∧ cs = [s]
                | Many l => cs = l
                end) ∧
  (∀ u n,
     truthy_string u = true → Probes.nameRegex_test n = true →
     new_Monitor (FromPublic (mkPublicData (Some u) (Some n) (Some (Many []))))
     = Ok (mkMonitor (Monitor_dn u n) (Some u)
                     (mkRaw (Some n) (Some (Many [])) (Some Monitor_objectclass)))).
Proof.
  split.
  - intros data m (_ & _ & _ & (cs & Hcs & Hp & c & Hc & Htc & ->) & _)%new_Monitor_Ok.
    exists (as_array c). split; [done|]. split; [by apply parse_each_Ok|].
    exists c. split; [done|]. by destruct c.
  - intros u n Hu Hn. simpl. unfold construct_public. simpl. rewrite Hu.
    assert (truthy_string n = true) as -> by (by destruct n).
    simpl. unfold validateName. simpl. rewrite Hn. simpl.
    unfold validate. simpl.
    assert (truthy_string n = true) as -> by (by destruct n). done.
Qed.

Lemma monitor_rebuilds data m :
  new_Monitor data = Ok m →
  truthyS (user m) = true →
  new_Monitor (FromPublic (serialize m))
  = Ok (mkMonitor (Monitor_dn (String_of (user m)) (String_of (name m)))
                  (user m) (raw m)).
Proof.
  intros Hm Hu.
  apply new_Monitor_Ok in Hm as (Hre & Hn & Hoc & (cs & Hcs & Hp & _) & Hdn).
  simpl. unfold construct_public. cbn [data_name data_user serialize].
  rewrite Hn, Hu. cbn [negb]. unfold raw_of_public. cbn [data_name data_contacts serialize].
  unfold validateName. cbn [raw_amonmonitor]. rewrite Hre. simpl.
  unfold validate. cbn [raw_amonmonitor raw_contact raw_objectclass].
  rewrite Hn, Hcs. simpl. rewrite Hp. simpl.
  do 2 f_equal. unfold name, contacts in *. destruct (raw m) as [a c o].
  simpl in *. by rewrite Hcs, Hoc.
Qed.

(** X26.  The serialization of a monitor that validates is accepted by the
    constructor again exactly when the monitor has a user.  Then it gives
    the monitor back: with the same user and the same raw data, at the DN
    [Monitor.dn] gives the user and the name; a monitor that was built from
    the public form always has a user, and comes back as the very same
    instance.  A monitor built from a directory entry whose DN names no user
    has none: its serialization is refused by [assert.ok(data.user)]. *)
Theorem monitor_serialize_roundtrip data m :
  new_Monitor data = Ok m →
  (truthyS (user m) = true →
   new_Monitor (FromPublic (serialize m))
   = Ok (mkMonitor (Monitor_dn (String_of (user m)) (String_of (name m)))
                   (user m) (raw m))) ∧
  (truthyS (user m) = false →
   new_Monitor (FromPublic (serialize m)) = Throw (AssertionError "data.user")) ∧
  (∀ d, data = FromPublic d →
        truthyS (user m) = true ∧ new_Monitor (FromPublic (serialize m)) = Ok m).
Proof.
  intros Hm. split; [by apply (monitor_rebuilds data)|]. split.
  - intros Hu. apply new_Monitor_Ok in Hm as (_ & Hn & _).
    simpl. unfold construct_public. cbn [data_name data_user serialize].
    by rewrite Hn, Hu.
  - intros d ->.
    pose proof Hm as (_ & _ & _ & _ & Hu' & Hn' & Hu & Hdn)%new_Monitor_Ok.
    assert (truthyS (user m) = true) as Hum by (by rewrite Hu').
    split; [done|]. rewrite (monitor_rebuilds _ _ Hm Hum). f_equal.
    destruct m as [mdn mu mr]. simpl in *. by rewrite Hdn, Hu', <- Hn'.
Qed.

Context {D : UfdsModel.Directory MonitorData}.

(** X27.  A monitor that [Monitor.get] has handed back, and whose DN names its
    user, is handed back by the next [Monitor.get] for the same user and
    name from the cache, with the same user and the same raw data: the
    serialization the cache holds is always accepted by the constructor, so
    the directory is not asked again. *)
Theorem a_monitor_is_got_from_the_cache
    (app app1 : @UfdsModel.App Monitor_Model D) (u n : option string) (m : Monitor) :
  Monitor_get app u n = Ok (app1, Done m) →
  truthyS (user m) = true →
  ∃ m', Monitor_get app1 u n = Ok (UfdsModel.logto LInfo "modelGet" app1, Done m') ∧
        user m' = user m ∧ raw m' = raw m.
Proof.
  unfold Monitor_get.
  destruct (negb (Probes.UUID_RE_test (String_of u))); [done|].
  destruct (validateName n) as [[]|]; [|done]. simpl.
  set (dn := Monitor_dn (String_of u) (String_of n)).
  intros [= Hget] Hu. revert Hget.
  unfold UfdsModel.modelGet at 1. cbn zeta.
  destruct (UfdsModel.modelGet_cached _ _ _) as [app' r|app'] eqn:Hc.
  - intros [= -> ->].
    apply (@ReadFacts.modelGet_cached_Done Monitor_Model D) in Hc
      as (-> & d & Hd & Hitem).
    exists m. split; [|done]. unfold UfdsModel.modelGet. cbn zeta.
    by rewrite (@ReadFacts.modelGet_cached_hit Monitor_Model D _ _ _ d m).
  - intros Hs.
    pose proof (@ReadFacts.modelGet_search_found Monitor_Model D _ _ _ _ _ _ Hs)
      as (entry & _ & Hm).
    apply (@ReadFacts.modelGet_search_Done Monitor_Model D) in Hs.
    pose proof (monitor_rebuilds _ _ Hm Hu) as Hround.
    set (m' := mkMonitor (Monitor_dn (String_of (user m)) (String_of (name m)))
                         (user m) (raw m)) in *.
    exists m'. split; [|done]. unfold UfdsModel.modelGet. cbn zeta.
    rewrite (@ReadFacts.modelGet_cached_hit Monitor_Model D _ _ _
               (FromPublic (serialize m)) m'); [done|exact Hs|exact Hround].
Qed.

End MonitorFacts.

(** *** The installation of [Demo] *)

(** X26, witness.  The whistle monitor, serialized and built again; and the
    monitor of an entry whose DN names no user, whose serialization is
    refused. *)
Lemma whistle_roundtrip :
  @new_Monitor Demo.platform Fixtures.contacts
    (FromPublic (serialize Fixtures.whistle_monitor))
  = Ok Fixtures.whistle_monitor ∧
  @new_Monitor Demo.platform Fixtures.contacts (FromUfds Fixtures.orphan_entry)
  = Ok Fixtures.orphan_monitor ∧
  @new_Monitor Demo.platform Fixtures.contacts
    (FromPublic (serialize Fixtures.orphan_monitor))
  = Throw (AssertionError "data.user").
Proof.
  assert (@new_Monitor Demo.platform Fixtures.contacts (FromUfds Fixtures.orphan_entry)
          = Ok Fixtures.orphan_monitor) as Horphan by (by vm_compute).
  split; [|split; [exact Horphan|]].
  - apply (@monitor_serialize_roundtrip Demo.platform Fixtures.contacts
             (FromPublic Fixtures.whistle) Fixtures.whistle_monitor);
      [by vm_compute|reflexivity].
  - apply (@monitor_serialize_roundtrip Demo.platform Fixtures.contacts
             (FromUfds Fixtures.orphan_entry) Fixtures.orphan_monitor);
      [exact Horphan|reflexivity].
Defined.

(** X27, witness.  The whistle monitor, got twice in a row. *)
Lemma whistle_is_got_from_the_cache :
  ∃ m',
    @Monitor_get Demo.platform Fixtures.contacts Fixtures.monitor_ufds
      (@UfdsModel.modelGet Fixtures.monitors Fixtures.monitor_ufds Fixtures.monitor_app
         (Monitor_dn Demo.bob "whistle") false).1
      (Some Demo.bob) (Some "whistle")
    = Ok (UfdsModel.logto LInfo "modelGet"
            (@UfdsModel.modelGet Fixtures.monitors Fixtures.monitor_ufds
               Fixtures.monitor_app (Monitor_dn Demo.bob "whistle") false).1,
          Done m') ∧
    user m' = user Fixtures.whistle_monitor ∧ raw m' = raw Fixtures.whistle_monitor.
Proof.
  apply (@a_monitor_is_got_from_the_cache Demo.platform Fixtures.contacts
           Fixtures.monitor_ufds Fixtures.monitor_app).
  - reflexivity.
  - reflexivity.
Defined.

(** X25, witness.  A monitor of bob without contacts. *)
Lemma a_monitor_without_contacts :
  @MonitorModel.new_Monitor Demo.platform Fixtures.contacts
    (MonitorModel.FromPublic
       (MonitorModel.mkPublicData (Some Demo.bob) (Some "quiet")
          (Some (MonitorModel.Many []))))
  = Ok (MonitorModel.mkMonitor (MonitorModel.Monitor_dn Demo.bob "quiet") (Some Demo.bob)
          (MonitorModel.mkRaw (Some "quiet") (Some (MonitorModel.Many []))
             (Some MonitorModel.Monitor_objectclass))).
Proof.
  apply (proj2 (@valid_monitor_has_an_array_of_contacts
                  Demo.platform Fixtures.contacts)); reflexivity.
Defined.

End MonitorFacts.

(* ===================================================================== *)
(** ** Properties of the handlers of UpdateMonitor *)
(* ===================================================================== *)

Module UpdateFacts.

Import Monitors MonitorRoutes.

Section Callbacks.
Context {M : UfdsModel.Model} {D : UfdsModel.Directory UfdsModel.Data} {T : Type}.


(** For a callback that does not throw, [modelGet] calls it once, with what
    [UfdsModel.modelGet] gives as the app and the outcome. *)
Lemma modelGet_cb_returns (app : UfdsModel.App) dn skipCache
    (k : @UfdsCallback.callback M D T) :
  (∀ app0 r, is_Ok (k 0%nat app0 r).2 = true) →
  UfdsCallback.modelGet_cb app dn skipCache k
  = k 0%nat (UfdsModel.modelGet app dn skipCache).1 (UfdsModel.modelGet app dn skipCache).2.
Proof.
  intros Hk. unfold UfdsCallback.modelGet_cb, UfdsModel.modelGet.
  destruct (if skipCache then _ else _) as [app0 [item|e]|app0]; cbn [fst snd].
  - specialize (Hk app0 (Done item)).
    by destruct (k 0%nat app0 (Done item)) as [app1 [t|e]].
  - done.
  - by destruct (UfdsModel.modelGet_search _ _ _ _) as [app2 r].
Qed.

End Callbacks.

Section UpdateFacts.
Context {PF : Probes.Platform} {CT : MonitorModel.Contacts}.
Context {D : UfdsModel.Directory MonitorModel.MonitorData}.






End UpdateFacts.

(** *** The installation of [Demo] *)


End UpdateFacts.

(* ===================================================================== *)
(** ** Properties of the manifest the relay serves *)
(* ===================================================================== *)

Module ManifestFacts.

Import Relay.

Section ManifestFacts.
Context {N : Node}.

(** X29.  GET /agentprobes answers 200 only with the parsed manifest or, when
    the file is absent, with an empty array.  A read error other than ENOENT
    is answered with a bare 500.  A manifest that is not JSON makes the
    handler throw: the error of [JSON.parse] is not caught and nothing is
    sent. *)
Theorem listAgentProbes_on_a_bad_manifest (req : Request) :
  let jsonPath := path_resolve (_dataDir req)
                    (_targetType req +:+ "-" +:+ _targetUuid req +:+ ".json") in
  (∀ c, fs_readFile jsonPath = ReadError c → c ≠ "ENOENT" →
        listAgentProbes req = Ok (mkResponse 500 [] NoBody)) ∧
  (∀ file msg, fs_readFile jsonPath = ReadData file →
               JSON_parse file = SyntaxError msg →
               listAgentProbes req = Throw (JsErr (OtherError None) msg)) ∧
  (∀ r, listAgentProbes req = Ok r → code r = 200%Z →
        headers r = [] ∧
        ((content r = Json (JArr []) ∧ fs_readFile jsonPath = ReadError "ENOENT") ∨
         ∃ file v, fs_readFile jsonPath = ReadData file ∧
                   JSON_parse file = Parsed v ∧ content r = Json v)).
Proof.
  cbn zeta. unfold listAgentProbes. split; [|split].
  - intros c -> Hc. by destruct (String.eqb_spec c "ENOENT").
  - by intros file msg -> ->.
  - intros r.
    destruct (fs_readFile _) as [c|file] eqn:E;
      [destruct (String.eqb_spec c "ENOENT") as [->|]|].
    + intros [= <-] _. split; [done|]. by left.
    + by intros [= <-] ?.
    + destruct (JSON_parse file) as [v|] eqn:Ep; [|done]. intros [= <-] _.
      split; [done|]. right. by exists file, v.
Qed.

End ManifestFacts.

(** *** The installation of [Demo] *)

(** X29, witness.  The manifest of bob's zone. *)
Lemma the_manifest_of_the_zone_is_sent :
  Relay.headers (Relay.mkResponse 200 [] (Relay.Json (JArr []))) = [] ∧
  ((Relay.content (Relay.mkResponse 200 [] (Relay.Json (JArr []))) = Relay.Json (JArr []) ∧
    @Relay.fs_readFile Demo.node
      (@Relay.path_resolve Demo.node Demo.dataDir ("machine" +:+ "-" +:+ Demo.zone +:+ ".json"))
    = Relay.ReadError "ENOENT") ∨
   ∃ file v,
     @Relay.fs_readFile Demo.node
       (@Relay.path_resolve Demo.node Demo.dataDir ("machine" +:+ "-" +:+ Demo.zone +:+ ".json"))
     = Relay.ReadData file ∧
     @Relay.JSON_parse Demo.node file = Parsed v ∧
     Relay.content (Relay.mkResponse 200 [] (Relay.Json (JArr []))) = Relay.Json v).
Proof.
  apply (proj2 (proj2 (@listAgentProbes_on_a_bad_manifest Demo.node
                         Demo.zone_request))
           (Relay.mkResponse 200 [] (Relay.Json (JArr [])))); reflexivity.
Defined.

End ManifestFacts.

(* ===================================================================== *)
(** ** Properties of the wait for the new zone *)
(* ===================================================================== *)

Module BootstrapFacts.

Import Bootstrap.

Definition running (z : Zone) : bool := String.eqb (running_status z) "running".

(** The call number [k] answers with a zone that is not running. *)
Definition still_starting (getZone : nat → outcome Zone) (k : nat) : Prop :=
  ∃ z, getZone k = Done z ∧ running z = false.

Lemma until_running_step getZone s zone polls :
  until_running getZone (S s) zone polls
  = if running zone then (None, zone, polls)
    else if (s <=? 0)%nat then (Some too_long, zone, polls)
    else match getZone polls with
         | Failed err => (Some err, zone, S polls)
         | Done zone_ => until_running getZone s zone_ (S polls)
         end.
Proof. done. Qed.

Lemma until_running_zero getZone zone polls :
  until_running getZone 0 zone polls
  = if running zone then (None, zone, polls) else (Some too_long, zone, polls).
Proof. done. Qed.

Lemma until_running_bound getZone sentinel zone polls :
  (polls ≤ (until_running getZone sentinel zone polls).2)%nat ∧
  ((until_running getZone sentinel zone polls).2 ≤ polls + (sentinel - 1))%nat ∧
  ((until_running getZone sentinel zone polls).1.1 = None →
   running (until_running getZone sentinel zone polls).1.2 = true).
Proof.
  revert zone polls. induction sentinel as [|s IH]; intros zone polls.
  - rewrite until_running_zero. destruct (running zone) eqn:Hr; simpl;
      repeat split; (done || lia).
  - rewrite until_running_step. destruct (running zone) eqn:Hr; simpl;
      [repeat split; (done || lia)|].
    destruct (Nat.leb_spec s 0); simpl; [repeat split; (done || lia)|].
    destruct (getZone polls) as [zone_|err]; simpl; [|repeat split; (done || lia)].
    destruct (IH zone_ (S polls)) as (H1 & H2 & H3). repeat split; (done || lia).
Qed.

Lemma until_running_gives_up getZone sentinel zone polls :
  running zone = false →
  (∀ k, (polls ≤ k < polls + (sentinel - 1))%nat → still_starting getZone k) →
  (until_running getZone sentinel zone polls).1.1 = Some too_long ∧
  (until_running getZone sentinel zone polls).2 = (polls + (sentinel - 1))%nat.
Proof.
  revert zone polls. induction sentinel as [|s IH]; intros zone polls Hr Hall.
  - rewrite until_running_zero, Hr. simpl. split; (done || lia).
  - rewrite until_running_step, Hr.
    destruct (Nat.leb_spec s 0); simpl; [split; (done || lia)|].
    destruct (Hall polls) as (z & -> & Hz); [lia|].
    destruct (IH z (S polls) Hz) as [H1 H2].
    { intros k Hk. apply Hall. lia. }
    split; [done|]. rewrite H2. lia.
Qed.

Lemma until_running_first getZone sentinel zone polls j zj :
  running zone = false →
  (∀ k, (polls ≤ k < j)%nat → still_starting getZone k) →
  (polls ≤ j < polls + (sentinel - 1))%nat →
  getZone j = Done zj → running zj = true →
  until_running getZone sentinel zone polls = (None, zj, S j).
Proof.
  revert zone polls. induction sentinel as [|s IH]; intros zone polls Hr Hall Hj Hg Hzj;
    [simpl in Hj; lia|].
  rewrite until_running_step, Hr.
  destruct (Nat.leb_spec s 0); [lia|].
  destruct (decide (j = polls)) as [->|Hne].
  - rewrite Hg. destruct s; [lia|]. by rewrite until_running_step, Hzj.
  - destruct (Hall polls) as (z & -> & Hz); [lia|].
    apply IH; try done.
    + intros k Hk. apply Hall. lia.
    + lia.
Qed.

Lemma until_running_fails getZone sentinel zone polls j e :
  running zone = false →
  (∀ k, (polls ≤ k < j)%nat → still_starting getZone k) →
  (polls ≤ j < polls + (sentinel - 1))%nat →
  getZone j = Failed e →
  (until_running getZone sentinel zone polls).1.1 = Some e ∧
  (until_running getZone sentinel zone polls).2 = S j.
Proof.
  revert zone polls. induction sentinel as [|s IH]; intros zone polls Hr Hall Hj Hg;
    [simpl in Hj; lia|].
  rewrite until_running_step, Hr.
  destruct (Nat.leb_spec s 0); [lia|].
  destruct (decide (j = polls)) as [->|Hne].
  - by rewrite Hg.
  - destruct (Hall polls) as (z & -> & Hz); [lia|].
    apply IH; try done.
    + intros k Hk. apply Hall. lia.
    + lia.
Qed.

(** X30.  The wait for the new zone of [createDevzone] ends after at most 29
    calls of [mapi.getZone], whatever they answer.  It succeeds only with a
    zone whose status is "running": at once for a zone that is created
    running, else with the first answer that is running, if that comes
    within 29 calls and no call fails before.  A call that fails ends the
    wait with its error.  If the first 29 answers are all zones that are not
    running, the wait ends after those calls with "took too long". *)
Theorem devzone_wait_is_bounded (getZone : nat → outcome Zone) (newZone : Zone) :
  let r := wait_for_devzone getZone newZone in
  (r.2 ≤ 29)%nat ∧
  (r.1.1 = None → running r.1.2 = true) ∧
  (running newZone = true → r = (None, newZone, 0%nat)) ∧
  (running newZone = false →
   (∀ j zj, (j < 29)%nat → (∀ k, (k < j)%nat → still_starting getZone k) →
            getZone j = Done zj → running zj = true → r = (None, zj, S j)) ∧
   (∀ j e, (j < 29)%nat → (∀ k, (k < j)%nat → still_starting getZone k) →
           getZone j = Failed e → r.1.1 = Some e ∧ r.2 = S j) ∧
   ((∀ k, (k < 29)%nat → still_starting getZone k) →
    r.1.1 = Some too_long ∧ r.2 = 29%nat)).
Proof.
  cbn zeta. unfold wait_for_devzone.
  destruct (until_running_bound getZone 30 newZone 0) as (_ & Hb & Hok).
  split; [lia|]. split; [done|]. split.
  - intros Hr. by rewrite until_running_step, Hr.
  - intros Hr. split; [|split].
    + intros j zj Hj Hall Hg Hz. apply until_running_first; try done.
      * intros k Hk. apply Hall. lia.
      * lia.
    + intros j e Hj Hall Hg. apply until_running_fails; try done.
      * intros k Hk. apply Hall. lia.
      * lia.
    + intros Hall. apply (until_running_gives_up getZone 30 newZone 0 Hr).
      intros k Hk. apply Hall. lia.
Qed.

(** *** The installation of [Demo] *)

(** X30, witness.  A zone that is running at the third look. *)
Lemma the_devzone_runs_at_the_third_look :
  Bootstrap.wait_for_devzone Fixtures.getZone (Fixtures.devzone "provisioning")
  = (None, Fixtures.devzone "running", 3%nat).
Proof.
  apply (proj1 (proj2 (proj2 (proj2 (devzone_wait_is_bounded
                                       Fixtures.getZone (Fixtures.devzone "provisioning"))))
                 eq_refl) 2%nat (Fixtures.devzone "running")).
  - lia.
  - intros k Hk. exists (Fixtures.devzone "provisioning").
    destruct k as [|[|k]]; [done|done|lia].
  - reflexivity.
  - reflexivity.
Defined.

End BootstrapFacts.
